(** * Linguflex smart-home helper: bulb and outlet workers and managers

    A shallow embedding of [modules/full/smart_home_devices_helper.py]:
    the two worker threads ([SmartBulbThread], [OutletDeviceThread]), the
    two managers ([LightManager], [OutletManager]) and the colour helpers,
    followed by the properties of the design document that concern them. *)

From Stdlib Require Import ZArith Lia Bool Ascii.
From Stdlib Require Import Floats.SpecFloat.
From stdpp Require Import base option list gmap strings.

Local Open Scope Z_scope.

(** ** Python values, exceptions and results *)

Module Py.

(** The exceptions the modelled code can raise. *)
Inductive exn : Type :=
| KeyError (key : string)
| TypeError
| ValueError
| IndexError
| ZeroDivisionError
| OverflowError.

(** What a call produces: a returned value or a raised exception. *)
Inductive outcome (A : Type) : Type :=
| Return (a : A)
| Raise (e : exn).
Arguments Return {A} a.
Arguments Raise {A} e.

#[global] Instance outcome_ret : MRet outcome := fun A a => Return a.
#[global] Instance outcome_bind : MBind outcome := fun A B f m =>
  match m with
  | Return a => f a
  | Raise e => Raise e
  end.

Definition raises {A} (m : outcome A) : Prop := exists e, m = Raise e.

(** Methods that also change [self]: the object goes in and comes out, with
    whatever was assigned before an exception kept. *)
Definition M (S A : Type) : Type := S -> S * outcome A.

#[global] Instance M_ret {S} : MRet (M S) := fun A a s => (s, Return a).
#[global] Instance M_bind {S} : MBind (M S) := fun A B f m s =>
  match m s with
  | (s', Return a) => f a s'
  | (s', Raise e) => (s', Raise e)
  end.

Definition get {S} : M S S := fun s => (s, Return s).
Definition put {S} (s : S) : M S unit := fun _ => (s, Return tt).
Definition lift {S A} (o : outcome A) : M S A := fun s => (s, o).

(** The objects that cross the managers' interface: [None], booleans,
    integers, strings and tuples of integers. *)
Inductive value : Type :=
| VNone
| VBool (b : bool)
| VInt (z : Z)
| VStr (s : string)
| VTuple (items : list Z).

(** The dicts the setters answer with, kept as association lists in
    insertion order, as Python dicts are. *)
Abbreviation dict := (list (string * value)).

(** [d.get(key)] on an answer. *)
Fixpoint dict_get (d : dict) (key : string) : option value :=
  match d with
  | [] => None
  | (k, v) :: d' => if String.eqb k key then Some v else dict_get d' key
  end.

(** An RGB colour, [Tuple[int, int, int]]. *)
Definition color : Type := Z * Z * Z.

Definition value_of_color (c : color) : value :=
  let '(r, g, b) := c in VTuple [r; g; b].

(** A device parameter block, [Dict[str, str]]. *)
Abbreviation param := (gmap string string).

(** [d[key]] on a parameter block. *)
Definition getitem (d : param) (key : string) : outcome string :=
  match d !! key with
  | Some v => Return v
  | None => Raise (KeyError key)
  end.

(** [l[i] = x] on a list: negative indices count from the end, anything
    outside [-len, len) raises [IndexError]. *)
Definition list_setitem {A} (l : list A) (i : Z) (x : A) : outcome (list A) :=
  let n := Z.of_nat (length l) in
  if (0 <=? i) && (i <? n) then Return (<[Z.to_nat i := x]> l)
  else if (- n <=? i) && (i <? 0) then Return (<[Z.to_nat (n + i) := x]> l)
  else Raise IndexError.

(** [l[i]] on a list. *)
Definition list_getitem {A} (l : list A) (i : Z) : outcome A :=
  let n := Z.of_nat (length l) in
  let j := if i <? 0 then n + i else i in
  if j <? 0 then Raise IndexError
  else match l !! Z.to_nat j with
       | Some x => Return x
       | None => Raise IndexError
       end.

(** [l.index(x)]: position of the first element equal to [x]. *)
Fixpoint list_index `{EqDecision A} (x : A) (l : list A) : outcome Z :=
  match l with
  | [] => Raise ValueError
  | y :: l' => if decide (y = x) then Return 0
               else i ← list_index x l'; Return (1 + i)
  end.

(** [sep.join(l)]. *)
Fixpoint join (sep : string) (l : list string) : string :=
  match l with
  | [] => ""
  | [s] => s
  | s :: l' => s +:+ sep +:+ join sep l'
  end.

(** [s[a:b]] for non-negative bounds. *)
Definition slice (s : string) (a b : nat) : string :=
  String.substring a (b - a) s.

(** [s[a:]] for a non-negative bound. *)
Definition slice_from (s : string) (a : nat) : string :=
  String.substring a (String.length s - a) s.

Definition startswith (s p : string) : bool := String.prefix p s.

(** [sub in s]. *)
Fixpoint contains (s sub : string) : bool :=
  String.prefix sub s ||
  match s with
  | EmptyString => false
  | String _ s' => contains s' sub
  end.

(** [d[key] = v] on a dict kept in insertion order: a key already present
    keeps its place and gets the new value, a new key goes to the end. *)
Definition assoc_set {V} (d : list (string * V)) (key : string) (v : V)
    : list (string * V) :=
  if decide (key ∈ d.*1)
  then map (fun kv => if decide (kv.1 = key) then (key, v) else kv) d
  else d ++ [(key, v)].

(** [d.get(key)] on such a dict. *)
Fixpoint assoc_get {V} (d : list (string * V)) (key : string) : option V :=
  match d with
  | [] => None
  | (k, v) :: d' => if decide (k = key) then Some v else assoc_get d' key
  end.

End Py.
Import Py.

(** ** Numbers: integers, binary64 floats and hexadecimal text *)

(** Python's [float] is IEEE 754 binary64; its operations are the rounded
    ones of [SpecFloat] at precision 53 and maximal exponent 1024. *)
Module F64.

Abbreviation float := spec_float.
Definition prec : Z := 53.
Definition emax : Z := 1024.

Definition add : float -> float -> float := SFadd prec emax.
Definition sub : float -> float -> float := SFsub prec emax.
Definition mul : float -> float -> float := SFmul prec emax.
Definition eqb : float -> float -> bool := SFeqb.

Definition zero : float := S754_zero false.
Definition one : float := Eval cbv in binary_normalize prec emax 1 0 false.

Definition is_zero (x : float) : bool :=
  match x with S754_zero _ => true | _ => false end.

(** [x / y]: dividing by a zero raises instead of giving an infinity. *)
Definition div (x y : float) : outcome float :=
  if is_zero y then Raise ZeroDivisionError else Return (SFdiv prec emax x y).

(** [float(z)] for an integer: rounded to nearest, too large raises. *)
Definition of_Z (z : Z) : outcome float :=
  match binary_normalize prec emax z 0 false with
  | S754_infinity _ => Raise OverflowError
  | f => Return f
  end.

(** [int(x)] for a float: truncation towards zero. *)
Definition trunc (x : float) : outcome Z :=
  match x with
  | S754_zero _ => Return 0
  | S754_infinity _ => Raise OverflowError
  | S754_nan => Raise ValueError
  | S754_finite s m e =>
      let a := if 0 <=? e then Z.pos m * 2 ^ e else Z.pos m / 2 ^ (- e) in
      Return (if s then - a else a)
  end.

End F64.

(** A Python number as the interpolation receives it: [int] or [float]. *)
Inductive num : Type :=
| NInt (z : Z)
| NFloat (f : F64.float).

(** [float(x)]. *)
Definition float_of_num (x : num) : outcome F64.float :=
  match x with
  | NInt z => F64.of_Z z
  | NFloat f => Return f
  end.

(** [t * d] with [d] an integer. *)
Definition num_mul_int (t : num) (d : Z) : outcome num :=
  match t with
  | NInt a => Return (NInt (a * d))
  | NFloat x => y ← F64.of_Z d; Return (NFloat (F64.mul x y))
  end.

(** [a + x] with [a] an integer. *)
Definition int_add_num (a : Z) (x : num) : outcome num :=
  match x with
  | NInt b => Return (NInt (a + b))
  | NFloat y => fa ← F64.of_Z a; Return (NFloat (F64.add fa y))
  end.

(** [int(x)]. *)
Definition int_of_num (x : num) : outcome Z :=
  match x with
  | NInt z => Return z
  | NFloat f => F64.trunc f
  end.

Module Hex.

Definition code (c : ascii) : Z := Z.of_N (N_of_ascii c).

Definition in_range (lo hi : ascii) (c : ascii) : bool :=
  (code lo <=? code c) && (code c <=? code hi).

Definition digit_value (c : ascii) : option Z :=
  if in_range "0" "9" c then Some (code c - 48)
  else if in_range "a" "f" c then Some (code c - 87)
  else if in_range "A" "F" c then Some (code c - 55)
  else None.

(** White space as [int()] skips it (code points below 128). *)
Definition is_space (c : ascii) : bool :=
  ((9 <=? code c) && (code c <=? 13)) || ((28 <=? code c) && (code c <=? 32)).

Fixpoint lstrip (s : string) : string :=
  match s with
  | String c s' => if is_space c then lstrip s' else s
  | EmptyString => s
  end.

(** The digits of a literal, single underscores allowed between them:
    value, number of digits, and what follows. *)
Fixpoint scan_digits (s : string) (prev_underscore : bool) (ndigits : nat)
    (acc : Z) : option (Z * nat * string) :=
  match s with
  | EmptyString => if prev_underscore then None else Some (acc, ndigits, s)
  | String c s' =>
      if Ascii.eqb c "_" then
        if prev_underscore then None else scan_digits s' true ndigits acc
      else match digit_value c with
           | Some d => scan_digits s' false (S ndigits) (16 * acc + d)
           | None => if prev_underscore then None else Some (acc, ndigits, s)
           end
  end.

(** [int(s, 16)]. *)
Definition int16 (s : string) : outcome Z :=
  let s1 := lstrip s in
  let '(neg, s2) :=
    match s1 with
    | String "+" r => (false, r)
    | String "-" r => (true, r)
    | _ => (false, s1)
    end in
  let s3 :=
    match s2 with
    | String "0" (String x r) =>
        if Ascii.eqb x "x" || Ascii.eqb x "X" then
          match r with String "_" r' => r' | _ => r end
        else s2
    | _ => s2
    end in
  match s3 with
  | String "_" _ => Raise ValueError
  | _ =>
      match scan_digits s3 false 0 0 with
      | Some (v, S _, rest) =>
          match lstrip rest with
          | EmptyString => Return (if neg then - v else v)
          | _ => Raise ValueError
          end
      | _ => Raise ValueError
      end
  end.

Definition upper_digit (d : Z) : ascii :=
  match String.get (Z.to_nat d) "0123456789ABCDEF" with
  | Some c => c
  | None => "0"%char
  end.

Fixpoint upper_aux (fuel : nat) (n : Z) (acc : string) : string :=
  match fuel with
  | O => acc
  | S fuel' =>
      let acc' := String (upper_digit (n mod 16)) acc in
      if n <? 16 then acc' else upper_aux fuel' (n / 16) acc'
  end.

(** The upper-case hexadecimal digits of a natural number. *)
Definition upper (n : Z) : string :=
  upper_aux (S (Z.to_nat (Z.log2 n))) n "".

Fixpoint zeros (n : nat) : string :=
  match n with
  | O => ""
  | S n' => String "0" (zeros n')
  end.

(** [format(z, '02X')]: sign, then zeros up to width 2, then the digits. *)
Definition format_02X (z : Z) : string :=
  let digits := upper (Z.abs z) in
  let sign := if z <? 0 then "-" else "" in
  let pad := (2 - String.length sign - String.length digits)%nat in
  sign +:+ zeros pad +:+ digits.

(** One replacement field [{:02X}] filled from positional argument [k]. *)
Definition format_field (args : list value) (k : nat) : outcome string :=
  match args !! k with
  | None => Raise IndexError
  | Some (VInt z) => Return (format_02X z)
  | Some (VBool b) => Return (format_02X (if b then 1 else 0))
  | Some (VStr _) => Raise ValueError
  | Some VNone | Some (VTuple _) => Raise TypeError
  end.

(** ['#{:02X}{:02X}{:02X}'.format( *args )]: the fields are filled left to
    right from arguments 0, 1 and 2. *)
Definition format_color (args : list value) : outcome string :=
  r ← format_field args 0;
  g ← format_field args 1;
  b ← format_field args 2;
  Return ("#" +:+ r +:+ g +:+ b).

End Hex.

(** ** Regular expressions, as far as the colour check needs them *)

Module Re.

Inductive atom : Type :=
| Bol                                   (* ^ *)
| Eol                                   (* $ *)
| Chr (c : ascii)
| Set_ (ranges : list (ascii * ascii)). (* [a-bc-d...] *)

Definition in_set (ranges : list (ascii * ascii)) (c : ascii) : bool :=
  existsb (fun r => Hex.in_range (fst r) (snd r) c) ranges.

(** [$] without MULTILINE: at the end of the string, or just before a
    newline that is the last character. *)
Definition at_eol (rest : string) : bool :=
  match rest with
  | EmptyString => true
  | String c EmptyString => Ascii.eqb c (ascii_of_nat 10)
  | _ => false
  end.

(** Matches a sequence of atoms at the current position; [at_start] tells
    whether that position is the beginning of the subject. *)
Fixpoint match_here (p : list atom) (at_start : bool) (s : string) : bool :=
  match p with
  | [] => true
  | Bol :: p' => at_start && match_here p' at_start s
  | Eol :: p' => at_eol s && match_here p' at_start s
  | Chr c :: p' =>
      match s with
      | String c' s' => Ascii.eqb c' c && match_here p' false s'
      | EmptyString => false
      end
  | Set_ ranges :: p' =>
      match s with
      | String c' s' => in_set ranges c' && match_here p' false s'
      | EmptyString => false
      end
  end.

(** [re.match(p, s)] is not [None]. *)
Definition matches (p : list atom) (s : string) : bool := match_here p true s.

End Re.

(** ** Decoding the colour a bulb reports

    [colorsys.hsv_to_rgb] of the Python library and the method
    [hsv_string_to_rgb], which [SmartBulbThread] and [LightManager] both
    carry with the same body. *)

Module Colorsys.

Definition six : F64.float :=
  Eval cbv in binary_normalize F64.prec F64.emax 6 0 false.

(** [colorsys.hsv_to_rgb] *)
Definition hsv_to_rgb (h s v : F64.float)
    : outcome (F64.float * F64.float * F64.float) :=
  if F64.eqb s F64.zero then Return (v, v, v)
  else
    i ← F64.trunc (F64.mul h six);
    fi ← F64.of_Z i;
    let f := F64.sub (F64.mul h six) fi in
    let p := F64.mul v (F64.sub F64.one s) in
    let q := F64.mul v (F64.sub F64.one (F64.mul s f)) in
    let t := F64.mul v (F64.sub F64.one (F64.mul s (F64.sub F64.one f))) in
    let i := i mod 6 in
    if i =? 0 then Return (v, t, p)
    else if i =? 1 then Return (q, v, p)
    else if i =? 2 then Return (p, v, t)
    else if i =? 3 then Return (p, q, v)
    else if i =? 4 then Return (t, p, v)
    else Return (v, p, q).

End Colorsys.

Definition f360 : F64.float :=
  Eval cbv in binary_normalize F64.prec F64.emax 360 0 false.
Definition f1000 : F64.float :=
  Eval cbv in binary_normalize F64.prec F64.emax 1000 0 false.

(** [int(x * 255)] for a float [x]. *)
Definition channel_of (x : F64.float) : outcome Z :=
  k ← F64.of_Z 255;
  F64.trunc (F64.mul x k).

(** [hsv_string_to_rgb], after the three fields have been read. *)
Definition hsv_fields_to_rgb (color_value saturation_value brightness_value : Z)
    : outcome Py.color :=
  cv ← F64.of_Z color_value;
  color_value ← F64.div cv f360;
  sv ← F64.of_Z saturation_value;
  saturation_value ← F64.div sv f1000;
  bv ← F64.of_Z brightness_value;
  brightness_value ← F64.div bv f1000;
  rgb ← Colorsys.hsv_to_rgb color_value saturation_value brightness_value;
  let '(r, g, b) := rgb in
  r ← channel_of r;
  g ← channel_of g;
  b ← channel_of b;
  Return (r, g, b).

(** [hsv_string_to_rgb] *)
Definition hsv_string_to_rgb (hsv : string) : outcome Py.color :=
  color_value ← Hex.int16 (slice hsv 0 4);
  saturation_value ← Hex.int16 (slice hsv 4 8);
  brightness_value ← Hex.int16 (slice hsv 8 12);
  hsv_fields_to_rgb color_value saturation_value brightness_value.

(** ** The device workers

    A worker thread owns one device.  Between two iterations of its loop it
    holds no lock; inside [Condition.wait] it is either still waiting or has
    been notified and will find [notified = True] when it resumes.  A
    [notify()] with nobody waiting is lost. *)

Inductive phase : Type :=
| Busy      (* outside [wait]: starting up, or between two iterations *)
| Waiting   (* blocked in [wait(timeout=0.5)], not notified *)
| Notified. (* notified; [wait] returns [True] when the worker resumes *)

(** [Condition.notify()]: wakes the waiter, if there is one. *)
Definition notify (p : phase) : phase :=
  match p with
  | Waiting => Notified
  | Busy | Notified => p
  end.

Module SmartBulbThread.

Record t : Type := mk {
  bulb_param : param;
  color : Py.color;
  state : string;
  is_running : bool;
  waiting : phase;             (* where the thread stands in its wait *)
  device : list Py.color       (* the [set_colour] calls the driver received *)
}.

(** [__init__] *)
Definition init (bulb_param : param) : t :=
  mk bulb_param (0, 0, 0) "off" true Busy [].

(** [change_color]: under the condition, store the colour and notify. *)
Definition change_color (self : t) (color : Py.color) : t :=
  mk (bulb_param self) color (state self) (is_running self)
     (notify (waiting self)) (device self).

(** [shutdown] *)
Definition shutdown (self : t) : t :=
  mk (bulb_param self) (color self) (state self) false
     (waiting self) (device self).

(** [set_color]: remember the colour and send it to the bulb. *)
Definition set_color (self : t) (rgb_tupel : Py.color) : t :=
  mk (bulb_param self) rgb_tupel (state self) (is_running self)
     (waiting self) (device self ++ [rgb_tupel]).

(** Worker cycle of [run], first half: the loop test and entering [wait]. *)
Definition enter_wait (self : t) : t :=
  match waiting self with
  | Busy =>
      if is_running self then
        mk (bulb_param self) (color self) (state self) (is_running self)
           Waiting (device self)
      else self
  | _ => self
  end.

(** Worker cycle of [run], second half: [wait] returns (notified or timed
    out); when notified, [set_color(self.color)]. *)
Definition wake (self : t) : t :=
  let resumed s :=
    mk (bulb_param s) (color s) (state s) (is_running s) Busy (device s) in
  match waiting self with
  | Notified => resumed (set_color self (color self))
  | Waiting => resumed self
  | Busy => self
  end.

Definition last_applied (self : t) : option Py.color := last (device self).

End SmartBulbThread.

Module OutletDeviceThread.

Record t : Type := mk {
  outlet_param : param;
  state : bool;
  is_running : bool;
  waiting : phase;
  device : list bool     (* [true] for [turn_on], [false] for [turn_off] *)
}.

(** [__init__] *)
Definition init (outlet_param : param) : t :=
  mk outlet_param false true Busy [].

(** [shutdown] *)
Definition shutdown (self : t) : t :=
  mk (outlet_param self) (state self) false (waiting self) (device self).

(** [change_state]: under the condition, store the state and notify. *)
Definition change_state (self : t) (state : bool) : t :=
  mk (outlet_param self) state (is_running self)
     (notify (waiting self)) (device self).

(** [set_state]: remember the state and switch the outlet. *)
Definition set_state (self : t) (state : bool) : t :=
  mk (outlet_param self) state (is_running self) (waiting self)
     (device self ++ [if state then true else false]).

Definition enter_wait (self : t) : t :=
  match waiting self with
  | Busy =>
      if is_running self then
        mk (outlet_param self) (state self) (is_running self) Waiting
           (device self)
      else self
  | _ => self
  end.

Definition wake (self : t) : t :=
  let resumed s :=
    mk (outlet_param s) (state s) (is_running s) Busy (device s) in
  match waiting self with
  | Notified => resumed (set_state self (state self))
  | Waiting => resumed self
  | Busy => self
  end.

Definition last_applied (self : t) : option bool := last (device self).

End OutletDeviceThread.

(** ** The bulb manager *)

Module LightManager.

Record t : Type := mk {
  bulb_params : list param;
  is_running : bool;
  is_rotation_active : bool;
  rotation_speed : F64.float;
  rotation_update_pause : F64.float;
  rotation_clockwise : bool;
  bulb_colors : list Py.color;
  bulb_rotation_colors : list (option Py.color);
  bulbs_ready : bool;
  bulb_threads : list SmartBulbThread.t
}.

Definition with_bulb_colors (self : t) (v : list Py.color) : t :=
  mk (bulb_params self) (is_running self) (is_rotation_active self)
     (rotation_speed self) (rotation_update_pause self)
     (rotation_clockwise self) v (bulb_rotation_colors self)
     (bulbs_ready self) (bulb_threads self).

Definition with_bulb_threads (self : t) (v : list SmartBulbThread.t) : t :=
  mk (bulb_params self) (is_running self) (is_rotation_active self)
     (rotation_speed self) (rotation_update_pause self)
     (rotation_clockwise self) (bulb_colors self) (bulb_rotation_colors self)
     (bulbs_ready self) v.

Definition with_bulb_rotation_colors (self : t)
    (v : list (option Py.color)) : t :=
  mk (bulb_params self) (is_running self) (is_rotation_active self)
     (rotation_speed self) (rotation_update_pause self)
     (rotation_clockwise self) (bulb_colors self) v
     (bulbs_ready self) (bulb_threads self).

Definition ten : F64.float :=
  Eval cbv in binary_normalize F64.prec F64.emax 10 0 false.
Definition half : F64.float :=
  Eval cbv in binary_normalize F64.prec F64.emax 1 (-1) false.

(** [__init__]: one thread and one cached colour [(0,0,0)] per bulb.  The
    defaults [10] and [0.5] of the rotation are stored as the floats of the
    same value. *)
Definition init (bulbs : list param) : t :=
  mk bulbs true false ten half true
     (map (fun _ => (0, 0, 0)) bulbs) [] false
     (map SmartBulbThread.init bulbs).

(** [find_bulb_index]: the loop over [self.bulb_params], [rest] being what
    is still to visit. *)
Fixpoint find_bulb_index_from (self : t) (rest : list param) (name : string)
    : outcome Z :=
  match rest with
  | [] => Return (-1)
  | bulb :: rest' =>
      n ← getitem bulb "name";
      if decide (n = name) then list_index bulb (bulb_params self)
      else find_bulb_index_from self rest' name
  end.

Definition find_bulb_index (self : t) (name : string) : outcome Z :=
  find_bulb_index_from self (bulb_params self) name.

Definition hex_digit_set : Re.atom :=
  Re.Set_ [("0", "9"); ("a", "f"); ("A", "F")]%char.

(** The pattern ["^#[0-9a-fA-F]{6}$"]. *)
Definition hex_color_re : list Re.atom :=
  [Re.Bol; Re.Chr "#"] ++ replicate 6 hex_digit_set ++ [Re.Eol].

(** [is_valid_hex_color] *)
Definition is_valid_hex_color (s : string) : bool :=
  if Re.matches hex_color_re s then true else false.

(** [convert_from_hex] *)
Definition convert_from_hex (hex_color_str : string) : outcome Py.color :=
  let hex_color_str :=
    if startswith hex_color_str "#" then slice_from hex_color_str 1
    else hex_color_str in
  red ← Hex.int16 (slice hex_color_str 0 2);
  green ← Hex.int16 (slice hex_color_str 2 4);
  blue ← Hex.int16 (slice hex_color_str 4 6);
  Return (red, green, blue).

(** The loop of [set_color] over [self.bulb_threads]: the first thread whose
    bulb has the name gets [change_color]; [None] when no thread has it. *)
Fixpoint change_first (threads : list SmartBulbThread.t) (bulb_name : string)
    (color : Py.color) : outcome (option (list SmartBulbThread.t)) :=
  match threads with
  | [] => Return None
  | bulb_thread :: rest =>
      n ← getitem (SmartBulbThread.bulb_param bulb_thread) "name";
      if decide (n = bulb_name) then
        Return (Some (SmartBulbThread.change_color bulb_thread color :: rest))
      else
        r ← change_first rest bulb_name color;
        Return (option_map (cons bulb_thread) r)
  end.

(** [[b["Name"] for b in self.bulb_params]] *)
Fixpoint names_of (key : string) (params : list param)
    : outcome (list string) :=
  match params with
  | [] => Return []
  | b :: rest =>
      n ← getitem b key;
      ns ← names_of key rest;
      Return (n :: ns)
  end.

Definition error_unknown_bulb (bulb_names_string bulb_name : string) : dict :=
  [("result", VStr "error");
   ("reason", VStr ("bulb name does not exist, must be one of these: "
                    +:+ bulb_names_string));
   ("name", VStr bulb_name)].

Definition success_color (color : Py.color) (bulb_name : string) : dict :=
  [("result", VStr "success");
   ("state", value_of_color color);
   ("name", VStr bulb_name)].

(** [set_color]; the answer is a dict or [None]. *)
Definition set_color (bulb_name : string) (color : Py.color)
    : M t (option dict) :=
  self ← get;
  i ← lift (find_bulb_index self bulb_name);
  if i =? -1 then
    bulb_names ← lift (names_of "Name" (bulb_params self));
    let bulb_names_string := join ", " bulb_names in
    mret (Some (error_unknown_bulb bulb_names_string bulb_name))
  else
    colors ← lift (list_setitem (bulb_colors self) i color);
    put (with_bulb_colors self colors);;
    self ← get;
    found ← lift (change_first (bulb_threads self) bulb_name color);
    match found with
    | Some threads =>
        put (with_bulb_threads self threads);;
        mret (Some (success_color color bulb_name))
    | None => mret None
    end.

Definition error_bad_hex (bulb_name : string) : dict :=
  [("result", VStr "error");
   ("reason", VStr "color must be hex string like #C0C0C0");
   ("name", VStr bulb_name)].

(** [set_color_hex] *)
Definition set_color_hex (bulb_name color_string : string)
    : M t (option dict) :=
  if negb (is_valid_hex_color color_string) then
    mret (Some (error_bad_hex bulb_name))
  else
    color ← lift (convert_from_hex color_string);
    set_color bulb_name color.

(** The loop of [get_color] over [self.bulb_threads]: the first thread whose
    bulb has the name. *)
Fixpoint first_thread (threads : list SmartBulbThread.t) (bulb_name : string)
    : outcome (option SmartBulbThread.t) :=
  match threads with
  | [] => Return None
  | bulb_thread :: rest =>
      n ← getitem (SmartBulbThread.bulb_param bulb_thread) "name";
      if decide (n = bulb_name) then Return (Some bulb_thread)
      else first_thread rest bulb_name
  end.

(** [get_color]: refreshes the cache entry from the thread and returns it;
    [None] when no thread has the name. *)
Definition get_color (bulb_name : string) : M t (option Py.color) :=
  self ← get;
  found ← lift (first_thread (bulb_threads self) bulb_name);
  match found with
  | Some bulb_thread =>
      i ← lift (find_bulb_index self bulb_name);
      colors ← lift (list_setitem (bulb_colors self) i
                       (SmartBulbThread.color bulb_thread));
      put (with_bulb_colors self colors);;
      c ← lift (list_getitem colors i);
      mret (Some c)
  | None => mret None
  end.

Definition value_of_result (c : option Py.color) : value :=
  match c with
  | Some c => value_of_color c
  | None => VNone
  end.

(** [get_color_hex]: the colour is passed to [format] as one argument. *)
Definition get_color_hex (bulb_name : string) : M t string :=
  color ← get_color bulb_name;
  hex_color ← lift (Hex.format_color [value_of_result color]);
  mret hex_color.

(** [get_names] *)
Definition get_names (self : t) : outcome (list string) :=
  names_of "name" (bulb_params self).

(** ['#{:02X}{:02X}{:02X}'.format( *color )] *)
Definition hex_of_color (color : Py.color) : outcome string :=
  let '(r, g, b) := color in Hex.format_color [VInt r; VInt g; VInt b].

(** The loop of [get_colors_json_hex] over [enumerate(self.bulb_colors)]. *)
Fixpoint colors_json_hex_from (self : t) (i : Z) (colors : list Py.color)
    (compressed_data : list (string * string))
    : outcome (list (string * string)) :=
  match colors with
  | [] => Return compressed_data
  | color :: rest =>
      bulb ← list_getitem (bulb_params self) i;
      name ← getitem bulb "name";
      hex_color ← hex_of_color color;
      colors_json_hex_from self (i + 1) rest
        (if decide (name ∈ compressed_data.*1)
         then map (fun kv => if decide (kv.1 = name) then (name, hex_color)
                             else kv) compressed_data
         else compressed_data ++ [(name, hex_color)])
  end.

(** [get_colors_json_hex] *)
Definition get_colors_json_hex (self : t) : outcome (list (string * string)) :=
  colors_json_hex_from self 0 (bulb_colors self) [].

(** [interpolate_color], one channel: [int(a + grade * (b - a))]. *)
Definition interpolate_channel (a b : Z) (interpolationGrade : num)
    : outcome Z :=
  let dist := b - a in
  scaled ← num_mul_int interpolationGrade dist;
  sum ← int_add_num a scaled;
  int_of_num sum.

(** [interpolate_color] *)
Definition interpolate_color (color1 color2 : Py.color)
    (interpolationGrade : num) : outcome Py.color :=
  let '(r1, g1, b1) := color1 in
  let '(r2, g2, b2) := color2 in
  r ← interpolate_channel r1 r2 interpolationGrade;
  g ← interpolate_channel g1 g2 interpolationGrade;
  b ← interpolate_channel b1 b2 interpolationGrade;
  Return (r, g, b).

Definition with_rotation_speed (self : t) (v : F64.float) : t :=
  mk (bulb_params self) (is_running self) (is_rotation_active self)
     v (rotation_update_pause self) (rotation_clockwise self)
     (bulb_colors self) (bulb_rotation_colors self)
     (bulbs_ready self) (bulb_threads self).

Definition with_rotation_update_pause (self : t) (v : F64.float) : t :=
  mk (bulb_params self) (is_running self) (is_rotation_active self)
     (rotation_speed self) v (rotation_clockwise self)
     (bulb_colors self) (bulb_rotation_colors self)
     (bulbs_ready self) (bulb_threads self).

Definition with_rotation_clockwise (self : t) (v : bool) : t :=
  mk (bulb_params self) (is_running self) (is_rotation_active self)
     (rotation_speed self) (rotation_update_pause self) v
     (bulb_colors self) (bulb_rotation_colors self)
     (bulbs_ready self) (bulb_threads self).

Definition with_is_rotation_active (self : t) (v : bool) : t :=
  mk (bulb_params self) (is_running self) v
     (rotation_speed self) (rotation_update_pause self)
     (rotation_clockwise self) (bulb_colors self) (bulb_rotation_colors self)
     (bulbs_ready self) (bulb_threads self).

(** The loop of [rotate] over [self.bulb_params]. *)
Fixpoint rotate_collect (params : list param) : M t unit :=
  match params with
  | [] => mret tt
  | bulb :: rest =>
      bulbname ← lift (getitem bulb "name");
      color ← get_color bulbname;
      self ← get;
      put (with_bulb_rotation_colors self
             (bulb_rotation_colors self ++ [color]));;
      rotate_collect rest
  end.

(** [rotate] *)
Definition rotate (speed update_pause : num) (clockwise : bool) : M t unit :=
  self ← get;
  put (with_bulb_rotation_colors self []);;
  rotate_collect (bulb_params self);;
  speed ← lift (float_of_num speed);
  self ← get;
  put (with_rotation_speed self speed);;
  update_pause ← lift (float_of_num update_pause);
  self ← get;
  put (with_rotation_update_pause self update_pause);;
  self ← get;
  put (with_rotation_clockwise self clockwise);;
  self ← get;
  put (with_is_rotation_active self true).

(** [stop] *)
Definition stop (self : t) : t := with_is_rotation_active self false.

(** The local variables of [rotation_worker].  [cycle] starts as the
    integer [0], kept here as the float of the same value;
    [original_colors] is bound by the first active iteration, before
    anything reads it. *)
Record locals : Type := mk_locals {
  cycle : F64.float;
  original_colors : list (option Py.color)
}.

Definition locals_init : locals := mk_locals F64.zero [].

(** The [for i in range(len(self.bulb_params))] loop of [rotation_worker]. *)
Fixpoint rotation_pass (original_colors : list (option Py.color))
    (cycle_percent : F64.float) (indices : list Z) : M t unit :=
  match indices with
  | [] => mret tt
  | i :: rest =>
      self ← get;
      let n := Z.of_nat (length (bulb_params self)) in
      let next_idx :=
        if rotation_clockwise self then (i + 1) mod n else (i - 1) mod n in
      c1 ← lift (list_getitem original_colors i);
      c2 ← lift (list_getitem original_colors next_idx);
      new_color ← lift
        match c1, c2 with
        | Some c1, Some c2 => interpolate_color c1 c2 (NFloat cycle_percent)
        | _, _ => Raise TypeError
        end;
      bulb ← lift (list_getitem (bulb_params self) i);
      bulbname ← lift (getitem bulb "name");
      set_color bulbname new_color;;
      rotation_pass original_colors cycle_percent rest
  end.

(** The ring moved by one place when a pass ends. *)
Definition shift_ring (clockwise : bool) (ring : list (option Py.color))
    : outcome (list (option Py.color)) :=
  if clockwise then
    first_item ← list_getitem ring 0;
    Return (drop 1 ring ++ [first_item])
  else
    last_item ← list_getitem ring (-1);
    Return ([last_item] ++ take (length ring - 1) ring).

(** One iteration of the [while self.is_running] loop of [rotation_worker]
    (the sleep apart). *)
Definition rotation_worker_body (l : locals) : M t locals :=
  self ← get;
  if is_rotation_active self then
    let l :=
      if F64.eqb (cycle l) F64.zero
      then mk_locals (rotation_speed self) (bulb_rotation_colors self)
      else l in
    cycle_percent ← lift
      (F64.div (F64.sub (rotation_speed self) (cycle l))
               (rotation_speed self));
    let cycle := F64.sub (cycle l) F64.one in
    rotation_pass (original_colors l) cycle_percent
      (seqZ 0 (Z.of_nat (length (bulb_params self))));;
    (if F64.eqb cycle F64.zero then
       self ← get;
       ring ← lift (shift_ring (rotation_clockwise self)
                      (bulb_rotation_colors self));
       put (with_bulb_rotation_colors self ring)
     else mret tt);;
    mret (mk_locals cycle (original_colors l))
  else mret l.

(** The manager together with its rotation thread. *)
Record system : Type := mk_system {
  manager : t;
  rotation : locals
}.

Definition start (bulbs : list param) : system :=
  mk_system (init bulbs) locals_init.

(** A call of a manager method by some thread: the rotation thread's local
    variables are out of its reach. *)
Definition call {A} (method : M t A) (s : system) : system * outcome A :=
  let '(self, r) := method (manager s) in
  (mk_system self (rotation s), r).

(** The rotation thread runs one iteration of its loop; an exception ends
    the thread, its local variables staying as they were. *)
Definition tick (s : system) : system * outcome unit :=
  match rotation_worker_body (rotation s) (manager s) with
  | (self, Return l) => (mk_system self l, Return tt)
  | (self, Raise e) => (mk_system self (rotation s), Raise e)
  end.

(** A worker thread of the manager takes a step of its own. *)
Definition thread_step (step : SmartBulbThread.t -> SmartBulbThread.t)
    (i : nat) (self : t) : t :=
  with_bulb_threads self (alter step i (bulb_threads self)).

(** The manager's state as the constructor leaves it and every method keeps
    it: one cached colour and one thread per bulb, in the order of the
    bulbs, and every bulb has a name. *)
Definition wf (self : t) : Prop :=
  length (bulb_colors self) = length (bulb_params self) /\
  map SmartBulbThread.bulb_param (bulb_threads self) = bulb_params self /\
  Forall (fun b : param => is_Some (b !! "name")) (bulb_params self).

(** The cache entry of a name, read without refreshing it. *)
Definition cached_color (self : t) (name : string) : option Py.color :=
  match find_bulb_index self name with
  | Return i => if i <? 0 then None else bulb_colors self !! Z.to_nat i
  | Raise _ => None
  end.

(** Some managed bulb has exactly this name. *)
Definition managed (self : t) (name : string) : Prop :=
  Some name ∈ map (fun b : param => b !! "name") (bulb_params self).

#[global] Instance managed_dec self name : Decision (managed self name).
Proof. unfold managed. apply _. Defined.

#[global] Instance wf_dec self : Decision (wf self).
Proof. unfold wf. apply _. Defined.

Definition with_is_running (self : t) (v : bool) : t :=
  mk (bulb_params self) v (is_rotation_active self)
     (rotation_speed self) (rotation_update_pause self)
     (rotation_clockwise self) (bulb_colors self) (bulb_rotation_colors self)
     (bulbs_ready self) (bulb_threads self).

Definition with_bulbs_ready (self : t) (v : bool) : t :=
  mk (bulb_params self) (is_running self) (is_rotation_active self)
     (rotation_speed self) (rotation_update_pause self)
     (rotation_clockwise self) (bulb_colors self) (bulb_rotation_colors self)
     v (bulb_threads self).

(** [shutdown]: the flags it sets; the joins that follow return once every
    worker has left its loop. *)
Definition shutdown (self : t) : t :=
  with_bulb_threads (with_is_running self false)
    (map SmartBulbThread.shutdown (bulb_threads self)).

(** The loop of [get_colors] (and of [wait_ready]) over
    [self.bulb_threads]. *)
Fixpoint get_colors_from (threads : list SmartBulbThread.t) : M t unit :=
  match threads with
  | [] => mret tt
  | bulb_thread :: rest =>
      name ← lift (getitem (SmartBulbThread.bulb_param bulb_thread) "name");
      self ← get;
      i ← lift (find_bulb_index self name);
      colors ← lift (list_setitem (bulb_colors self) i
                       (SmartBulbThread.color bulb_thread));
      put (with_bulb_colors self colors);;
      get_colors_from rest
  end.

(** [get_colors] *)
Definition get_colors : M t unit :=
  self ← get;
  get_colors_from (bulb_threads self).

(** [wait_ready], from the point where its waits on the connection and
    status events have returned. *)
Definition wait_ready : M t unit :=
  self ← get;
  get_colors_from (bulb_threads self);;
  self ← get;
  put (with_bulbs_ready self true).

(** The loop of [get_colors_json_rgb] over [enumerate(self.bulb_colors)]. *)
Fixpoint colors_json_rgb_from (self : t) (i : Z) (colors : list Py.color)
    (compressed_data : list (string * Py.color))
    : outcome (list (string * Py.color)) :=
  match colors with
  | [] => Return compressed_data
  | color :: rest =>
      bulb ← list_getitem (bulb_params self) i;
      name ← getitem bulb "name";
      colors_json_rgb_from self (i + 1) rest
        (assoc_set compressed_data name color)
  end.

(** [get_colors_json_rgb] *)
Definition get_colors_json_rgb (self : t)
    : outcome (list (string * Py.color)) :=
  colors_json_rgb_from self 0 (bulb_colors self) [].

(** The rotation thread's loop test followed by one iteration: once
    [is_running] is false the loop is left. *)
Definition rotation_step (s : system) : system * outcome unit :=
  if is_running (manager s) then tick s else (s, Return tt).

End LightManager.

(** ** The outlet manager *)

(** [str.lower] on ASCII text. *)
Definition ascii_lower_char (c : ascii) : ascii :=
  if Hex.in_range "A" "Z" c then ascii_of_N (N_of_ascii c + 32) else c.

Fixpoint ascii_lower (s : string) : string :=
  match s with
  | EmptyString => EmptyString
  | String c s' => String (ascii_lower_char c) (ascii_lower s')
  end.

Module OutletManager.

Record t : Type := mk {
  outlet_param : list param;
  is_running : bool;
  outlet_threads : list OutletDeviceThread.t
}.

Definition with_outlet_threads (self : t) (v : list OutletDeviceThread.t)
    : t :=
  mk (outlet_param self) (is_running self) v.

(** [__init__] *)
Definition init (outlets : list param) : t :=
  mk outlets true (map OutletDeviceThread.init outlets).

Definition error_not_found (outlet_name : string) : dict :=
  [("result", VStr "error");
   ("reason", VStr "outlet name not found");
   ("name", VStr outlet_name)].

Definition success_state (state : bool) (outlet_name : string) : dict :=
  [("result", VStr "success");
   ("state", VBool state);
   ("name", VStr outlet_name)].

Section Methods.

(** [str.lower]: the methods only compare its results, so they are given
    for any such function. *)
Variable lower : string -> string.

(** [find_outlet_index]: the loop over [self.outlet_param]. *)
Fixpoint find_outlet_index_from (self : t) (rest : list param)
    (name : string) : outcome Z :=
  match rest with
  | [] => Return (-1)
  | outlet :: rest' =>
      n ← getitem outlet "name";
      if decide (lower n = lower name)
      then list_index outlet (outlet_param self)
      else find_outlet_index_from self rest' name
  end.

Definition find_outlet_index (self : t) (name : string) : outcome Z :=
  find_outlet_index_from self (outlet_param self) name.

(** The loop of [set_state] over [self.outlet_threads]. *)
Fixpoint change_first (threads : list OutletDeviceThread.t)
    (outlet_name : string) (state : bool)
    : outcome (option (list OutletDeviceThread.t)) :=
  match threads with
  | [] => Return None
  | outlet_thread :: rest =>
      n ← getitem (OutletDeviceThread.outlet_param outlet_thread) "name";
      if decide (lower n = lower outlet_name) then
        Return (Some (OutletDeviceThread.change_state outlet_thread state
                        :: rest))
      else
        r ← change_first rest outlet_name state;
        Return (option_map (cons outlet_thread) r)
  end.

(** [set_state]; the answer is a dict or [None]. *)
Definition set_state (outlet_name : string) (state : bool)
    : M t (option dict) :=
  self ← get;
  i ← lift (find_outlet_index self outlet_name);
  if i =? -1 then mret (Some (error_not_found outlet_name))
  else
    found ← lift (change_first (outlet_threads self) outlet_name state);
    match found with
    | Some threads =>
        put (with_outlet_threads self threads);;
        mret (Some (success_state state outlet_name))
    | None => mret None
    end.

(** The loop of [get_state] over [self.outlet_threads]. *)
Fixpoint first_thread (threads : list OutletDeviceThread.t)
    (outlet_name : string) : outcome (option OutletDeviceThread.t) :=
  match threads with
  | [] => Return None
  | outlet_thread :: rest =>
      n ← getitem (OutletDeviceThread.outlet_param outlet_thread) "name";
      if decide (lower n = lower outlet_name) then Return (Some outlet_thread)
      else first_thread rest outlet_name
  end.

(** [get_state]; the answer is a dict or [None]. *)
Definition get_state (outlet_name : string) : M t (option dict) :=
  self ← get;
  found ← lift (first_thread (outlet_threads self) outlet_name);
  match found with
  | Some outlet_thread =>
      i ← lift (find_outlet_index self outlet_name);
      if i =? -1 then mret (Some (error_not_found outlet_name))
      else mret (Some (success_state (OutletDeviceThread.state outlet_thread)
                         outlet_name))
  | None => mret None
  end.

(** Some managed outlet has this name, letter case apart. *)
Definition managed (self : t) (name : string) : Prop :=
  Some (lower name)
    ∈ map (fun b : param => option_map lower (b !! "name"))
          (outlet_param self).

#[global] Instance managed_dec self name : Decision (managed self name).
Proof. unfold managed. apply _. Defined.

End Methods.

(** One thread per outlet, in the order of the outlets, and every outlet
    has a name. *)
Definition wf (self : t) : Prop :=
  map OutletDeviceThread.outlet_param (outlet_threads self)
    = outlet_param self /\
  Forall (fun b : param => is_Some (b !! "name")) (outlet_param self).

#[global] Instance wf_dec self : Decision (wf self).
Proof. unfold wf. apply _. Defined.

(** [shutdown]: the flags it sets; the joins that follow return once every
    worker has left its loop. *)
Definition shutdown (self : t) : t :=
  mk (outlet_param self) false
     (map OutletDeviceThread.shutdown (outlet_threads self)).

End OutletManager.

(** * Vocabulary of the statements *)

(** A device parameter block with a name. *)
Definition has_name (b : param) : Prop := is_Some (b !! "name").

(** The parameter block of a device called [name], as the configuration
    gives it. *)
Definition device_named (name : string) : param :=
  {[ "name" := name; "id" := "bf0123456789abcdef"; "ip" := "192.168.0.10";
     "key" := "0123456789abcdef"; "version" := "3.3" ]}.

(** An outlet is registered under exactly this name. *)
Definition registered (om : OutletManager.t) (name : string) : Prop :=
  Some name
    ∈ map (fun b : param => b !! "name") (OutletManager.outlet_param om).

(** [s] occurs in some string of the answer. *)
Definition mentions (d : dict) (s : string) : bool :=
  existsb (fun kv : string * value =>
             match kv.2 with VStr v => contains v s | _ => false end) d.

(** The answer the design document asks for on an unknown name: returned,
    marked as an error, with the offending name and every valid name. *)
Definition names_the_valid_set (r : outcome (option dict)) (name : string)
    (valid : list string) : Prop :=
  exists d, r = Return (Some d) /\
    dict_get d "result" = Some (VStr "error") /\
    dict_get d "name" = Some (VStr name) /\
    forall n, n ∈ valid -> mentions d n = true.

(** A colour with every channel in 0..255. *)
Definition valid_rgb (c : Py.color) : Prop :=
  let '(r, g, b) := c in
  (0 <= r <= 255) /\ (0 <= g <= 255) /\ (0 <= b <= 255).

(** Each channel of [c] is within 1 of the same channel of [c']. *)
Definition within_tolerance (c c' : Py.color) : Prop :=
  let '(r, g, b) := c in
  let '(r', g', b') := c' in
  Z.abs (r - r') <= 1 /\ Z.abs (g - g') <= 1 /\ Z.abs (b - b') <= 1.

(** The interpolation at grade [t] returns a colour within the tolerance
    of [target]. *)
Definition lerp_reaches (c1 c2 : Py.color) (t : num) (target : Py.color)
    : Prop :=
  exists c, LightManager.interpolate_color c1 c2 t = Return c /\
            within_tolerance c target.

Definition newline : ascii := ascii_of_nat 10.

Definition is_hex (c : ascii) : bool :=
  Hex.in_range "0" "9" c || Hex.in_range "a" "f" c || Hex.in_range "A" "F" c.

Definition is_upper_hex (c : ascii) : bool :=
  Hex.in_range "0" "9" c || Hex.in_range "A" "F" c.

(** The format of the design document, [#[0-9A-Fa-f]{6}]: a ['#'] followed
    by exactly six hexadecimal digits. *)
Definition spec_hex_pattern (s : string) : bool :=
  match s with
  | String c digits =>
      Ascii.eqb c "#"
      && (String.length digits =? 6)%nat
      && forallb is_hex (String.list_ascii_of_string digits)
  | EmptyString => false
  end.

(** The text is ['#'] followed by upper-case hexadecimal digits only. *)
Definition upper_hex_text (s : string) : bool :=
  match s with
  | String "#" digits =>
      forallb is_upper_hex (String.list_ascii_of_string digits)
  | _ => false
  end.

(** The cache entry of [name] holds the colour of the worker of [name]. *)
Definition refreshed (self : LightManager.t) (name : string) : Prop :=
  exists th,
    LightManager.first_thread (LightManager.bulb_threads self) name
      = Return (Some th) /\
    LightManager.cached_color self name = Some (SmartBulbThread.color th).

(** The ring when it is a copy of the cache, bulb by bulb. *)
Definition snapshot (self : LightManager.t) : list (option Py.color) :=
  map (fun b : param => b !! "name" ≫= LightManager.cached_color self)
      (LightManager.bulb_params self).

Definition three : F64.float :=
  Eval cbv in binary_normalize F64.prec F64.emax 3 0 false.

(** Checks run over all 256 channel values. *)
Definition channels : list Z := seqZ 0 256.

Definition returns_Z (r : outcome Z) (z : Z) : bool :=
  match r with
  | Return v => v =? z
  | Raise _ => false
  end.

Definition channel_text_ok (z : Z) : bool :=
  match Hex.format_02X z with
  | String a (String b EmptyString) =>
      is_upper_hex a && is_upper_hex b
      && returns_Z (Hex.int16 (String a (String b EmptyString))) z
  | _ => false
  end.

Definition channel_lerp_ok (a b : Z) : bool :=
  returns_Z (LightManager.interpolate_channel a b (NFloat F64.zero)) a
  && returns_Z (LightManager.interpolate_channel a b (NFloat F64.one)) b.

(** What can happen to a worker: a request reaches it, it enters its
    wait, its wait returns, it is told to shut down. *)
Inductive worker_event (V : Type) : Type :=
| Request (v : V)
| EnterWait
| Wake
| Shutdown.
Arguments Request {V} v.
Arguments EnterWait {V}.
Arguments Wake {V}.
Arguments Shutdown {V}.

(** The values requested by a run of events, in order. *)
Fixpoint requested {V} (events : list (worker_event V)) : list V :=
  match events with
  | [] => []
  | Request v :: rest => v :: requested rest
  | _ :: rest => requested rest
  end.

Definition bulb_step (w : SmartBulbThread.t)
    (e : worker_event Py.color) : SmartBulbThread.t :=
  match e with
  | Request c => SmartBulbThread.change_color w c
  | EnterWait => SmartBulbThread.enter_wait w
  | Wake => SmartBulbThread.wake w
  | Shutdown => SmartBulbThread.shutdown w
  end.

Definition outlet_step (w : OutletDeviceThread.t)
    (e : worker_event bool) : OutletDeviceThread.t :=
  match e with
  | Request s => OutletDeviceThread.change_state w s
  | EnterWait => OutletDeviceThread.enter_wait w
  | Wake => OutletDeviceThread.wake w
  | Shutdown => OutletDeviceThread.shutdown w
  end.

(** A worker after a run of events. *)
Definition bulb_run (w : SmartBulbThread.t)
    (events : list (worker_event Py.color)) : SmartBulbThread.t :=
  foldl bulb_step w events.

Definition outlet_run (w : OutletDeviceThread.t)
    (events : list (worker_event bool)) : OutletDeviceThread.t :=
  foldl outlet_step w events.

(** The position of the first bulb (or outlet) with a given name. *)
Definition first_named (params : list param) (name : string) : option nat :=
  fst <$> list_find (fun b : param => b !! "name" = Some name) params.

(** The names of the devices, one per parameter block, in order. *)
Definition names (params : list param) : list (option string) :=
  map (fun b : param => b !! "name") params.

(** The invariant of a run that started with the device log [d0] and the
    worker not notified: the log has grown by a subsequence of the
    requests; while a notification is pending, the stored value is the
    last request and has not been sent yet. *)
Definition bulb_inv (d0 : list Py.color) (reqs : list Py.color)
    (w : SmartBulbThread.t) : Prop :=
  exists a, SmartBulbThread.device w = d0 ++ a /\
    match SmartBulbThread.waiting w with
    | Notified => exists r, reqs = r ++ [SmartBulbThread.color w] /\ sublist a r
    | _ => sublist a reqs
    end.

Definition outlet_inv (d0 : list bool) (reqs : list bool)
    (w : OutletDeviceThread.t) : Prop :=
  exists a, OutletDeviceThread.device w = d0 ++ a /\
    match OutletDeviceThread.waiting w with
    | Notified => exists r, reqs = r ++ [OutletDeviceThread.state w] /\ sublist a r
    | _ => sublist a reqs
    end.

(** A worker as a manager method may leave it: same bulb, same device log,
    same running flag; it may hold a new colour and a notification, but a
    worker outside its wait stays outside. *)
Definition only_requested (th th' : SmartBulbThread.t) : Prop :=
  SmartBulbThread.bulb_param th' = SmartBulbThread.bulb_param th /\
  SmartBulbThread.device th' = SmartBulbThread.device th /\
  SmartBulbThread.is_running th' = SmartBulbThread.is_running th /\
  SmartBulbThread.state th' = SmartBulbThread.state th /\
  (SmartBulbThread.waiting th = Busy -> SmartBulbThread.waiting th' = Busy).

(** A manager as one of its methods may leave it: the same bulbs, and no
    worker touched beyond a request. *)
Definition no_device_access (self self' : LightManager.t) : Prop :=
  LightManager.bulb_params self' = LightManager.bulb_params self /\
  LightManager.is_running self' = LightManager.is_running self /\
  Forall2 only_requested (LightManager.bulb_threads self)
    (LightManager.bulb_threads self').

(** What can happen to a bulb manager and its threads: calls of its
    methods by any thread, the rotation thread going once round its loop,
    and a worker entering or leaving its wait. *)
Inductive manager_event : Type :=
| CallSetColor (name : string) (c : Py.color)
| CallSetColorHex (name s : string)
| CallGetColor (name : string)
| CallGetColors
| CallRotate (speed update_pause : num) (clockwise : bool)
| CallStop
| RotationStep
| WorkerEnterWait (i : nat)
| WorkerWake (i : nat).

Definition is_worker_event (e : manager_event) : bool :=
  match e with
  | WorkerEnterWait _ | WorkerWake _ => true
  | _ => false
  end.

(** The system after an event.  A call that raises leaves the system as
    the exception found it. *)
Definition manager_step (s : LightManager.system) (e : manager_event)
    : LightManager.system :=
  match e with
  | CallSetColor name c => (LightManager.call (LightManager.set_color name c) s).1
  | CallSetColorHex name x =>
      (LightManager.call (LightManager.set_color_hex name x) s).1
  | CallGetColor name => (LightManager.call (LightManager.get_color name) s).1
  | CallGetColors => (LightManager.call LightManager.get_colors s).1
  | CallRotate speed update_pause clockwise =>
      (LightManager.call
         (LightManager.rotate speed update_pause clockwise) s).1
  | CallStop =>
      LightManager.mk_system (LightManager.stop (LightManager.manager s))
        (LightManager.rotation s)
  | RotationStep => (LightManager.rotation_step s).1
  | WorkerEnterWait i =>
      LightManager.mk_system
        (LightManager.thread_step SmartBulbThread.enter_wait i
           (LightManager.manager s))
        (LightManager.rotation s)
  | WorkerWake i =>
      LightManager.mk_system
        (LightManager.thread_step SmartBulbThread.wake i
           (LightManager.manager s))
        (LightManager.rotation s)
  end.

Definition manager_run (s : LightManager.system)
    (events : list manager_event) : LightManager.system :=
  foldl manager_step s events.

(** The device logs of all workers, in the order of the bulbs. *)
Definition devices (self : LightManager.t) : list (list Py.color) :=
  map SmartBulbThread.device (LightManager.bulb_threads self).

(** Every worker has left its loop: told to stop, and outside its wait. *)
Definition workers_left_loop (self : LightManager.t) : Prop :=
  Forall (fun th => SmartBulbThread.is_running th = false /\
                    SmartBulbThread.waiting th = Busy)
         (LightManager.bulb_threads self).

(** The hex text of a colour, channel by channel. *)
Definition hex_text (c : Py.color) : string :=
  let '(r, g, b) := c in
  "#" +:+ Hex.format_02X r +:+ Hex.format_02X g +:+ Hex.format_02X b.

(** [str.upper] on ASCII text. *)
Definition ascii_upper_char (c : ascii) : ascii :=
  if Hex.in_range "a" "z" c then ascii_of_N (N_of_ascii c - 32) else c.

Fixpoint ascii_upper (s : string) : string :=
  match s with
  | EmptyString => EmptyString
  | String c s' => String (ascii_upper_char c) (ascii_upper s')
  end.

Definition hex_chars : list ascii :=
  String.list_ascii_of_string "0123456789abcdefABCDEF".

(** Two hexadecimal digits read as a number in 0..255 that prints as the
    same two digits in upper case. *)
Definition hex_pair_ok (a b : ascii) : bool :=
  match Hex.int16 (String a (String b EmptyString)) with
  | Return z =>
      (0 <=? z) && (z <=? 255)
      && String.eqb (Hex.format_02X z)
           (String (ascii_upper_char a)
              (String (ascii_upper_char b) EmptyString))
  | Raise _ => false
  end.

(** What can happen to an outlet manager and its threads. *)
Inductive outlet_event : Type :=
| CallSetState (name : string) (state : bool)
| CallGetState (name : string)
| OutletEnterWait (i : nat)
| OutletWake (i : nat).

Definition outlet_thread_step
    (step : OutletDeviceThread.t -> OutletDeviceThread.t) (i : nat)
    (self : OutletManager.t) : OutletManager.t :=
  OutletManager.with_outlet_threads self
    (alter step i (OutletManager.outlet_threads self)).

Definition outlet_manager_step (lower : string -> string)
    (self : OutletManager.t) (e : outlet_event) : OutletManager.t :=
  match e with
  | CallSetState name state =>
      (OutletManager.set_state lower name state self).1
  | CallGetState name => (OutletManager.get_state lower name self).1
  | OutletEnterWait i => outlet_thread_step OutletDeviceThread.enter_wait i self
  | OutletWake i => outlet_thread_step OutletDeviceThread.wake i self
  end.

Definition outlet_manager_run (lower : string -> string)
    (self : OutletManager.t) (events : list outlet_event) : OutletManager.t :=
  foldl (outlet_manager_step lower) self events.

(** The device logs of all outlet workers. *)
Definition outlet_devices (self : OutletManager.t) : list (list bool) :=
  map OutletDeviceThread.device (OutletManager.outlet_threads self).

Definition outlets_left_loop (self : OutletManager.t) : Prop :=
  Forall (fun th => OutletDeviceThread.is_running th = false /\
                    OutletDeviceThread.waiting th = Busy)
         (OutletManager.outlet_threads self).




(** Runs the state-passing combinators of a method body. *)
Ltac run_m :=
  cbv [mbind M_bind mret M_ret get put lift]; cbn [fst snd].

(** * Properties *)

(** ** Looking devices up by name *)

Section BulbLookup.

Import LightManager.

Lemma list_index_elem `{EqDecision A} (x : A) (l : list A) :
  x ∈ l ->
  exists j : nat, list_index x l = Return (Z.of_nat j) /\ l !! j = Some x.
Proof.
  induction l as [|y l IH]; intros Hin.
  - inversion Hin.
  - simpl. destruct (decide (y = x)) as [->|Hne].
    + exists 0%nat. auto.
    + assert (Hin' : x ∈ l) by (inversion Hin; subst; congruence).
      destruct (IH Hin') as (j & -> & Hj). exists (S j). split; [|exact Hj].
      simpl. f_equal. lia.
Qed.

Lemma find_from_unmanaged (self : t) (rest : list param) (name : string) :
  Forall has_name rest ->
  Some name ∉ map (fun b : param => b !! "name") rest ->
  find_bulb_index_from self rest name = Return (-1).
Proof.
  induction 1 as [|b rest [n Hn] _ IH]; simpl; intros Hnot; [reflexivity|].
  unfold getitem. rewrite Hn. simpl.
  rewrite Hn in Hnot.
  destruct (decide (n = name)) as [->|Hne].
  - exfalso. apply Hnot. left.
  - apply IH. intros Hin. apply Hnot. right. exact Hin.
Qed.

Lemma find_from_managed (self : t) (rest : list param) (name : string) :
  Forall has_name rest ->
  rest ⊆ bulb_params self ->
  Some name ∈ map (fun b : param => b !! "name") rest ->
  exists (j : nat) (b : param),
    find_bulb_index_from self rest name = Return (Z.of_nat j) /\
    bulb_params self !! j = Some b /\ b !! "name" = Some name.
Proof.
  induction 1 as [|b rest [n Hn] _ IH]; simpl; intros Hsub Hin.
  - inversion Hin.
  - unfold getitem. rewrite Hn. simpl.
    destruct (decide (n = name)) as [->|Hne].
    + destruct (list_index_elem b (bulb_params self)) as (j & Hj & Hb).
      { apply Hsub. left. }
      exists j, b. auto.
    + apply IH.
      * intros x Hx. apply Hsub. right. exact Hx.
      * rewrite Hn in Hin. inversion Hin; subst; [congruence | assumption].
Qed.

End BulbLookup.

Section BulbMethods.
Import LightManager.

Lemma list_setitem_in_range {A} (l : list A) (i : nat) (x : A) :
  (i < length l)%nat -> list_setitem l (Z.of_nat i) x = Return (<[i := x]> l).
Proof.
  intros Hi. unfold list_setitem. cbv zeta.
  replace (0 <=? Z.of_nat i) with true by (symmetry; apply Z.leb_le; lia).
  replace (Z.of_nat i <? Z.of_nat (length l)) with true
    by (symmetry; apply Z.ltb_lt; lia).
  simpl. by rewrite Nat2Z.id.
Qed.

Lemma list_getitem_in_range {A} (l : list A) (i : nat) (x : A) :
  l !! i = Some x -> list_getitem l (Z.of_nat i) = Return x.
Proof.
  intros Hi. unfold list_getitem.
  assert (E : (Z.of_nat i <? 0) = false) by (apply Z.ltb_ge; lia).
  cbv zeta. rewrite E. cbv iota. rewrite E, Nat2Z.id, Hi. reflexivity.
Qed.

Lemma change_first_unmanaged threads name c :
  Forall has_name (map SmartBulbThread.bulb_param threads) ->
  Some name ∉ map (fun b : param => b !! "name")
                  (map SmartBulbThread.bulb_param threads) ->
  change_first threads name c = Return None.
Proof.
  induction threads as [|th threads IH]; simpl; intros Hall Hnot;
    [reflexivity|].
  apply Forall_cons in Hall as [[n Hn] Hall].
  unfold getitem. rewrite Hn. simpl. rewrite Hn in Hnot.
  destruct (decide (n = name)) as [->|Hne].
  - exfalso. apply Hnot. left.
  - rewrite IH; [reflexivity | assumption |].
    intros Hin. apply Hnot. right. exact Hin.
Qed.

Lemma change_first_managed threads name c :
  Forall has_name (map SmartBulbThread.bulb_param threads) ->
  Some name ∈ map (fun b : param => b !! "name")
                  (map SmartBulbThread.bulb_param threads) ->
  exists threads',
    change_first threads name c = Return (Some threads') /\
    map SmartBulbThread.bulb_param threads'
      = map SmartBulbThread.bulb_param threads /\
    map SmartBulbThread.device threads'
      = map SmartBulbThread.device threads /\
    exists th, first_thread threads' name = Return (Some th) /\
               SmartBulbThread.color th = c.
Proof.
  induction threads as [|th threads IH]; simpl; intros Hall Hin.
  - inversion Hin.
  - apply Forall_cons in Hall as [[n Hn] Hall].
    unfold getitem. rewrite Hn. simpl. rewrite Hn in Hin.
    destruct (decide (n = name)) as [->|Hne].
    + eexists. split; [reflexivity|]. simpl. repeat split.
      unfold getitem. rewrite Hn. simpl. rewrite decide_True by done.
      eexists; split; reflexivity.
    + destruct IH as (threads' & -> & Hp & Hd & th' & Hf & Hc);
        [assumption | inversion Hin; subst; [congruence | assumption] |].
      simpl. eexists. split; [reflexivity|]. simpl.
      rewrite Hp, Hd. repeat split.
      unfold getitem. rewrite Hn. simpl. rewrite decide_False by done.
      eauto.
Qed.

Lemma find_bulb_index_managed (self : t) (name : string) :
  wf self -> managed self name ->
  exists (i : nat) (b : param),
    find_bulb_index self name = Return (Z.of_nat i) /\
    bulb_params self !! i = Some b /\ b !! "name" = Some name /\
    (i < length (bulb_colors self))%nat.
Proof.
  intros (Hlen & _ & Hnames) Hm.
  destruct (find_from_managed self (bulb_params self) name)
    as (j & b & Hj & Hb & Hn); [assumption | done | assumption |].
  exists j, b. repeat split; try assumption.
  rewrite Hlen. eapply lookup_lt_Some. exact Hb.
Qed.

Lemma find_bulb_index_unmanaged (self : t) (name : string) :
  wf self -> ~ managed self name -> find_bulb_index self name = Return (-1).
Proof.
  intros (_ & _ & Hnames) Hm. by apply find_from_unmanaged.
Qed.

Lemma set_color_managed (self : t) (name : string) (c : Py.color) :
  wf self -> managed self name ->
  exists (i : nat) threads',
    find_bulb_index self name = Return (Z.of_nat i) /\
    (i < length (bulb_colors self))%nat /\
    set_color name c self
      = (with_bulb_threads
           (with_bulb_colors self (<[i := c]> (bulb_colors self))) threads',
         Return (Some (success_color c name))) /\
    map SmartBulbThread.bulb_param threads' = bulb_params self /\
    map SmartBulbThread.device threads'
      = map SmartBulbThread.device (bulb_threads self) /\
    exists th, first_thread threads' name = Return (Some th) /\
               SmartBulbThread.color th = c.
Proof.
  intros Hwf Hm.
  destruct (find_bulb_index_managed self name Hwf Hm)
    as (i & b & Hi & Hb & Hn & Hlt).
  destruct Hwf as (Hlen & Hthreads & Hnames).
  destruct (change_first_managed (bulb_threads self) name c)
    as (threads' & Hch & Hp & Hd & Hth).
  { by rewrite Hthreads. }
  { by rewrite Hthreads. }
  exists i, threads'. repeat split; try assumption; [|congruence].
  unfold set_color. run_m. rewrite Hi.
  replace (Z.of_nat i =? -1) with false by (symmetry; apply Z.eqb_neq; lia).
  rewrite (list_setitem_in_range _ _ _ Hlt). simpl. rewrite Hch. reflexivity.
Qed.

End BulbMethods.

(** ** Coalescing of change requests *)

Section Coalescing.

Import SmartBulbThread.

Lemma bulb_requests_overwrite (w : SmartBulbThread.t) (v1 v2 : Py.color) :
  color (change_color (change_color w v1) v2) = v2.
Proof. reflexivity. Qed.

Lemma bulb_wake_after_requests (w : SmartBulbThread.t) (v1 v2 : Py.color) :
  waiting w <> Busy ->
  device (wake (change_color (change_color w v1) v2)) = device w ++ [v2].
Proof. destruct w as [p c s r [] d]; simpl; intros H; congruence. Qed.

Lemma bulb_wake_applies_at_most_last (w : SmartBulbThread.t)
    (v1 v2 : Py.color) :
  let w' := wake (change_color (change_color w v1) v2) in
  device w' = device w \/ device w' = device w ++ [v2].
Proof. destruct w as [p c s r [] d]; simpl; auto. Qed.

End Coalescing.

Section CoalescingOutlet.

Import OutletDeviceThread.

Lemma outlet_requests_overwrite (w : OutletDeviceThread.t) (v1 v2 : bool) :
  state (change_state (change_state w v1) v2) = v2.
Proof. reflexivity. Qed.

Lemma outlet_wake_after_requests (w : OutletDeviceThread.t) (v1 v2 : bool) :
  waiting w <> Busy ->
  device (wake (change_state (change_state w v1) v2)) = device w ++ [v2].
Proof.
  destruct w as [p s r [] d], v2; simpl; intros H; congruence.
Qed.

Lemma outlet_wake_applies_at_most_last (w : OutletDeviceThread.t)
    (v1 v2 : bool) :
  let w' := wake (change_state (change_state w v1) v2) in
  device w' = device w \/ device w' = device w ++ [v2].
Proof. destruct w as [p s r [] d], v2; simpl; auto. Qed.

End CoalescingOutlet.

(** C1. Two requests [v1] then [v2] reach a worker that is blocked in its
    wait, before it resumes: the slot ([color], resp. [state]) holds [v2];
    when the worker resumes it sends exactly one value to the driver, [v2],
    which is therefore the last applied value, and [v1] (when different) is
    not.  This holds for the bulb worker and for the outlet worker. *)
Theorem C1_last_request_wins
    (b : SmartBulbThread.t) (c1 c2 : Py.color)
    (o : OutletDeviceThread.t) (s1 s2 : bool) :
  SmartBulbThread.waiting b <> Busy ->
  OutletDeviceThread.waiting o <> Busy ->
  let b2 := SmartBulbThread.change_color
              (SmartBulbThread.change_color b c1) c2 in
  let o2 := OutletDeviceThread.change_state
              (OutletDeviceThread.change_state o s1) s2 in
  (SmartBulbThread.color b2 = c2 /\
   SmartBulbThread.device (SmartBulbThread.wake b2)
     = SmartBulbThread.device b ++ [c2] /\
   SmartBulbThread.last_applied (SmartBulbThread.wake b2) = Some c2 /\
   (c1 <> c2 ->
    SmartBulbThread.last_applied (SmartBulbThread.wake b2) <> Some c1)) /\
  (OutletDeviceThread.state o2 = s2 /\
   OutletDeviceThread.device (OutletDeviceThread.wake o2)
     = OutletDeviceThread.device o ++ [s2] /\
   OutletDeviceThread.last_applied (OutletDeviceThread.wake o2) = Some s2 /\
   (s1 <> s2 ->
    OutletDeviceThread.last_applied (OutletDeviceThread.wake o2) <> Some s1)).
Proof.
  intros Hb Ho b2 o2.
  pose proof (bulb_wake_after_requests b c1 c2 Hb) as Db.
  pose proof (outlet_wake_after_requests o s1 s2 Ho) as Do.
  fold b2 in Db. fold o2 in Do.
  unfold SmartBulbThread.last_applied, OutletDeviceThread.last_applied.
  rewrite Db, Do, !last_snoc.
  repeat split; try reflexivity; congruence.
Qed.

Lemma C1_last_request_wins_witness :
  let b := SmartBulbThread.enter_wait (SmartBulbThread.init ∅) in
  let o := OutletDeviceThread.enter_wait (OutletDeviceThread.init ∅) in
  SmartBulbThread.last_applied
    (SmartBulbThread.wake
       (SmartBulbThread.change_color
          (SmartBulbThread.change_color b (255, 0, 0)) (0, 0, 255)))
    = Some (0, 0, 255) /\
  OutletDeviceThread.last_applied
    (OutletDeviceThread.wake
       (OutletDeviceThread.change_state
          (OutletDeviceThread.change_state o true) false))
    = Some false.
Proof.
  intros b o.
  assert (Hb : SmartBulbThread.waiting b <> Busy) by (simpl; discriminate).
  assert (Ho : OutletDeviceThread.waiting o <> Busy) by (simpl; discriminate).
  destruct (C1_last_request_wins b (255, 0, 0) (0, 0, 255) o true false Hb Ho)
    as [(_ & _ & Lb & _) (_ & _ & Lo & _)].
  split; [exact Lb | exact Lo].
Defined.

Section BulbReads.
Import LightManager.

Lemma find_bulb_index_from_params (a b : t) (rest : list param)
    (name : string) :
  bulb_params a = bulb_params b ->
  find_bulb_index_from a rest name = find_bulb_index_from b rest name.
Proof.
  intros E. induction rest as [|x rest IH]; simpl; [reflexivity|].
  destruct (getitem x "name") as [n|]; simpl; [|reflexivity].
  destruct (decide (n = name)); [by rewrite E | exact IH].
Qed.

Lemma find_bulb_index_params (a b : t) (name : string) :
  bulb_params a = bulb_params b ->
  find_bulb_index a name = find_bulb_index b name.
Proof.
  intros E. unfold find_bulb_index. rewrite E.
  by apply find_bulb_index_from_params.
Qed.

Lemma first_thread_unmanaged threads name :
  Forall has_name (map SmartBulbThread.bulb_param threads) ->
  Some name ∉ map (fun b : param => b !! "name")
                  (map SmartBulbThread.bulb_param threads) ->
  first_thread threads name = Return None.
Proof.
  induction threads as [|th threads IH]; simpl; intros Hall Hnot;
    [reflexivity|].
  apply Forall_cons in Hall as [[n Hn] Hall].
  unfold getitem. rewrite Hn. simpl. rewrite Hn in Hnot.
  destruct (decide (n = name)) as [->|Hne].
  - exfalso. apply Hnot. left.
  - apply IH; [assumption|]. intros Hin. apply Hnot. right. exact Hin.
Qed.

Lemma first_thread_managed threads name :
  Forall has_name (map SmartBulbThread.bulb_param threads) ->
  Some name ∈ map (fun b : param => b !! "name")
                  (map SmartBulbThread.bulb_param threads) ->
  exists th, first_thread threads name = Return (Some th) /\ th ∈ threads.
Proof.
  induction threads as [|th threads IH]; simpl; intros Hall Hin.
  - inversion Hin.
  - apply Forall_cons in Hall as [[n Hn] Hall].
    unfold getitem. rewrite Hn. simpl. rewrite Hn in Hin.
    destruct (decide (n = name)) as [->|Hne].
    + exists th. split; [reflexivity | left].
    + destruct IH as (th' & -> & Hth');
        [assumption | inversion Hin; subst; [congruence | assumption] |].
      exists th'. split; [reflexivity | by right].
Qed.

Lemma get_color_unmanaged (self : t) (name : string) :
  wf self -> ~ managed self name ->
  get_color name self = (self, Return None).
Proof.
  intros (_ & Hthreads & Hnames) Hm. unfold get_color. run_m.
  rewrite first_thread_unmanaged; [reflexivity | |]; by rewrite Hthreads.
Qed.

Lemma get_color_managed (self : t) (name : string) :
  wf self -> managed self name ->
  exists (i : nat) th,
    find_bulb_index self name = Return (Z.of_nat i) /\
    (i < length (bulb_colors self))%nat /\
    first_thread (bulb_threads self) name = Return (Some th) /\
    get_color name self
      = (with_bulb_colors self
           (<[i := SmartBulbThread.color th]> (bulb_colors self)),
         Return (Some (SmartBulbThread.color th))).
Proof.
  intros Hwf Hm.
  destruct (find_bulb_index_managed self name Hwf Hm)
    as (i & b & Hi & Hb & Hn & Hlt).
  destruct Hwf as (Hlen & Hthreads & Hnames).
  destruct (first_thread_managed (bulb_threads self) name)
    as (th & Hth & _); [by rewrite Hthreads | by rewrite Hthreads |].
  exists i, th. repeat split; try assumption.
  unfold get_color. run_m. rewrite Hth, Hi.
  rewrite (list_setitem_in_range _ _ _ Hlt).
  rewrite (list_getitem_in_range _ i (SmartBulbThread.color th))
    by (by apply list_lookup_insert_eq).
  reflexivity.
Qed.

Lemma wf_init (bulbs : list param) :
  Forall has_name bulbs -> wf (init bulbs).
Proof.
  intros H. unfold wf, init; simpl. repeat split; [| |exact H].
  - by rewrite length_map.
  - rewrite map_map. simpl. apply map_id.
Qed.

Lemma wf_set_color (self : t) (name : string) (c : Py.color) :
  wf self -> wf (set_color name c self).1.
Proof.
  intros Hwf. destruct (decide (managed self name)) as [Hm|Hm].
  - destruct (set_color_managed self name c Hwf Hm)
      as (i & threads' & _ & _ & -> & Hp & _).
    destruct Hwf as (Hlen & Hthreads & Hnames).
    unfold wf; simpl. rewrite length_insert. auto.
  - unfold set_color. run_m.
    rewrite (find_bulb_index_unmanaged self name Hwf Hm). simpl.
    by destruct (names_of "Name" (bulb_params self)).
Qed.

Lemma wf_get_color (self : t) (name : string) :
  wf self -> wf (get_color name self).1.
Proof.
  intros Hwf. destruct (decide (managed self name)) as [Hm|Hm].
  - destruct (get_color_managed self name Hwf Hm) as (i & th & _ & _ & _ & ->).
    destruct Hwf as (Hlen & Hthreads & Hnames).
    unfold wf; simpl. rewrite length_insert. auto.
  - by rewrite get_color_unmanaged.
Qed.

Lemma wf_thread_step step (i : nat) (self : t) :
  (forall th, SmartBulbThread.bulb_param (step th)
              = SmartBulbThread.bulb_param th) ->
  wf self -> wf (thread_step step i self).
Proof.
  intros Hstep (Hlen & Hthreads & Hnames). unfold wf, thread_step; simpl.
  repeat split; try assumption.
  rewrite <- Hthreads. apply list_eq. intros k.
  rewrite !list_lookup_fmap.
  destruct (decide (i = k)) as [->|Hne].
  - rewrite list_lookup_alter_eq. destruct (bulb_threads self !! k); simpl;
      [by rewrite Hstep | reflexivity].
  - by rewrite list_lookup_alter_ne.
Qed.

End BulbReads.


Section OutletLookup.
Import OutletManager.
Variable lower : string -> string.

Lemma find_outlet_from_unmanaged (self : t) (rest : list param)
    (name : string) :
  Forall has_name rest ->
  Some (lower name)
    ∉ map (fun b : param => option_map lower (b !! "name")) rest ->
  find_outlet_index_from lower self rest name = Return (-1).
Proof.
  induction 1 as [|b rest [n Hn] _ IH]; simpl; intros Hnot; [reflexivity|].
  unfold getitem. rewrite Hn. simpl. rewrite Hn in Hnot. simpl in Hnot.
  destruct (decide (lower n = lower name)) as [E|Hne].
  - exfalso. apply Hnot. rewrite E. left.
  - apply IH. intros Hin. apply Hnot. right. exact Hin.
Qed.

Lemma find_outlet_from_managed (self : t) (rest : list param)
    (name : string) :
  Forall has_name rest ->
  rest ⊆ outlet_param self ->
  Some (lower name)
    ∈ map (fun b : param => option_map lower (b !! "name")) rest ->
  exists j : nat,
    find_outlet_index_from lower self rest name = Return (Z.of_nat j).
Proof.
  induction 1 as [|b rest [n Hn] _ IH]; simpl; intros Hsub Hin.
  - inversion Hin.
  - unfold getitem. rewrite Hn. simpl.
    destruct (decide (lower n = lower name)) as [E|Hne].
    + destruct (list_index_elem b (outlet_param self)) as (j & Hj & _).
      { apply Hsub. left. }
      exists j. exact Hj.
    + apply IH.
      * intros x Hx. apply Hsub. right. exact Hx.
      * rewrite Hn in Hin. simpl in Hin.
        inversion Hin; subst; [congruence | assumption].
Qed.

Lemma outlet_change_first_unmanaged threads name st :
  Forall has_name (map OutletDeviceThread.outlet_param threads) ->
  Some (lower name)
    ∉ map (fun b : param => option_map lower (b !! "name"))
        (map OutletDeviceThread.outlet_param threads) ->
  change_first lower threads name st = Return None.
Proof.
  induction threads as [|th threads IH]; simpl; intros Hall Hnot;
    [reflexivity|].
  apply Forall_cons in Hall as [[n Hn] Hall].
  unfold getitem. rewrite Hn. simpl. rewrite Hn in Hnot. simpl in Hnot.
  destruct (decide (lower n = lower name)) as [E|Hne].
  - exfalso. apply Hnot. rewrite E. left.
  - rewrite IH; [reflexivity | assumption |].
    intros Hin. apply Hnot. right. exact Hin.
Qed.

Lemma outlet_change_first_managed threads name st :
  Forall has_name (map OutletDeviceThread.outlet_param threads) ->
  Some (lower name)
    ∈ map (fun b : param => option_map lower (b !! "name"))
        (map OutletDeviceThread.outlet_param threads) ->
  exists threads',
    change_first lower threads name st = Return (Some threads') /\
    map OutletDeviceThread.outlet_param threads'
      = map OutletDeviceThread.outlet_param threads /\
    map OutletDeviceThread.device threads'
      = map OutletDeviceThread.device threads.
Proof.
  induction threads as [|th threads IH]; simpl; intros Hall Hin.
  - inversion Hin.
  - apply Forall_cons in Hall as [[n Hn] Hall].
    unfold getitem. rewrite Hn. simpl. rewrite Hn in Hin. simpl in Hin.
    destruct (decide (lower n = lower name)) as [E|Hne].
    + eexists. split; [reflexivity|]. simpl. auto.
    + destruct IH as (threads' & -> & Hp & Hd);
        [assumption | inversion Hin; subst; [congruence | assumption] |].
      simpl. eexists. split; [reflexivity|]. simpl. by rewrite Hp, Hd.
Qed.

Lemma outlet_first_thread_unmanaged threads name :
  Forall has_name (map OutletDeviceThread.outlet_param threads) ->
  Some (lower name)
    ∉ map (fun b : param => option_map lower (b !! "name"))
        (map OutletDeviceThread.outlet_param threads) ->
  first_thread lower threads name = Return None.
Proof.
  induction threads as [|th threads IH]; simpl; intros Hall Hnot;
    [reflexivity|].
  apply Forall_cons in Hall as [[n Hn] Hall].
  unfold getitem. rewrite Hn. simpl. rewrite Hn in Hnot. simpl in Hnot.
  destruct (decide (lower n = lower name)) as [E|Hne].
  - exfalso. apply Hnot. rewrite E. left.
  - apply IH; [assumption|]. intros Hin. apply Hnot. right. exact Hin.
Qed.

Lemma outlet_first_thread_managed threads name :
  Forall has_name (map OutletDeviceThread.outlet_param threads) ->
  Some (lower name)
    ∈ map (fun b : param => option_map lower (b !! "name"))
        (map OutletDeviceThread.outlet_param threads) ->
  exists th, first_thread lower threads name = Return (Some th).
Proof.
  induction threads as [|th threads IH]; simpl; intros Hall Hin.
  - inversion Hin.
  - apply Forall_cons in Hall as [[n Hn] Hall].
    unfold getitem. rewrite Hn. simpl. rewrite Hn in Hin. simpl in Hin.
    destruct (decide (lower n = lower name)) as [E|Hne].
    + by exists th.
    + apply IH; [assumption|].
      inversion Hin; subst; [congruence | assumption].
Qed.

Lemma set_state_unmanaged (self : t) (name : string) (st : bool) :
  wf self -> ~ managed lower self name ->
  set_state lower name st self = (self, Return (Some (error_not_found name))).
Proof.
  intros (_ & Hnames) Hm. unfold set_state. run_m.
  unfold find_outlet_index.
  by rewrite find_outlet_from_unmanaged.
Qed.

Lemma set_state_managed (self : t) (name : string) (st : bool) :
  wf self -> managed lower self name ->
  exists threads',
    set_state lower name st self
      = (with_outlet_threads self threads',
         Return (Some (success_state st name))) /\
    map OutletDeviceThread.outlet_param threads' = outlet_param self /\
    map OutletDeviceThread.device threads'
      = map OutletDeviceThread.device (outlet_threads self).
Proof.
  intros (Hthreads & Hnames) Hm.
  destruct (find_outlet_from_managed self (outlet_param self) name)
    as (j & Hj); [assumption | done | assumption |].
  destruct (outlet_change_first_managed (outlet_threads self) name st)
    as (threads' & Hch & Hp & Hd);
    [by rewrite Hthreads | by rewrite Hthreads |].
  exists threads'. repeat split; [| congruence | assumption].
  unfold set_state. run_m. unfold find_outlet_index. rewrite Hj.
  replace (Z.of_nat j =? -1) with false by (symmetry; apply Z.eqb_neq; lia).
  rewrite Hch. reflexivity.
Qed.

Lemma get_state_unmanaged (self : t) (name : string) :
  wf self -> ~ managed lower self name ->
  get_state lower name self = (self, Return None).
Proof.
  intros (Hthreads & Hnames) Hm. unfold get_state. run_m.
  rewrite outlet_first_thread_unmanaged; [reflexivity | |];
    by rewrite Hthreads.
Qed.

Lemma get_state_managed (self : t) (name : string) :
  wf self -> managed lower self name ->
  exists th,
    first_thread lower (outlet_threads self) name = Return (Some th) /\
    get_state lower name self
      = (self,
         Return (Some (success_state (OutletDeviceThread.state th) name))).
Proof.
  intros (Hthreads & Hnames) Hm.
  destruct (find_outlet_from_managed self (outlet_param self) name)
    as (j & Hj); [assumption | done | assumption |].
  destruct (outlet_first_thread_managed (outlet_threads self) name)
    as (th & Hth); [by rewrite Hthreads | by rewrite Hthreads |].
  exists th. split; [assumption|].
  unfold get_state. run_m. rewrite Hth. unfold find_outlet_index. rewrite Hj.
  replace (Z.of_nat j =? -1) with false by (symmetry; apply Z.eqb_neq; lia).
  reflexivity.
Qed.

Lemma outlet_wf_init (outlets : list param) :
  Forall has_name outlets -> wf (init outlets).
Proof.
  intros H. unfold wf, init; simpl. split; [|exact H].
  rewrite map_map. simpl. apply map_id.
Qed.

End OutletLookup.


(** ** Unknown names

    C2 as the design document states it fails: with one outlet "TV", asking
    for "lamp" gives the error answer, and "TV" occurs nowhere in it. *)
Lemma C2_counterexample :
  let om := OutletManager.init [device_named "TV"] in
  OutletManager.wf om /\
  ~ OutletManager.managed ascii_lower om "lamp" /\
  ~ names_the_valid_set
      (OutletManager.set_state ascii_lower "lamp" true om).2 "lamp" ["TV"].
Proof.
  split; [|split].
  - compute_done.
  - compute_done.
  - intros (d & Hd & _ & _ & Hall).
    vm_compute in Hd. injection Hd as <-.
    specialize (Hall "TV" ltac:(left)). vm_compute in Hall. discriminate.
Qed.

(** The bulb manager builds the list of names from the key ["Name"], which
    the parameter blocks (keyed by ["name"]) do not have: on an unknown name
    the call ends in [KeyError] instead of the error answer. *)
Example set_color_unknown_name_raises :
  let m := LightManager.init [device_named "A"; device_named "B"] in
  LightManager.wf m /\ ~ LightManager.managed m "C" /\
  LightManager.set_color "C" (1, 2, 3) m = (m, Raise (KeyError "Name")).
Proof.
  split; [|split]; [compute_done | compute_done |].
  vm_compute. reflexivity.
Qed.

(** C2 (amended). For a name that matches no managed outlet (letter case
    apart), [OutletManager.set_state] returns, without raising, the error
    answer with the reason "outlet name not found" and the offending name,
    and changes nothing; the valid names are not listed.  For a name that
    matches no managed bulb, [LightManager.set_color] changes nothing (no
    cache update, no request to a worker), and an answer it returns is an
    error answer carrying the offending name. *)
Theorem C2_unknown_name_amended (lower : string -> string)
    (om : OutletManager.t) (oname : string) (st : bool)
    (m : LightManager.t) (bname : string) (c : Py.color) :
  OutletManager.wf om -> ~ OutletManager.managed lower om oname ->
  LightManager.wf m -> ~ LightManager.managed m bname ->
  OutletManager.set_state lower oname st om
    = (om, Return (Some (OutletManager.error_not_found oname))) /\
  (LightManager.set_color bname c m).1 = m /\
  match (LightManager.set_color bname c m).2 with
  | Return d =>
      exists names, d = Some (LightManager.error_unknown_bulb names bname)
  | Raise _ => True
  end.
Proof.
  intros Hom Ho Hm Hb. split; [by apply set_state_unmanaged|].
  unfold LightManager.set_color. run_m.
  rewrite (find_bulb_index_unmanaged m bname Hm Hb). simpl.
  destruct (LightManager.names_of "Name" (LightManager.bulb_params m));
    simpl; eauto.
Qed.

Lemma C2_unknown_name_amended_witness :
  let om := OutletManager.init [device_named "TV"] in
  OutletManager.set_state ascii_lower "lamp" true om
    = (om, Return (Some (OutletManager.error_not_found "lamp"))) /\
  (LightManager.set_color "B" (1, 2, 3) (LightManager.init [device_named "A"])).1
    = LightManager.init [device_named "A"].
Proof.
  intros om.
  assert (H1 : OutletManager.wf om) by compute_done.
  assert (H2 : ~ OutletManager.managed ascii_lower om "lamp") by compute_done.
  assert (H3 : LightManager.wf (LightManager.init [device_named "A"])) by compute_done.
  assert (H4 : ~ LightManager.managed (LightManager.init [device_named "A"]) "B")
    by compute_done.
  destruct (C2_unknown_name_amended ascii_lower om "lamp" true
              (LightManager.init [device_named "A"]) "B" (1, 2, 3) H1 H2 H3 H4)
    as (A & B & _).
  split; [exact A | exact B].
Defined.

(** ** Setting a colour

    C4. For a name of a managed bulb, [set_color name rgb] returns the
    success answer echoing [rgb] and [name]; when it returns, the cached
    colour of [name] is [rgb] and the worker holds [rgb] as its pending
    colour, while no worker has sent anything to its device yet. *)
Theorem C4_set_color_updates_cache (self : LightManager.t) (name : string)
    (rgb : Py.color) :
  LightManager.wf self -> LightManager.managed self name ->
  exists self',
    LightManager.set_color name rgb self
      = (self', Return (Some (LightManager.success_color rgb name))) /\
    LightManager.cached_color self' name = Some rgb /\
    map SmartBulbThread.device (LightManager.bulb_threads self')
      = map SmartBulbThread.device (LightManager.bulb_threads self) /\
    (exists th,
       LightManager.first_thread (LightManager.bulb_threads self') name
         = Return (Some th) /\ SmartBulbThread.color th = rgb) /\
    LightManager.wf self'.
Proof.
  intros Hwf Hm.
  destruct (set_color_managed self name rgb Hwf Hm)
    as (i & threads' & Hi & Hlt & Hset & Hp & Hd & Hth).
  eexists. split; [exact Hset|]. split; [|split; [|split]].
  - unfold LightManager.cached_color.
    rewrite (find_bulb_index_params _ self) by reflexivity.
    rewrite Hi. replace (Z.of_nat i <? 0) with false
      by (symmetry; apply Z.ltb_ge; lia).
    rewrite Nat2Z.id. simpl. by apply list_lookup_insert_eq.
  - exact Hd.
  - exact Hth.
  - pose proof (wf_set_color self name rgb Hwf) as W.
    by rewrite Hset in W.
Qed.

Lemma C4_set_color_updates_cache_witness :
  let m := LightManager.init [device_named "A"; device_named "B"] in
  exists m',
    LightManager.set_color "B" (10, 20, 30) m
      = (m', Return (Some (LightManager.success_color (10, 20, 30) "B"))) /\
    LightManager.cached_color m' "B" = Some (10, 20, 30).
Proof.
  intros m.
  assert (H1 : LightManager.wf m) by compute_done.
  assert (H2 : LightManager.managed m "B") by compute_done.
  destruct (C4_set_color_updates_cache m "B" (10, 20, 30) H1 H2)
    as (m' & A & B & _).
  exists m'. split; [exact A | exact B].
Defined.


Lemma find_bulb_index_cases (self : LightManager.t) (name : string) :
  LightManager.wf self ->
  LightManager.find_bulb_index self name = Return (-1) \/
  exists (j : nat) (b : param),
    LightManager.find_bulb_index self name = Return (Z.of_nat j) /\
    LightManager.bulb_params self !! j = Some b /\ b !! "name" = Some name.
Proof.
  intros Hwf. destruct (decide (LightManager.managed self name)) as [Hm|Hm].
  - right. destruct (find_bulb_index_managed self name Hwf Hm)
      as (j & b & ? & ? & ? & _). eauto.
  - left. by apply find_bulb_index_unmanaged.
Qed.

Lemma registered_managed lower (om : OutletManager.t) (reg name : string) :
  registered om reg -> lower reg = lower name ->
  OutletManager.managed lower om name.
Proof.
  unfold registered, OutletManager.managed. intros Hreg E. rewrite <- E.
  apply list_elem_of_In, in_map_iff in Hreg as (b & Hb & Hin).
  apply list_elem_of_In, in_map_iff. exists b. split; [by rewrite Hb | done].
Qed.

(** ** Letter case of names

    C6. Let [reg] and [name] differ only in letter case, with a bulb and an
    outlet registered as [reg].  The bulb lookup of [name] never yields that
    bulb, and when no bulb is called exactly [name] it yields -1 and
    [set_color] neither succeeds nor changes anything; the outlet lookup of
    [name] finds an outlet and [set_state] answers with success. *)
Theorem C6_lookup_case_asymmetry (lower : string -> string)
    (m : LightManager.t) (k : nat) (b : param) (c : Py.color)
    (om : OutletManager.t) (st : bool) (reg name : string) :
  LightManager.wf m -> OutletManager.wf om ->
  LightManager.bulb_params m !! k = Some b -> b !! "name" = Some reg ->
  registered om reg ->
  lower reg = lower name -> reg <> name ->
  (LightManager.find_bulb_index m name <> Return (Z.of_nat k) /\
   (~ LightManager.managed m name ->
    LightManager.find_bulb_index m name = Return (-1) /\
    (LightManager.set_color name c m).1 = m /\
    (LightManager.set_color name c m).2
      <> Return (Some (LightManager.success_color c name)))) /\
  (OutletManager.find_outlet_index lower om name <> Return (-1) /\
   exists threads',
     OutletManager.set_state lower name st om
       = (OutletManager.with_outlet_threads om threads',
          Return (Some (OutletManager.success_state st name)))).
Proof.
  intros Hm Hom Hk Hb Hreg Hlow Hne. split; [split|].
  - destruct (find_bulb_index_cases m name Hm) as [->|(j & b' & -> & Hj & Hb')].
    + intros [=]. lia.
    + intros [= E]. apply Nat2Z.inj in E. subst j. congruence.
  - intros Hun. split; [by apply find_bulb_index_unmanaged|].
    unfold LightManager.set_color. run_m.
    rewrite (find_bulb_index_unmanaged m name Hm Hun). simpl.
    destruct (LightManager.names_of "Name" (LightManager.bulb_params m));
      simpl; split; try reflexivity; discriminate.
  - pose proof (registered_managed lower om reg name Hreg Hlow) as Hman.
    split.
    + destruct Hom as (_ & Hnames).
      destruct (find_outlet_from_managed lower om
                  (OutletManager.outlet_param om) name) as (j & Hj);
        [assumption | done | assumption |].
      unfold OutletManager.find_outlet_index. rewrite Hj. intros [=]. lia.
    + destruct (set_state_managed lower om name st Hom Hman)
        as (threads' & Hs & _). eauto.
Qed.

Lemma C6_lookup_case_asymmetry_witness :
  LightManager.find_bulb_index (LightManager.init [device_named "A"]) "a"
    = Return (-1) /\
  exists threads',
    OutletManager.set_state ascii_lower "a" true (OutletManager.init [device_named "A"])
      = (OutletManager.with_outlet_threads (OutletManager.init [device_named "A"])
           threads',
         Return (Some (OutletManager.success_state true "a"))).
Proof.
  assert (H1 : LightManager.wf (LightManager.init [device_named "A"])) by compute_done.
  assert (H2 : OutletManager.wf (OutletManager.init [device_named "A"]))
    by compute_done.
  assert (H3 : LightManager.bulb_params (LightManager.init [device_named "A"]) !! 0%nat
               = Some (device_named "A")) by reflexivity.
  assert (H4 : device_named "A" !! "name" = Some "A") by reflexivity.
  assert (H5 : registered (OutletManager.init [device_named "A"]) "A")
    by (unfold registered; compute_done).
  assert (H6 : ascii_lower "A" = ascii_lower "a") by reflexivity.
  assert (H7 : "A" <> "a") by discriminate.
  assert (H8 : ~ LightManager.managed (LightManager.init [device_named "A"]) "a")
    by compute_done.
  destruct (C6_lookup_case_asymmetry ascii_lower _ 0%nat _ (1, 2, 3)
              _ true "A" "a" H1 H2 H3 H4 H5 H6 H7)
    as ((_ & B) & (_ & O)).
  split; [exact (proj1 (B H8)) | exact O].
Defined.

(** ** Reading

    C9. [get_color_hex] raises for every name, on every manager; on a
    manager in its regular state the exception is the [TypeError] of the
    first replacement field, which receives the whole colour (or [None]). *)
Theorem C9_get_color_hex_raises (self : LightManager.t) (name : string) :
  raises (LightManager.get_color_hex name self).2 /\
  (LightManager.wf self ->
   (LightManager.get_color_hex name self).2 = Raise TypeError).
Proof.
  unfold LightManager.get_color_hex. run_m. split.
  - destruct (LightManager.get_color name self) as [s' [[c|]|e]]; simpl.
    + destruct c as [[r g] b]. by exists TypeError.
    + by exists TypeError.
    + by exists e.
  - intros Hwf.
    destruct (decide (LightManager.managed self name)) as [Hm|Hm].
    + destruct (get_color_managed self name Hwf Hm) as (i & th & _ & _ & _ & ->).
      simpl. by destruct (SmartBulbThread.color th) as [[r g] b].
    + by rewrite (get_color_unmanaged self name Hwf Hm).
Qed.

Lemma C9_get_color_hex_raises_witness :
  (LightManager.get_color_hex "A"
     (LightManager.set_color "A" (255, 128, 0)
        (LightManager.init [device_named "A"])).1).2
  = Raise TypeError.
Proof.
  apply (C9_get_color_hex_raises
           (LightManager.set_color "A" (255, 128, 0)
              (LightManager.init [device_named "A"])).1 "A").
  compute_done.
Defined.

(** C10. For a name that matches no managed device, [get_color] and
    [get_state] return [None] and change nothing; and [get_state] answers,
    for any name, either [None] or a success: its error branch is never
    taken. *)
Theorem C10_unknown_name_reads_none (lower : string -> string)
    (m : LightManager.t) (bname : string)
    (om : OutletManager.t) (oname : string) :
  LightManager.wf m -> ~ LightManager.managed m bname ->
  OutletManager.wf om -> ~ OutletManager.managed lower om oname ->
  LightManager.get_color bname m = (m, Return None) /\
  OutletManager.get_state lower oname om = (om, Return None) /\
  (forall name,
     (OutletManager.get_state lower name om).2 = Return None \/
     exists st,
       (OutletManager.get_state lower name om).2
         = Return (Some (OutletManager.success_state st name))).
Proof.
  intros Hm Hb Hom Ho. split; [by apply get_color_unmanaged|].
  split; [by apply get_state_unmanaged|].
  intros name. destruct (decide (OutletManager.managed lower om name)) as [H|H].
  - right. destruct (get_state_managed lower om name Hom H) as (th & _ & ->).
    eauto.
  - left. by rewrite get_state_unmanaged.
Qed.

Lemma C10_unknown_name_reads_none_witness :
  LightManager.get_color "C" (LightManager.init [device_named "A"; device_named "B"])
    = (LightManager.init [device_named "A"; device_named "B"], Return None) /\
  OutletManager.get_state ascii_lower "lamp" (OutletManager.init [device_named "TV"])
    = (OutletManager.init [device_named "TV"], Return None).
Proof.
  assert (H1 : LightManager.wf (LightManager.init [device_named "A"; device_named "B"]))
    by compute_done.
  assert (H2 : ~ LightManager.managed
                   (LightManager.init [device_named "A"; device_named "B"]) "C")
    by compute_done.
  assert (H3 : OutletManager.wf (OutletManager.init [device_named "TV"]))
    by compute_done.
  assert (H4 : ~ OutletManager.managed ascii_lower
                   (OutletManager.init [device_named "TV"]) "lamp") by compute_done.
  destruct (C10_unknown_name_reads_none ascii_lower _ "C" _ "lamp"
              H1 H2 H3 H4) as (A & B & _).
  split; [exact A | exact B].
Defined.


(** ** Colour arithmetic *)

Lemma in_channels (z : Z) : 0 <= z <= 255 -> z ∈ channels.
Proof. intros H. apply elem_of_seqZ. lia. Qed.

Lemma returns_Z_eq r z : returns_Z r z = true -> r = Return z.
Proof.
  destruct r as [v|e]; simpl; [|discriminate].
  intros H. apply Z.eqb_eq in H. by subst.
Qed.

Lemma channel_text_all : forallb channel_text_ok channels = true.
Proof. vm_compute. reflexivity. Qed.

Lemma channel_lerp_all :
  forallb (fun a => forallb (channel_lerp_ok a) channels) channels = true.
Proof. vm_compute. reflexivity. Qed.

Lemma channel_text (z : Z) :
  0 <= z <= 255 ->
  exists a b : ascii,
    Hex.format_02X z = String a (String b EmptyString) /\
    is_upper_hex a = true /\ is_upper_hex b = true /\
    Hex.int16 (String a (String b EmptyString)) = Return z.
Proof.
  intros Hz. pose proof channel_text_all as H.
  rewrite forallb_forall in H.
  specialize (H z (proj1 (list_elem_of_In _ _) (in_channels z Hz))).
  unfold channel_text_ok in H.
  destruct (Hex.format_02X z) as [|a [|b [|]]]; try discriminate.
  apply andb_prop in H as [H Hi]. apply andb_prop in H as [Ha Hb].
  exists a, b. repeat split; try assumption. by apply returns_Z_eq.
Qed.

Lemma channel_lerp (a b : Z) :
  0 <= a <= 255 -> 0 <= b <= 255 ->
  LightManager.interpolate_channel a b (NFloat F64.zero) = Return a /\
  LightManager.interpolate_channel a b (NFloat F64.one) = Return b.
Proof.
  intros Ha Hb. pose proof channel_lerp_all as H.
  rewrite forallb_forall in H.
  specialize (H a (proj1 (list_elem_of_In _ _) (in_channels a Ha))).
  rewrite forallb_forall in H.
  specialize (H b (proj1 (list_elem_of_In _ _) (in_channels b Hb))).
  apply andb_prop in H as [H0 H1]. split; by apply returns_Z_eq.
Qed.

Lemma channel_lerp_int (a b : Z) :
  LightManager.interpolate_channel a b (NInt 0) = Return a /\
  LightManager.interpolate_channel a b (NInt 1) = Return b.
Proof.
  unfold LightManager.interpolate_channel; simpl. split; f_equal; lia.
Qed.

Lemma within_tolerance_refl (c : Py.color) : within_tolerance c c.
Proof. destruct c as [[r g] b]. simpl. lia. Qed.

(** C8. For colours with channels in 0..255, the interpolation at grade 0
    (the integer or the float) returns the first colour and at grade 1 the
    second, exactly, hence within the tolerance of 1 per channel. *)
Theorem C8_lerp_endpoints (c1 c2 : Py.color) :
  valid_rgb c1 -> valid_rgb c2 ->
  (lerp_reaches c1 c2 (NInt 0) c1 /\ lerp_reaches c1 c2 (NFloat F64.zero) c1 /\
   lerp_reaches c1 c2 (NInt 1) c2 /\ lerp_reaches c1 c2 (NFloat F64.one) c2) /\
  (LightManager.interpolate_color c1 c2 (NInt 0) = Return c1 /\
   LightManager.interpolate_color c1 c2 (NFloat F64.zero) = Return c1 /\
   LightManager.interpolate_color c1 c2 (NInt 1) = Return c2 /\
   LightManager.interpolate_color c1 c2 (NFloat F64.one) = Return c2).
Proof.
  destruct c1 as [[r1 g1] b1], c2 as [[r2 g2] b2].
  intros (Hr1 & Hg1 & Hb1) (Hr2 & Hg2 & Hb2).
  destruct (channel_lerp r1 r2 Hr1 Hr2) as [Fr0 Fr1].
  destruct (channel_lerp g1 g2 Hg1 Hg2) as [Fg0 Fg1].
  destruct (channel_lerp b1 b2 Hb1 Hb2) as [Fb0 Fb1].
  destruct (channel_lerp_int r1 r2) as [Ir0 Ir1].
  destruct (channel_lerp_int g1 g2) as [Ig0 Ig1].
  destruct (channel_lerp_int b1 b2) as [Ib0 Ib1].
  assert (E : LightManager.interpolate_color (r1, g1, b1) (r2, g2, b2) (NInt 0)
              = Return (r1, g1, b1) /\
          LightManager.interpolate_color (r1, g1, b1) (r2, g2, b2)
            (NFloat F64.zero) = Return (r1, g1, b1) /\
          LightManager.interpolate_color (r1, g1, b1) (r2, g2, b2) (NInt 1)
            = Return (r2, g2, b2) /\
          LightManager.interpolate_color (r1, g1, b1) (r2, g2, b2)
            (NFloat F64.one) = Return (r2, g2, b2)).
  { unfold LightManager.interpolate_color.
    rewrite Fr0, Fg0, Fb0, Fr1, Fg1, Fb1, Ir0, Ig0, Ib0, Ir1, Ig1, Ib1.
    repeat split. }
  split; [|exact E]. destruct E as (E1 & E2 & E3 & E4).
  unfold lerp_reaches. rewrite E1, E2, E3, E4.
  repeat split; eexists; (split; [reflexivity | apply within_tolerance_refl]).
Qed.

Lemma C8_lerp_endpoints_witness :
  LightManager.interpolate_color (255, 0, 17) (0, 255, 200) (NFloat F64.zero)
    = Return (255, 0, 17) /\
  LightManager.interpolate_color (255, 0, 17) (0, 255, 200) (NFloat F64.one)
    = Return (0, 255, 200).
Proof.
  assert (H1 : valid_rgb (255, 0, 17)) by (simpl; lia).
  assert (H2 : valid_rgb (0, 255, 200)) by (simpl; lia).
  destruct (C8_lerp_endpoints (255, 0, 17) (0, 255, 200) H1 H2)
    as (_ & _ & A & _ & B).
  split; [exact A | exact B].
Defined.

(** C7. For a colour with channels in 0..255, the hex text of
    [get_colors_json_hex] is ['#'] and six upper-case digits, two per
    channel, passes the colour check, and [convert_from_hex] gives the
    colour back. *)
Theorem C7_hex_round_trip (c : Py.color) :
  valid_rgb c ->
  exists s,
    LightManager.hex_of_color c = Return s /\
    String.length s = 7%nat /\ upper_hex_text s = true /\
    LightManager.is_valid_hex_color s = true /\
    LightManager.convert_from_hex s = Return c.
Proof.
  destruct c as [[r g] b]. intros (Hr & Hg & Hb).
  destruct (channel_text r Hr) as (r1 & r2 & Er & Ur1 & Ur2 & Ir).
  destruct (channel_text g Hg) as (g1 & g2 & Eg & Ug1 & Ug2 & Ig).
  destruct (channel_text b Hb) as (b1 & b2 & Eb & Ub1 & Ub2 & Ib).
  eexists. split.
  { unfold LightManager.hex_of_color, Hex.format_color, Hex.format_field.
    simpl. rewrite Er, Eg, Eb. simpl. reflexivity. }
  split; [reflexivity|]. split.
  { simpl. by rewrite Ur1, Ur2, Ug1, Ug2, Ub1, Ub2. }
  split.
  { unfold LightManager.is_valid_hex_color, Re.matches. simpl.
    unfold is_upper_hex in *.
    rewrite !orb_false_r.
    assert (W : forall x, Hex.in_range "0" "9" x || Hex.in_range "A" "F" x = true ->
      Hex.in_range "0" "9" x || (Hex.in_range "a" "f" x || Hex.in_range "A" "F" x) = true).
    { intros x. destruct (Hex.in_range "0" "9" x), (Hex.in_range "a" "f" x),
        (Hex.in_range "A" "F" x); simpl; auto. }
    by rewrite (W _ Ur1), (W _ Ur2), (W _ Ug1), (W _ Ug2), (W _ Ub1), (W _ Ub2). }
  unfold LightManager.convert_from_hex. simpl.
  unfold slice. simpl. rewrite Ir, Ig, Ib. reflexivity.
Qed.

Lemma C7_hex_round_trip_witness :
  exists s,
    LightManager.hex_of_color (192, 10, 255) = Return s /\
    LightManager.convert_from_hex s = Return (192, 10, 255).
Proof.
  assert (H : valid_rgb (192, 10, 255)) by (simpl; lia).
  destruct (C7_hex_round_trip (192, 10, 255) H) as (s & A & _ & _ & _ & B).
  exists s. split; [exact A | exact B].
Defined.


Section Rotation.
Import LightManager.

Lemma cached_color_ext (a b : t) (name : string) :
  bulb_params a = bulb_params b -> bulb_colors a = bulb_colors b ->
  cached_color a name = cached_color b name.
Proof.
  intros Ep Ec. unfold cached_color.
  by rewrite (find_bulb_index_params a b name Ep), Ec.
Qed.

Lemma get_color_refreshes (self : t) (name : string) :
  wf self -> managed self name ->
  exists (self' : t) (c : Py.color),
    get_color name self = (self', Return (Some c)) /\
    cached_color self' name = Some c /\
    bulb_threads self' = bulb_threads self /\
    bulb_params self' = bulb_params self /\
    bulb_rotation_colors self' = bulb_rotation_colors self /\
    wf self' /\
    refreshed self' name /\
    (forall n, refreshed self n -> refreshed self' n).
Proof.
  intros Hwf Hm.
  destruct (get_color_managed self name Hwf Hm) as (i & th & Hi & Hlt & Hth & Hg).
  pose proof (wf_get_color self name Hwf) as Hwf'. rewrite Hg in Hwf'.
  simpl in Hwf'.
  set (self' := with_bulb_colors self
                  (<[i:=SmartBulbThread.color th]> (bulb_colors self))) in *.
  assert (Hc : cached_color self' name = Some (SmartBulbThread.color th)).
  { unfold cached_color.
    rewrite (find_bulb_index_params self' self) by reflexivity.
    rewrite Hi. replace (Z.of_nat i <? 0) with false
      by (symmetry; apply Z.ltb_ge; lia).
    rewrite Nat2Z.id. simpl. by apply list_lookup_insert_eq. }
  exists self', (SmartBulbThread.color th).
  refine (conj Hg (conj Hc (conj eq_refl (conj eq_refl (conj eq_refl
            (conj Hwf' (conj _ _))))))).
  - exists th. split; assumption.
  - intros n (th' & Hth' & Hc').
    exists th'. split; [exact Hth'|].
    unfold cached_color in *.
    rewrite (find_bulb_index_params self' self) by reflexivity.
    destruct (find_bulb_index_cases self n Hwf)
      as [E|(j & b & E & Hj & Hb)]; rewrite E in *; [discriminate|].
    replace (Z.of_nat j <? 0) with false in *
      by (symmetry; apply Z.ltb_ge; lia).
    rewrite Nat2Z.id in *. simpl.
    destruct (decide (i = j)) as [->|Hne].
    + destruct (find_bulb_index_cases self name Hwf)
        as [E'|(j' & b' & E' & Hj' & Hb')]; rewrite E' in Hi.
      * injection Hi as Hi. lia.
      * injection Hi as Hi. apply Nat2Z.inj in Hi. subst j'.
        assert (n = name) by congruence. subst n.
        rewrite Hth in Hth'. injection Hth' as <-.
        by apply list_lookup_insert_eq.
    + by rewrite list_lookup_insert_ne.
Qed.

Lemma rotate_collect_spec (rest : list param) (self : t) :
  wf self -> rest ⊆ bulb_params self ->
  exists self',
    rotate_collect rest self = (self', Return tt) /\
    bulb_threads self' = bulb_threads self /\
    bulb_params self' = bulb_params self /\
    wf self' /\
    bulb_rotation_colors self'
      = bulb_rotation_colors self
        ++ map (fun b : param => b !! "name" ≫= cached_color self') rest /\
    (forall b n, b ∈ rest -> b !! "name" = Some n -> refreshed self' n) /\
    (forall n, refreshed self n -> refreshed self' n).
Proof.
  revert self. induction rest as [|b rest IH]; intros self Hwf Hsub.
  - exists self. simpl. rewrite app_nil_r.
    refine (conj eq_refl (conj eq_refl (conj eq_refl (conj Hwf
              (conj eq_refl (conj _ _)))))); [|done].
    intros ? ? H. inversion H.
  - assert (Hb : b ∈ bulb_params self) by (apply Hsub; left).
    destruct Hwf as (Hlen & Hthreads & Hnames).
    pose proof (proj1 (Forall_forall _ _) Hnames b Hb) as [n Hn].
    assert (Hm : managed self n).
    { unfold managed. apply list_elem_of_In, in_map_iff. exists b.
      split; [exact Hn | by apply list_elem_of_In]. }
    destruct (get_color_refreshes self n (conj Hlen (conj Hthreads Hnames)) Hm)
      as (s1 & c & Hg & Hc & Ht1 & Hp1 & Hr1 & Hwf1 & Hn1 & Hkeep1).
    set (s2 := with_bulb_rotation_colors s1 (bulb_rotation_colors s1 ++ [Some c])).
    assert (Hwf2 : wf s2) by exact Hwf1.
    destruct (IH s2 Hwf2) as (s3 & Hrun & Ht3 & Hp3 & Hwf3 & Hr3 & Hn3 & Hkeep3).
    { intros x Hx. simpl. rewrite Hp1. apply Hsub. by right. }
    assert (Hkeep2 : forall k, refreshed s1 k -> refreshed s2 k).
    { intros k (th & Hk1 & Hk2). exists th. split; [exact Hk1|].
      by rewrite (cached_color_ext s2 s1). }
    exists s3. split.
    { simpl. run_m. unfold getitem. rewrite Hn. rewrite Hg. exact Hrun. }
    split; [by rewrite Ht3|]. split; [by rewrite Hp3|].
    split; [exact Hwf3|]. split; [|split].
    + rewrite Hr3. simpl. rewrite Hr1, <- app_assoc. simpl. rewrite Hn. simpl.
      destruct (Hkeep3 n (Hkeep2 n Hn1)) as (th3 & Hth3 & ->).
      destruct Hn1 as (th1 & Hth1 & Hc1).
      rewrite Ht3 in Hth3. simpl in Hth3. rewrite Hth1 in Hth3.
      injection Hth3 as <-. rewrite Hc in Hc1. by rewrite Hc1.
    + intros b' n' Hin Hn'. inversion Hin; subst.
      * assert (n' = n) by congruence. subst. apply Hkeep3, Hkeep2, Hn1.
      * by eapply Hn3.
    + intros k Hk. apply Hkeep3, Hkeep2, Hkeep1, Hk.
Qed.

End Rotation.

Section RotateClaim.
Import LightManager.

Lemma rotate_spec (self : t) (speed update_pause : num) (clockwise : bool)
    (fs fp : F64.float) :
  wf self ->
  float_of_num speed = Return fs -> float_of_num update_pause = Return fp ->
  exists self',
    rotate speed update_pause clockwise self = (self', Return tt) /\
    bulb_rotation_colors self' = snapshot self' /\
    (forall n, managed self' n -> refreshed self' n) /\
    is_rotation_active self' = true /\
    rotation_speed self' = fs /\ rotation_update_pause self' = fp /\
    rotation_clockwise self' = clockwise /\
    bulb_threads self' = bulb_threads self /\
    bulb_params self' = bulb_params self /\
    wf self'.
Proof.
  intros Hwf Hfs Hfp.
  destruct (rotate_collect_spec (bulb_params self)
              (with_bulb_rotation_colors self []))
    as (s1 & Hrun & Ht & Hp & Hwf1 & Hr & Hall & _); [exact Hwf | done |].
  simpl in Ht, Hp, Hr.
  eexists. split.
  { unfold rotate. run_m. rewrite Hrun, Hfs, Hfp. reflexivity. }
  simpl. refine (conj _ (conj _ (conj eq_refl (conj eq_refl (conj eq_refl
           (conj eq_refl (conj Ht (conj Hp Hwf1)))))))).
  - rewrite Hr. unfold snapshot. simpl. rewrite Hp.
    apply map_ext. intros b. destruct (b !! "name"); simpl; [|reflexivity].
    by apply cached_color_ext.
  - intros n Hn. unfold managed in Hn. simpl in Hn. rewrite Hp in Hn.
    apply list_elem_of_In, in_map_iff in Hn as (b & Hb & Hin).
    apply list_elem_of_In in Hin.
    destruct (Hall b n Hin Hb) as (th & Hth & Hc).
    exists th. split; [exact Hth|].
    rewrite <- Hc. by apply cached_color_ext.
Qed.

End RotateClaim.

(** ** Rotation

    C5 as the design document states it fails: a pass of four steps is under
    way (one step done) when [rotate] is called again; the cycle position is
    3 before the call and 3 after it, not 0. *)
Lemma C5_counterexample :
  let s0 := LightManager.start [device_named "A"; device_named "B"] in
  let s1 := (LightManager.call
               (LightManager.rotate (NInt 4) (NFloat LightManager.half) true)
               s0).1 in
  let s2 := (LightManager.tick s1).1 in
  let s3 := (LightManager.call
               (LightManager.rotate (NInt 4) (NFloat LightManager.half) true)
               s2).1 in
  LightManager.cycle (LightManager.rotation s2) = three /\
  LightManager.cycle (LightManager.rotation s3) = three /\
  F64.eqb (LightManager.cycle (LightManager.rotation s3)) F64.zero = false.
Proof. vm_compute. repeat split. Qed.

(** C5 (amended). [rotate] returns with the ring a copy of the cached
    colours, each cache entry first refreshed from its worker; the speed,
    the pause and the direction are stored and the active flag is set; no
    worker is touched (no request, no device write); the rotation thread's
    cycle position and pass colours stay as they were. *)
Theorem C5_rotate_amended (s : LightManager.system)
    (speed update_pause : num) (clockwise : bool) (fs fp : F64.float) :
  LightManager.wf (LightManager.manager s) ->
  float_of_num speed = Return fs -> float_of_num update_pause = Return fp ->
  exists self',
    LightManager.call (LightManager.rotate speed update_pause clockwise) s
      = (LightManager.mk_system self' (LightManager.rotation s), Return tt) /\
    LightManager.bulb_rotation_colors self' = snapshot self' /\
    (forall n, LightManager.managed self' n -> refreshed self' n) /\
    LightManager.is_rotation_active self' = true /\
    LightManager.rotation_speed self' = fs /\
    LightManager.rotation_update_pause self' = fp /\
    LightManager.rotation_clockwise self' = clockwise /\
    LightManager.bulb_threads self'
      = LightManager.bulb_threads (LightManager.manager s).
Proof.
  intros Hwf Hfs Hfp.
  destruct (rotate_spec (LightManager.manager s) speed update_pause clockwise
              fs fp Hwf Hfs Hfp)
    as (self' & Hrun & H1 & H2 & H3 & H4 & H5 & H6 & H7 & _).
  exists self'. unfold LightManager.call. rewrite Hrun.
  repeat (split; [assumption || reflexivity|]). assumption.
Qed.

Lemma C5_rotate_amended_witness :
  let s := (LightManager.call (LightManager.set_color "A" (255, 0, 0))
              (LightManager.start [device_named "A"; device_named "B"])).1 in
  exists self',
    LightManager.call
      (LightManager.rotate (NInt 4) (NFloat LightManager.half) true) s
      = (LightManager.mk_system self' (LightManager.rotation s), Return tt) /\
    LightManager.is_rotation_active self' = true.
Proof.
  intros s.
  assert (H1 : LightManager.wf (LightManager.manager s)) by compute_done.
  assert (H2 : float_of_num (NInt 4)
               = Return (S754_finite false 4503599627370496 (-50)))
    by reflexivity.
  assert (H3 : float_of_num (NFloat LightManager.half)
               = Return LightManager.half) by reflexivity.
  destruct (C5_rotate_amended s (NInt 4) (NFloat LightManager.half) true
              _ _ H1 H2 H3) as (self' & A & _ & _ & B & _).
  exists self'. split; [exact A | exact B].
Defined.


Section HexCheck.
Import LightManager.

Lemma in_set_hex (c : ascii) :
  Re.in_set [("0", "9"); ("a", "f"); ("A", "F")]%char c = is_hex c.
Proof.
  unfold Re.in_set, is_hex. simpl.
  by rewrite orb_false_r, orb_assoc.
Qed.

Lemma spec_hex_pattern_inv (s : string) :
  spec_hex_pattern s = true ->
  exists c1 c2 c3 c4 c5 c6,
    s = String "#" (String c1 (String c2 (String c3 (String c4 (String c5
          (String c6 EmptyString)))))) /\
    is_hex c1 && is_hex c2 && is_hex c3 && is_hex c4 && is_hex c5
      && is_hex c6 = true.
Proof.
  destruct s as [|c0 [|c1 [|c2 [|c3 [|c4 [|c5 [|c6 [|c7 s]]]]]]]];
    cbn -[is_hex Ascii.eqb]; rewrite ?andb_false_r; try discriminate.
  rewrite !andb_true_r. intros H.
  apply andb_prop in H as [H0 H]. apply Ascii.eqb_eq in H0. subst c0.
  exists c1, c2, c3, c4, c5, c6. split; [reflexivity|].
  by rewrite <- !andb_assoc.
Qed.

(** What the check accepts: the format, or the format followed by one
    newline. *)
Lemma is_valid_hex_color_iff (s : string) :
  is_valid_hex_color s = true <->
  spec_hex_pattern s = true \/
  exists t, spec_hex_pattern t = true /\ s = t +:+ String newline EmptyString.
Proof.
  split.
  - unfold is_valid_hex_color, Re.matches, hex_color_re.
    destruct s as [|c0 [|c1 [|c2 [|c3 [|c4 [|c5 [|c6 [|c7 [|c8 s]]]]]]]]];
      cbn -[Re.in_set is_hex Ascii.eqb newline];
      rewrite ?in_set_hex, ?andb_false_r, ?andb_true_r; try discriminate.
    + intros H. left. by destruct (_ && _).
    + intros H. right.
      destruct (_ && _) eqn:E in H; [clear H|discriminate].
      repeat match type of E with
             | _ && _ = true => apply andb_prop in E as [? E]
             end.
      apply Ascii.eqb_eq in E. subst c7.
      exists (String c0 (String c1 (String c2 (String c3 (String c4
                (String c5 (String c6 EmptyString))))))).
      split; [|reflexivity].
      cbn -[is_hex Ascii.eqb].
      repeat match goal with
             | H : _ = true |- _ => rewrite H; clear H
             end.
      reflexivity.
  - intros [H|(t & H & ->)];
      apply spec_hex_pattern_inv in H
        as (c1 & c2 & c3 & c4 & c5 & c6 & -> & H);
      unfold is_valid_hex_color, Re.matches, hex_color_re;
      cbv [String.append]; cbn -[Re.in_set is_hex];
      rewrite !in_set_hex;
      repeat (apply andb_prop in H as [H ->]); rewrite H; reflexivity.
Qed.

End HexCheck.

Section HexClaim.
Import LightManager.

Lemma set_color_hex_rejected (self : t) (name s : string) :
  is_valid_hex_color s = false ->
  set_color_hex name s self = (self, Return (Some (error_bad_hex name))).
Proof. intros H. unfold set_color_hex. by rewrite H. Qed.

(** Outside the format, and outside the format followed by a newline, the
    answer is the error and nothing changes. *)
Lemma set_color_hex_malformed (self : t) (name s : string) :
  spec_hex_pattern s = false ->
  (forall t, spec_hex_pattern t = true ->
             s <> t +:+ String newline EmptyString) ->
  set_color_hex name s self = (self, Return (Some (error_bad_hex name))) /\
  dict_get (error_bad_hex name) "reason"
    = Some (VStr "color must be hex string like #C0C0C0").
Proof.
  intros Hs Hnl. split; [|reflexivity]. apply set_color_hex_rejected.
  destruct (is_valid_hex_color s) eqn:E; [|reflexivity].
  apply is_valid_hex_color_iff in E as [E|(t & Ht & ->)].
  - congruence.
  - exfalso. by apply (Hnl t).
Qed.

Example set_color_hex_ZZZZZZ :
  let m := init [device_named "A"] in
  set_color_hex "A" "#ZZZZZZ" m = (m, Return (Some (error_bad_hex "A"))) /\
  cached_color m "A" = Some (0, 0, 0).
Proof. vm_compute. split; reflexivity. Qed.

End HexClaim.

(** C3 (fails on the code). The text ["#C0C0C0"] followed by a newline is
    not of the format [#[0-9A-Fa-f]{6}], yet [set_color_hex] does not answer
    with the error: the check lets it through, the answer is a success, the
    cached colour of the bulb changes from (0,0,0) to (192,192,192) and the
    worker gets the request. *)
Theorem C3_trailing_newline_accepted :
  let m := LightManager.init [device_named "A"] in
  let s := "#C0C0C0" +:+ String newline EmptyString in
  spec_hex_pattern s = false /\
  LightManager.is_valid_hex_color s = true /\
  LightManager.cached_color m "A" = Some (0, 0, 0) /\
  exists m',
    LightManager.set_color_hex "A" s m
      = (m', Return (Some (LightManager.success_color (192, 192, 192) "A"))) /\
    LightManager.cached_color m' "A" = Some (192, 192, 192) /\
    map SmartBulbThread.color (LightManager.bulb_threads m')
      = [(192, 192, 192)].
Proof.
  vm_compute. repeat split. eexists. repeat split.
Qed.

(** * Further properties of the code *)

(** ** What a worker sends to its device *)

Section WorkerRuns.

Lemma requested_snoc {V} (events : list (worker_event V)) (e : worker_event V) :
  requested (events ++ [e])
  = requested events ++ match e with Request v => [v] | _ => [] end.
Proof.
  induction events as [|x events IH]; simpl.
  - destruct e; reflexivity.
  - destruct x; simpl; by rewrite IH.
Qed.

Lemma bulb_inv_step d0 reqs w e :
  bulb_inv d0 reqs w ->
  bulb_inv d0 (reqs ++ match e with Request v => [v] | _ => [] end)
    (bulb_step w e).
Proof.
  intros (a & Hd & H). destruct w as [p c s r ph d]; simpl in *.
  destruct e as [v| | |]; simpl; rewrite ?app_nil_r.
  - exists a. split; [exact Hd|]. destruct ph; simpl.
    + by apply sublist_inserts_r.
    + exists reqs. split; [reflexivity | exact H].
    + destruct H as (r0 & -> & H). exists (r0 ++ [c]). split; [reflexivity|].
      by apply sublist_inserts_r.
  - destruct ph; simpl; [destruct r; simpl|..]; exists a; by split.
  - destruct ph; simpl.
    + exists a. by split.
    + exists a. by split.
    + destruct H as (r0 & -> & H). exists (a ++ [c]). split.
      * by rewrite Hd, app_assoc.
      * by apply sublist_app.
  - exists a. split; [exact Hd|]. exact H.
Qed.

Lemma outlet_inv_step d0 reqs w e :
  outlet_inv d0 reqs w ->
  outlet_inv d0 (reqs ++ match e with Request v => [v] | _ => [] end)
    (outlet_step w e).
Proof.
  intros (a & Hd & H). destruct w as [p c r ph d]; simpl in *.
  destruct e as [v| | |]; simpl; rewrite ?app_nil_r.
  - exists a. split; [exact Hd|]. destruct ph; simpl.
    + by apply sublist_inserts_r.
    + exists reqs. split; [reflexivity | exact H].
    + destruct H as (r0 & -> & H). exists (r0 ++ [c]). split; [reflexivity|].
      by apply sublist_inserts_r.
  - destruct ph; simpl; [destruct r; simpl|..]; exists a; by split.
  - destruct ph; simpl.
    + exists a. by split.
    + exists a. by split.
    + destruct H as (r0 & -> & H). exists (a ++ [c]). split.
      * rewrite Hd, app_assoc. by destruct c.
      * by apply sublist_app.
  - exists a. split; [exact Hd|]. exact H.
Qed.

Lemma bulb_inv_run d0 w events :
  bulb_inv d0 [] w -> bulb_inv d0 (requested events) (bulb_run w events).
Proof.
  intros H0. induction events as [|e events IH] using rev_ind; [exact H0|].
  unfold bulb_run. rewrite foldl_app, requested_snoc. simpl.
  by apply bulb_inv_step.
Qed.

Lemma outlet_inv_run d0 w events :
  outlet_inv d0 [] w -> outlet_inv d0 (requested events) (outlet_run w events).
Proof.
  intros H0. induction events as [|e events IH] using rev_ind; [exact H0|].
  unfold outlet_run. rewrite foldl_app, requested_snoc. simpl.
  by apply outlet_inv_step.
Qed.

End WorkerRuns.

Section WorkerTheorems.

(** X1. Whatever requests, waits, wake-ups and shutdowns follow one another,
    a worker that starts without a pending notification sends to its device
    a subsequence of the requested values, in the order of the requests:
    never a value nobody asked for, never more writes than requests. *)
Theorem worker_sends_requested_values
    (b : SmartBulbThread.t) (be : list (worker_event Py.color))
    (o : OutletDeviceThread.t) (oe : list (worker_event bool)) :
  SmartBulbThread.waiting b <> Notified ->
  OutletDeviceThread.waiting o <> Notified ->
  (exists sent,
     SmartBulbThread.device (bulb_run b be) = SmartBulbThread.device b ++ sent /\
     sublist sent (requested be) /\
     (length sent <= length (requested be))%nat) /\
  (exists sent,
     OutletDeviceThread.device (outlet_run o oe)
       = OutletDeviceThread.device o ++ sent /\
     sublist sent (requested oe) /\
     (length sent <= length (requested oe))%nat).
Proof.
  intros Hb Ho. split.
  - destruct (bulb_inv_run (SmartBulbThread.device b) b be) as (a & Hd & H).
    { exists []. rewrite app_nil_r. split; [reflexivity|].
      destruct (SmartBulbThread.waiting b); simpl;
        [apply sublist_nil..|congruence]. }
    assert (S : sublist a (requested be)).
    { destruct (SmartBulbThread.waiting (bulb_run b be)); try exact H.
      destruct H as (r & -> & H). by apply sublist_inserts_r. }
    exists a. split; [exact Hd|]. split; [exact S | by apply sublist_length].
  - destruct (outlet_inv_run (OutletDeviceThread.device o) o oe) as (a & Hd & H).
    { exists []. rewrite app_nil_r. split; [reflexivity|].
      destruct (OutletDeviceThread.waiting o); simpl;
        [apply sublist_nil..|congruence]. }
    assert (S : sublist a (requested oe)).
    { destruct (OutletDeviceThread.waiting (outlet_run o oe)); try exact H.
      destruct H as (r & -> & H). by apply sublist_inserts_r. }
    exists a. split; [exact Hd|]. split; [exact S | by apply sublist_length].
Qed.

Lemma worker_sends_requested_values_witness :
  SmartBulbThread.device
    (bulb_run (SmartBulbThread.init ∅)
       [EnterWait; Request (1, 2, 3); Request (4, 5, 6); Wake;
        Request (7, 8, 9); EnterWait; Wake])
  = [(4, 5, 6)].
Proof.
  assert (Hb : SmartBulbThread.waiting (SmartBulbThread.init ∅) <> Notified)
    by (simpl; discriminate).
  assert (Ho : OutletDeviceThread.waiting (OutletDeviceThread.init ∅)
               <> Notified) by (simpl; discriminate).
  destruct (worker_sends_requested_values (SmartBulbThread.init ∅)
              [EnterWait; Request (1, 2, 3); Request (4, 5, 6); Wake;
               Request (7, 8, 9); EnterWait; Wake]
              (OutletDeviceThread.init ∅) [] Hb Ho) as [(sent & E & _) _].
  reflexivity.
Defined.

Lemma bulb_left_loop (w : SmartBulbThread.t) events :
  SmartBulbThread.is_running w = false ->
  SmartBulbThread.waiting w = Busy ->
  SmartBulbThread.device (bulb_run w events) = SmartBulbThread.device w.
Proof.
  revert w. induction events as [|e events IH]; intros w Hr Hp;
    [reflexivity|].
  destruct w as [p c s r ph d]; simpl in Hr, Hp; subst r ph.
  unfold bulb_run in *. simpl.
  destruct e; simpl; by rewrite IH.
Qed.

Lemma outlet_left_loop (w : OutletDeviceThread.t) events :
  OutletDeviceThread.is_running w = false ->
  OutletDeviceThread.waiting w = Busy ->
  OutletDeviceThread.device (outlet_run w events)
  = OutletDeviceThread.device w.
Proof.
  revert w. induction events as [|e events IH]; intros w Hr Hp;
    [reflexivity|].
  destruct w as [p c r ph d]; simpl in Hr, Hp; subst r ph.
  unfold outlet_run in *. simpl.
  destruct e; simpl; by rewrite IH.
Qed.

Lemma bulb_stopped_run (w : SmartBulbThread.t) events :
  SmartBulbThread.is_running w = false ->
  exists sent,
    SmartBulbThread.device (bulb_run w events)
      = SmartBulbThread.device w ++ sent /\ (length sent <= 1)%nat.
Proof.
  revert w. induction events as [|e events IH]; intros w Hr.
  - exists []. rewrite app_nil_r. split; [reflexivity | simpl; lia].
  - destruct w as [p c s r ph d]; simpl in Hr; subst r.
    destruct ph.
    + exists []. rewrite app_nil_r. split; [|simpl; lia].
      by apply bulb_left_loop.
    + destruct e as [v| | |].
      * apply (IH (SmartBulbThread.mk p v s false Notified d) eq_refl).
      * apply (IH (SmartBulbThread.mk p c s false Waiting d) eq_refl).
      * exists []. rewrite app_nil_r. split; [|simpl; lia].
        apply (bulb_left_loop (SmartBulbThread.mk p c s false Busy d));
          reflexivity.
      * apply (IH (SmartBulbThread.mk p c s false Waiting d) eq_refl).
    + destruct e as [v| | |].
      * apply (IH (SmartBulbThread.mk p v s false Notified d) eq_refl).
      * apply (IH (SmartBulbThread.mk p c s false Notified d) eq_refl).
      * exists [c]. split; [|simpl; lia].
        apply (bulb_left_loop
                 (SmartBulbThread.mk p c s false Busy (d ++ [c])));
          reflexivity.
      * apply (IH (SmartBulbThread.mk p c s false Notified d) eq_refl).
Qed.

Lemma outlet_stopped_run (w : OutletDeviceThread.t) events :
  OutletDeviceThread.is_running w = false ->
  exists sent,
    OutletDeviceThread.device (outlet_run w events)
      = OutletDeviceThread.device w ++ sent /\ (length sent <= 1)%nat.
Proof.
  revert w. induction events as [|e events IH]; intros w Hr.
  - exists []. rewrite app_nil_r. split; [reflexivity | simpl; lia].
  - destruct w as [p c r ph d]; simpl in Hr; subst r.
    destruct ph.
    + exists []. rewrite app_nil_r. split; [|simpl; lia].
      by apply outlet_left_loop.
    + destruct e as [v| | |].
      * apply (IH (OutletDeviceThread.mk p v false Notified d) eq_refl).
      * apply (IH (OutletDeviceThread.mk p c false Waiting d) eq_refl).
      * exists []. rewrite app_nil_r. split; [|simpl; lia].
        apply (outlet_left_loop (OutletDeviceThread.mk p c false Busy d));
          reflexivity.
      * apply (IH (OutletDeviceThread.mk p c false Waiting d) eq_refl).
    + destruct e as [v| | |].
      * apply (IH (OutletDeviceThread.mk p v false Notified d) eq_refl).
      * apply (IH (OutletDeviceThread.mk p c false Notified d) eq_refl).
      * exists [c]. split; [|simpl; lia].
        destruct c;
          apply (outlet_left_loop
                   (OutletDeviceThread.mk p _ false Busy (d ++ [_])));
          reflexivity.
      * apply (IH (OutletDeviceThread.mk p c false Notified d) eq_refl).
Qed.

(** X2. Once a worker has been told to shut down it sends at most one more
    value to its device (the one of a wake-up already under way), whatever
    is requested afterwards; and none at all if it was outside its wait
    when told. *)
Theorem worker_after_shutdown
    (b : SmartBulbThread.t) (be : list (worker_event Py.color))
    (o : OutletDeviceThread.t) (oe : list (worker_event bool)) :
  (exists sent,
     SmartBulbThread.device (bulb_run (SmartBulbThread.shutdown b) be)
       = SmartBulbThread.device b ++ sent /\
     (length sent <= 1)%nat /\
     (SmartBulbThread.waiting b = Busy -> sent = [])) /\
  (exists sent,
     OutletDeviceThread.device (outlet_run (OutletDeviceThread.shutdown o) oe)
       = OutletDeviceThread.device o ++ sent /\
     (length sent <= 1)%nat /\
     (OutletDeviceThread.waiting o = Busy -> sent = [])).
Proof.
  split.
  - destruct (bulb_stopped_run (SmartBulbThread.shutdown b) be eq_refl)
      as (sent & E & L).
    exists sent. split; [exact E|]. split; [exact L|].
    intros Hp. rewrite bulb_left_loop in E by (reflexivity || exact Hp).
    simpl in E. rewrite <- (app_nil_r (SmartBulbThread.device b)) in E at 1.
    by apply app_inv_head in E.
  - destruct (outlet_stopped_run (OutletDeviceThread.shutdown o) oe eq_refl)
      as (sent & E & L).
    exists sent. split; [exact E|]. split; [exact L|].
    intros Hp. rewrite outlet_left_loop in E by (reflexivity || exact Hp).
    simpl in E. rewrite <- (app_nil_r (OutletDeviceThread.device o)) in E at 1.
    by apply app_inv_head in E.
Qed.

Lemma worker_after_shutdown_witness :
  SmartBulbThread.device
    (bulb_run (SmartBulbThread.shutdown (SmartBulbThread.init ∅))
       [Request (1, 2, 3); EnterWait; Wake; Request (4, 5, 6)])
  = [].
Proof.
  destruct (worker_after_shutdown (SmartBulbThread.init ∅)
              [Request (1, 2, 3); EnterWait; Wake; Request (4, 5, 6)]
              (OutletDeviceThread.init ∅) []) as [(sent & E & _ & H) _].
  rewrite E, (H eq_refl). reflexivity.
Defined.



End WorkerTheorems.

(** ** Positions: the cache entry and the worker of a name *)

Section Positions.
Import LightManager.

Lemma list_index_first `{EqDecision A} (x : A) (pre l : list A) :
  x ∉ pre ->
  list_index x (pre ++ x :: l) = Return (Z.of_nat (length pre)).
Proof.
  induction pre as [|y pre IH]; simpl; intros Hnot.
  - by rewrite decide_True.
  - rewrite decide_False by (intros ->; apply Hnot; left).
    rewrite IH by (intros H; apply Hnot; by right).
    simpl. f_equal. lia.
Qed.

Lemma first_named_cons (b : param) (rest : list param) (name : string) :
  first_named (b :: rest) name
  = if decide (b !! "name" = Some name) then Some 0%nat
    else S <$> first_named rest name.
Proof.
  unfold first_named. simpl. destruct (decide _); [reflexivity|].
  by destruct (list_find _ rest) as [[k y]|].
Qed.

Lemma first_named_Some (params : list param) (name : string) (k : nat) :
  first_named params name = Some k ->
  exists b, params !! k = Some b /\ b !! "name" = Some name /\
    forall j b', (j < k)%nat -> params !! j = Some b' ->
                 b' !! "name" <> Some name.
Proof.
  unfold first_named. intros H.
  destruct (list_find _ params) as [[k' b]|] eqn:E; [|discriminate].
  injection H as ->. apply list_find_Some in E as (Hk & Hb & Hfirst).
  exists b. repeat split; try assumption.
  intros j b' Hj Hb'. by apply (Hfirst j b').
Qed.

Lemma first_named_None (params : list param) (name : string) :
  first_named params name = None <-> Some name ∉ names params.
Proof.
  unfold first_named, names. split.
  - intros H Hin. destruct (list_find _ params) as [[k b]|] eqn:E;
      [discriminate|].
    apply list_elem_of_In, in_map_iff in Hin as (b & Hb & Hin).
    apply list_elem_of_In in Hin.
    apply list_find_None in E.
    exact (proj1 (Forall_forall _ _) E b Hin Hb).
  - intros Hnot. destruct (list_find _ params) as [[k b]|] eqn:E;
      [|reflexivity].
    apply list_find_Some in E as (Hk & Hb & _). exfalso. apply Hnot.
    apply list_elem_of_In, in_map_iff. exists b. split; [exact Hb|].
    apply list_elem_of_In. by eapply list_elem_of_lookup_2.
Qed.

(** The loop of [find_bulb_index] with [index] inside it returns the
    position where the loop stands. *)
Lemma find_bulb_index_from_first (self : t) (pre rest : list param)
    (name : string) :
  bulb_params self = pre ++ rest ->
  Forall has_name rest ->
  Forall (fun b : param => b !! "name" <> Some name) pre ->
  find_bulb_index_from self rest name
  = Return (match first_named rest name with
            | Some k => Z.of_nat (length pre + k)
            | None => -1
            end).
Proof.
  revert pre. induction rest as [|b rest IH]; intros pre Hp Hn Hpre;
    [reflexivity|].
  apply Forall_cons in Hn as [[n Hn] Hrest].
  simpl. unfold getitem. rewrite Hn. simpl. rewrite first_named_cons, Hn.
  destruct (decide (n = name)) as [->|Hne].
  - rewrite decide_True by reflexivity. rewrite Hp, Nat.add_0_r.
    apply list_index_first. intros Hin.
    apply (proj1 (Forall_forall _ _) Hpre b Hin Hn).
  - rewrite decide_False by congruence.
    rewrite (IH (pre ++ [b])).
    + destruct (first_named rest name) as [k|]; simpl; [|reflexivity].
      rewrite length_app. simpl. do 2 f_equal. lia.
    + by rewrite <- app_assoc.
    + exact Hrest.
    + apply Forall_app. split; [exact Hpre|].
      apply Forall_singleton. congruence.
Qed.

Lemma find_bulb_index_first (self : t) (name : string) :
  wf self ->
  find_bulb_index self name
  = Return (match first_named (bulb_params self) name with
            | Some k => Z.of_nat k
            | None => -1
            end).
Proof.
  intros (_ & _ & Hn). unfold find_bulb_index.
  by rewrite (find_bulb_index_from_first self [] (bulb_params self) name).
Qed.

Lemma change_first_first threads name c :
  Forall has_name (map SmartBulbThread.bulb_param threads) ->
  change_first threads name c
  = Return (match first_named (map SmartBulbThread.bulb_param threads) name
            with
            | Some k => Some (alter (fun th => SmartBulbThread.change_color th c)
                                k threads)
            | None => None
            end).
Proof.
  induction threads as [|th threads IH]; simpl; intros Hn; [reflexivity|].
  apply Forall_cons in Hn as [[n Hn] Hrest].
  unfold getitem. rewrite Hn. simpl. rewrite first_named_cons, Hn.
  destruct (decide (n = name)) as [->|Hne].
  - by rewrite decide_True.
  - rewrite decide_False by congruence. rewrite (IH Hrest). simpl.
    by destruct (first_named _ name).
Qed.

Lemma first_thread_first threads name :
  Forall has_name (map SmartBulbThread.bulb_param threads) ->
  first_thread threads name
  = Return (first_named (map SmartBulbThread.bulb_param threads) name
              ≫= fun k => threads !! k).
Proof.
  induction threads as [|th threads IH]; simpl; intros Hn; [reflexivity|].
  apply Forall_cons in Hn as [[n Hn] Hrest].
  unfold getitem. rewrite Hn. simpl. rewrite first_named_cons, Hn.
  destruct (decide (n = name)) as [->|Hne].
  - by rewrite decide_True.
  - rewrite decide_False by congruence. rewrite (IH Hrest).
    by destruct (first_named _ name).
Qed.

Lemma managed_first_named (self : t) (name : string) :
  managed self name <-> is_Some (first_named (bulb_params self) name).
Proof.
  unfold managed. split.
  - intros H. destruct (first_named _ name) eqn:E; [by eexists|].
    by apply first_named_None in E.
  - intros [k Hk].
    destruct (decide (Some name ∈ names (bulb_params self))) as [H|H];
      [exact H|].
    apply first_named_None in H. congruence.
Qed.

End Positions.

(** ** What the manager's methods leave alone *)

Section NoDeviceAccess.
Import LightManager.

Lemma only_requested_refl th : only_requested th th.
Proof. by repeat split. Qed.

Lemma only_requested_trans a b c :
  only_requested a b -> only_requested b c -> only_requested a c.
Proof.
  intros (A1 & A2 & A3 & A4 & A5) (B1 & B2 & B3 & B4 & B5).
  repeat split; try congruence. intros H. by apply B5, A5.
Qed.

Lemma only_requested_change th c :
  only_requested th (SmartBulbThread.change_color th c).
Proof.
  repeat split. simpl. by intros ->.
Qed.

Lemma no_device_access_refl self : no_device_access self self.
Proof.
  repeat split. apply Forall2_same_length_lookup. split; [reflexivity|].
  intros i x y Hx Hy. rewrite Hx in Hy. injection Hy as <-.
  apply only_requested_refl.
Qed.

Lemma no_device_access_trans a b c :
  no_device_access a b -> no_device_access b c -> no_device_access a c.
Proof.
  intros (A1 & A2 & A3) (B1 & B2 & B3). repeat split; try congruence.
  eapply Forall2_trans; [|exact A3|exact B3].
  intros x y z. apply only_requested_trans.
Qed.

Lemma change_first_only_requested threads name c threads' :
  change_first threads name c = Return (Some threads') ->
  Forall2 only_requested threads threads'.
Proof.
  revert threads'. induction threads as [|th threads IH]; simpl;
    intros threads' H; [discriminate|].
  destruct (getitem _ "name") as [n|e]; simpl in H; [|discriminate].
  destruct (decide (n = name)).
  - injection H as <-. constructor; [apply only_requested_change|].
    apply Forall2_same_length_lookup. split; [reflexivity|].
    intros i x y Hx Hy. rewrite Hx in Hy. injection Hy as <-.
    apply only_requested_refl.
  - destruct (change_first threads name c) as [[r|]|e]; simpl in H;
      try discriminate.
    injection H as <-. constructor; [apply only_requested_refl|].
    by apply IH.
Qed.

Lemma set_color_no_device_access (name : string) (c : Py.color) (self : t) :
  no_device_access self (set_color name c self).1.
Proof.
  unfold set_color. run_m.
  destruct (find_bulb_index self name) as [i|e]; simpl;
    [|apply no_device_access_refl].
  destruct (i =? -1).
  - destruct (names_of "Name" (bulb_params self)); simpl;
      apply no_device_access_refl.
  - destruct (list_setitem (bulb_colors self) i c) as [colors|e]; simpl;
      [|apply no_device_access_refl].
    destruct (change_first (bulb_threads self) name c) as [[threads'|]|e]
      eqn:E; simpl.
    + repeat split. simpl. by eapply change_first_only_requested.
    + apply (no_device_access_refl self).
    + apply (no_device_access_refl self).
Qed.

Lemma get_color_no_device_access (name : string) (self : t) :
  no_device_access self (get_color name self).1 /\
  bulb_threads (get_color name self).1 = bulb_threads self.
Proof.
  unfold get_color. run_m.
  destruct (first_thread (bulb_threads self) name) as [[th|]|e]; simpl;
    try (split; [apply no_device_access_refl | reflexivity]).
  destruct (find_bulb_index self name) as [i|e]; simpl;
    try (split; [apply no_device_access_refl | reflexivity]).
  destruct (list_setitem _ i _) as [colors|e]; simpl;
    try (split; [apply no_device_access_refl | reflexivity]).
  destruct (list_getitem colors i); simpl;
    (split; [apply (no_device_access_refl self) | reflexivity]).
Qed.

Lemma set_color_hex_no_device_access (name s : string) (self : t) :
  no_device_access self (set_color_hex name s self).1.
Proof.
  unfold set_color_hex. destruct (negb _); [apply no_device_access_refl|].
  run_m. destruct (convert_from_hex s); simpl;
    [apply set_color_no_device_access | apply no_device_access_refl].
Qed.

Lemma rotation_pass_no_device_access original_colors cycle_percent indices
    (self : t) :
  no_device_access self
    (rotation_pass original_colors cycle_percent indices self).1.
Proof.
  revert self. induction indices as [|i rest IH]; intros self;
    [apply no_device_access_refl|].
  simpl. run_m.
  destruct (list_getitem original_colors i) as [c1|e]; simpl;
    [|apply no_device_access_refl].
  destruct (list_getitem original_colors _) as [c2|e]; simpl;
    [|apply no_device_access_refl].
  destruct (match c1 with Some _ => _ | None => _ end) as [new_color|e];
    simpl; [|apply no_device_access_refl].
  destruct (list_getitem (bulb_params self) i) as [bulb|e]; simpl;
    [|apply no_device_access_refl].
  destruct (getitem bulb "name") as [bulbname|e]; simpl;
    [|apply no_device_access_refl].
  pose proof (set_color_no_device_access bulbname new_color self) as H.
  destruct (set_color bulbname new_color self) as [s1 [r|e]]; simpl in *;
    [|exact H].
  eapply no_device_access_trans; [exact H | apply IH].
Qed.

Lemma rotation_worker_body_no_device_access (l : locals) (self : t) :
  no_device_access self (rotation_worker_body l self).1.
Proof.
  unfold rotation_worker_body. run_m.
  destruct (is_rotation_active self); [|apply no_device_access_refl].
  destruct (F64.div _ _) as [cycle_percent|e]; simpl;
    [|apply no_device_access_refl].
  match goal with
  | |- context [rotation_pass ?o ?p ?ix self] =>
      pose proof (rotation_pass_no_device_access o p ix self) as H;
      destruct (rotation_pass o p ix self) as [s1 [r|e]]
  end; simpl in *; [|exact H].
  destruct (F64.eqb _ _); simpl; [|exact H].
  destruct (shift_ring _ _); simpl; [|exact H].
  destruct H as (H1 & H2 & H3). by repeat split.
Qed.

End NoDeviceAccess.

Section ManagerEvents.
Import LightManager.

Lemma no_device_access_threads (a b : t) :
  bulb_params b = bulb_params a -> is_running b = is_running a ->
  bulb_threads b = bulb_threads a -> no_device_access a b.
Proof.
  intros H1 H2 H3. destruct (no_device_access_refl a) as (_ & _ & R).
  repeat split; try assumption. by rewrite H3.
Qed.

Lemma get_colors_from_frame (threads : list SmartBulbThread.t) (self : t) :
  let self' := (get_colors_from threads self).1 in
  bulb_params self' = bulb_params self /\
  is_running self' = is_running self /\
  bulb_threads self' = bulb_threads self /\
  bulb_rotation_colors self' = bulb_rotation_colors self.
Proof.
  revert self. induction threads as [|th rest IH]; intros self; simpl;
    [done|].
  run_m. destruct (getitem _ "name") as [n|e]; simpl; [|done].
  destruct (find_bulb_index self n) as [i|e]; simpl; [|done].
  destruct (list_setitem _ i _) as [colors|e]; simpl; [|done].
  destruct (IH (with_bulb_colors self colors)) as (H1 & H2 & H3 & H4).
  done.
Qed.

Lemma get_color_frame (name : string) (self : t) :
  let self' := (get_color name self).1 in
  bulb_params self' = bulb_params self /\
  is_running self' = is_running self /\
  bulb_threads self' = bulb_threads self /\
  bulb_rotation_colors self' = bulb_rotation_colors self.
Proof.
  unfold get_color. run_m.
  destruct (first_thread (bulb_threads self) name) as [[th|]|e]; simpl;
    try done.
  destruct (find_bulb_index self name) as [i|e]; simpl; try done.
  destruct (list_setitem _ i _) as [colors|e]; simpl; try done.
  by destruct (list_getitem colors i).
Qed.

Lemma rotate_collect_frame (params : list param) (self : t) :
  let self' := (rotate_collect params self).1 in
  bulb_params self' = bulb_params self /\
  is_running self' = is_running self /\
  bulb_threads self' = bulb_threads self.
Proof.
  revert self. induction params as [|b rest IH]; intros self; simpl;
    [done|].
  run_m. destruct (getitem b "name") as [n|e]; simpl; [|done].
  pose proof (get_color_frame n self) as (H1 & H2 & H3 & _).
  destruct (get_color n self) as [s1 [c|e]]; simpl in *; [|done].
  destruct (IH (with_bulb_rotation_colors s1
                  (bulb_rotation_colors s1 ++ [c]))) as (I1 & I2 & I3).
  simpl in *. repeat split; congruence.
Qed.

Lemma rotate_frame speed update_pause clockwise (self : t) :
  let self' := (rotate speed update_pause clockwise self).1 in
  bulb_params self' = bulb_params self /\
  is_running self' = is_running self /\
  bulb_threads self' = bulb_threads self.
Proof.
  unfold rotate. run_m.
  pose proof (rotate_collect_frame (bulb_params self)
                (with_bulb_rotation_colors self [])) as (H1 & H2 & H3).
  destruct (rotate_collect _ _) as [s1 [[]|e]]; simpl in *; [|done].
  destruct (float_of_num speed); simpl; [|done].
  destruct (float_of_num update_pause); simpl; done.
Qed.

Lemma manager_step_no_device_access (s : system) (e : manager_event) :
  is_worker_event e = false ->
  no_device_access (manager s) (manager (manager_step s e)).
Proof.
  intros He. destruct e; try discriminate; simpl; unfold call.
  - pose proof (set_color_no_device_access name c (manager s)) as H.
    by destruct (set_color name c (manager s)).
  - pose proof (set_color_hex_no_device_access name s0 (manager s)) as H.
    by destruct (set_color_hex name s0 (manager s)).
  - pose proof (get_color_no_device_access name (manager s)) as [H _].
    by destruct (get_color name (manager s)).
  - pose proof (get_colors_from_frame (bulb_threads (manager s))
                  (manager s)) as (H1 & H2 & H3 & _).
    unfold get_colors. run_m.
    destruct (get_colors_from _ _); simpl in *.
    by apply no_device_access_threads.
  - pose proof (rotate_frame speed update_pause clockwise (manager s))
      as (H1 & H2 & H3).
    destruct (rotate _ _ _ _); simpl in *.
    by apply no_device_access_threads.
  - by apply no_device_access_threads.
  - unfold rotation_step, tick.
    destruct (is_running (manager s)); [|apply no_device_access_refl].
    pose proof (rotation_worker_body_no_device_access (rotation s)
                  (manager s)) as H.
    by destruct (rotation_worker_body _ _) as [s1 [l|x]].
Qed.

Lemma no_device_access_devices (a b : t) :
  no_device_access a b -> devices b = devices a.
Proof.
  intros (_ & _ & H). unfold devices.
  induction H as [|x y l k (_ & Hd & _) _ IH]; simpl; [reflexivity|].
  by rewrite Hd, IH.
Qed.

(** X4. No call of a manager method and no iteration of the rotation
    thread touches a device, a worker's running flag or the list of bulbs:
    towards the workers they only store a colour and notify, and a worker
    that is outside its wait stays there. *)
Theorem manager_never_writes_to_a_device (s : system) (e : manager_event) :
  is_worker_event e = false ->
  no_device_access (manager s) (manager (manager_step s e)) /\
  devices (manager (manager_step s e)) = devices (manager s).
Proof.
  intros He. pose proof (manager_step_no_device_access s e He) as H.
  split; [exact H | by apply no_device_access_devices].
Qed.

Lemma manager_never_writes_to_a_device_witness :
  devices
    (manager
       (manager_step (start [device_named "A"])
          (CallSetColor "A" (1, 2, 3))))
  = [[]].
Proof.
  destruct (manager_never_writes_to_a_device (start [device_named "A"])
              (CallSetColor "A" (1, 2, 3)) eq_refl) as [_ E].
  rewrite E. reflexivity.
Defined.

End ManagerEvents.

Section AfterShutdown.
Import LightManager.

Lemma workers_left_loop_access (a b : t) :
  no_device_access a b -> workers_left_loop a ->
  workers_left_loop b /\ devices b = devices a.
Proof.
  intros (_ & _ & H). unfold workers_left_loop, devices.
  induction H as [|x y l k (_ & Hd & Hr & _ & Hw) _ IH]; intros Hl.
  - split; [constructor | reflexivity].
  - apply Forall_cons in Hl as [[Hx1 Hx2] Hl].
    destruct (IH Hl) as [I1 I2]. split.
    + constructor; [|exact I1]. split; [congruence | by apply Hw].
    + simpl. by rewrite Hd, I2.
Qed.

Lemma workers_left_loop_thread_step step (i : nat) (self : t) :
  (forall th, SmartBulbThread.is_running th = false ->
              SmartBulbThread.waiting th = Busy -> step th = th) ->
  workers_left_loop self ->
  bulb_threads (thread_step step i self) = bulb_threads self.
Proof.
  intros Hstep Hl. unfold thread_step. simpl.
  apply list_eq. intros k. destruct (decide (i = k)) as [->|Hne].
  - rewrite list_lookup_alter_eq.
    destruct (bulb_threads self !! k) as [th|] eqn:E; [|reflexivity].
    simpl. f_equal.
    destruct (proj1 (Forall_lookup _ _) Hl k th E) as [H1 H2].
    by apply Hstep.
  - by rewrite list_lookup_alter_ne.
Qed.

Lemma manager_step_left_loop (s : system) (e : manager_event) :
  workers_left_loop (manager s) ->
  workers_left_loop (manager (manager_step s e)) /\
  devices (manager (manager_step s e)) = devices (manager s).
Proof.
  intros Hl. destruct (is_worker_event e) eqn:He.
  - assert (E : bulb_threads (manager (manager_step s e))
                = bulb_threads (manager s)).
    { destruct e; try discriminate; simpl;
        apply workers_left_loop_thread_step; try exact Hl;
        intros [p c st r ph d]; simpl; by intros -> ->. }
    unfold workers_left_loop, devices. by rewrite E.
  - pose proof (manager_step_no_device_access s e He) as H.
    by apply workers_left_loop_access.
Qed.

(** X5. After [shutdown], once every worker is outside its wait (the joins
    have returned), nothing that is called or happens afterwards reaches a
    device: colours are still accepted and cached, but every device log
    stays as it was. *)
Theorem after_shutdown_no_device_effect (self : t) (l : locals)
    (events : list manager_event) :
  Forall (fun th => SmartBulbThread.waiting th = Busy) (bulb_threads self) ->
  devices (manager (manager_run (mk_system (shutdown self) l) events))
  = devices self.
Proof.
  intros Hb.
  assert (H0 : workers_left_loop (manager (mk_system (shutdown self) l))).
  { unfold workers_left_loop. simpl. apply Forall_forall. intros th Hin.
    apply list_elem_of_In, in_map_iff in Hin as (th0 & <- & Hin).
    split; [reflexivity|]. simpl.
    apply (proj1 (Forall_forall _ _) Hb). by apply list_elem_of_In. }
  assert (D0 : devices (manager (mk_system (shutdown self) l)) = devices self).
  { unfold devices. simpl. rewrite map_map. reflexivity. }
  rewrite <- D0. generalize dependent (mk_system (shutdown self) l).
  clear Hb. intros s H0 _. revert s H0.
  induction events as [|e events IH]; intros s H0; [reflexivity|].
  unfold manager_run in *. simpl.
  destruct (manager_step_left_loop s e H0) as [H1 D1].
  rewrite (IH _ H1). exact D1.
Qed.

Lemma after_shutdown_no_device_effect_witness :
  devices
    (manager
       (manager_run
          (mk_system (shutdown (init [device_named "A"])) locals_init)
          [CallSetColor "A" (1, 2, 3); WorkerEnterWait 0; WorkerWake 0]))
  = [[]].
Proof.
  rewrite (after_shutdown_no_device_effect (init [device_named "A"])
             locals_init
             [CallSetColor "A" (1, 2, 3); WorkerEnterWait 0; WorkerWake 0]).
  - reflexivity.
  - repeat constructor.
Defined.

End AfterShutdown.

(** ** Setting and reading a colour *)

Section SetGet.
Import LightManager.

Lemma set_color_at_first (self : t) (name : string)
    (c : Py.color) (k : nat) :
  wf self -> first_named (bulb_params self) name = Some k ->
  set_color name c self
  = (with_bulb_threads
       (with_bulb_colors self (<[k := c]> (bulb_colors self)))
       (alter (fun th => SmartBulbThread.change_color th c) k
          (bulb_threads self)),
     Return (Some (success_color c name))) /\
  (exists th, bulb_threads self !! k = Some th /\
              SmartBulbThread.bulb_param th !! "name" = Some name) /\
  (k < length (bulb_colors self))%nat.
Proof.
  intros Hwf Hk. pose proof Hwf as (Hlen & Hthreads & Hnames).
  apply first_named_Some in Hk as Hk'. destruct Hk' as (b & Hb & Hn & _).
  assert (Hlt : (k < length (bulb_colors self))%nat).
  { rewrite Hlen. by eapply lookup_lt_Some. }
  split; [|split; [|exact Hlt]].
  - unfold set_color. run_m. rewrite (find_bulb_index_first self name Hwf), Hk.
    replace (Z.of_nat k =? -1) with false by (symmetry; apply Z.eqb_neq; lia).
    rewrite (list_setitem_in_range _ _ _ Hlt). simpl.
    rewrite change_first_first by (by rewrite Hthreads).
    by rewrite Hthreads, Hk.
  - rewrite <- Hthreads in Hb. rewrite list_lookup_fmap in Hb.
    destruct (bulb_threads self !! k) as [th|]; [|discriminate].
    injection Hb as <-. by exists th.
Qed.

(** X6. [set_color] on the name of a managed bulb acts at one position,
    that of the first bulb with the name: the cache entry there becomes the
    colour, the worker there gets the request, and the answer is the
    success; every other cache entry and worker is as before. *)
Theorem set_color_acts_at_first_position (self : t) (name : string)
    (c : Py.color) (k : nat) :
  wf self -> first_named (bulb_params self) name = Some k ->
  set_color name c self
  = (with_bulb_threads
       (with_bulb_colors self (<[k := c]> (bulb_colors self)))
       (alter (fun th => SmartBulbThread.change_color th c) k
          (bulb_threads self)),
     Return (Some (success_color c name))) /\
  (exists th, bulb_threads self !! k = Some th /\
              SmartBulbThread.bulb_param th !! "name" = Some name) /\
  (k < length (bulb_colors self))%nat.
Proof. apply set_color_at_first. Qed.

Lemma set_color_acts_at_first_position_witness :
  bulb_colors
    (set_color "B" (1, 2, 3)
       (init [device_named "A"; device_named "B"; device_named "B"])).1
  = [(0, 0, 0); (1, 2, 3); (0, 0, 0)].
Proof.
  destruct (set_color_acts_at_first_position
              (init [device_named "A"; device_named "B"; device_named "B"])
              "B" (1, 2, 3) 1%nat) as (E & _); [compute_done | reflexivity |].
  rewrite E. reflexivity.
Defined.

Lemma cached_color_first (self : t) (name : string) :
  wf self ->
  cached_color self name
  = first_named (bulb_params self) name ≫= fun k => bulb_colors self !! k.
Proof.
  intros Hwf. unfold cached_color. rewrite find_bulb_index_first by done.
  destruct (first_named _ name) as [k|]; simpl; [|reflexivity].
  replace (Z.of_nat k <? 0) with false by (symmetry; apply Z.ltb_ge; lia).
  by rewrite Nat2Z.id.
Qed.

(** X7. A colour set is the colour read: after [set_color name c] on a
    managed bulb, [get_color name] returns [c] and changes nothing, and
    the cached colour of every other name is what it was. *)
Theorem set_color_then_get_color (self : t) (name : string) (c : Py.color) :
  wf self -> managed self name ->
  let self' := (set_color name c self).1 in
  get_color name self' = (self', Return (Some c)) /\
  forall other, other <> name ->
                cached_color self' other = cached_color self other.
Proof.
  intros Hwf Hm self'.
  apply managed_first_named in Hm as [k Hk].
  destruct (set_color_at_first self name c k Hwf Hk)
    as (E & (th & Hth & Hn) & Hlt).
  pose proof (wf_set_color self name c Hwf) as Hwf'. fold self' in Hwf'.
  assert (Es : self' = with_bulb_threads
            (with_bulb_colors self (<[k := c]> (bulb_colors self)))
            (alter (fun th => SmartBulbThread.change_color th c) k
               (bulb_threads self))) by (unfold self'; by rewrite E).
  assert (Hp : bulb_params self' = bulb_params self) by (by rewrite Es).
  split.
  - unfold get_color. run_m.
    destruct Hwf' as (Hlen' & Hthreads' & Hnames').
    rewrite first_thread_first by (by rewrite Hthreads').
    rewrite Hthreads', Hp, Hk. simpl.
    rewrite (find_bulb_index_first self' name (conj Hlen' (conj Hthreads' Hnames'))).
    rewrite Hp, Hk.
    rewrite Es. simpl. rewrite list_lookup_alter_eq, Hth. simpl.
    rewrite list_setitem_in_range by (by rewrite length_insert).
    rewrite list_insert_insert_eq. simpl.
    rewrite (list_getitem_in_range _ k c) by (by apply list_lookup_insert_eq).
    reflexivity.
  - intros other Hne. rewrite !cached_color_first by done. rewrite Hp.
    destruct (first_named (bulb_params self) other) as [j|] eqn:Hj;
      [|reflexivity].
    simpl. rewrite Es. simpl. apply list_lookup_insert_ne.
    intros ->. apply first_named_Some in Hk as (b & Hb & Hbn & _).
    apply first_named_Some in Hj as (b' & Hb' & Hbn' & _). congruence.
Qed.

Lemma set_color_then_get_color_witness :
  let m := (set_color "B" (1, 2, 3)
              (init [device_named "A"; device_named "B"])).1 in
  get_color "B" m = (m, Return (Some (1, 2, 3))).
Proof.
  intros m.
  assert (H1 : wf (init [device_named "A"; device_named "B"]))
    by compute_done.
  assert (H2 : managed (init [device_named "A"; device_named "B"]) "B")
    by compute_done.
  exact (proj1 (set_color_then_get_color _ "B" (1, 2, 3) H1 H2)).
Defined.

(** X8. Two colours set for a bulb whose worker is in its wait, the worker
    then waking up: the device of that bulb receives the second colour and
    only it, the cache holds the second colour, and the other devices
    receive nothing. *)
Theorem set_color_twice_then_wake (self : t) (name : string)
    (c1 c2 : Py.color) (k : nat) (th : SmartBulbThread.t) :
  wf self -> first_named (bulb_params self) name = Some k ->
  bulb_threads self !! k = Some th -> SmartBulbThread.waiting th <> Busy ->
  let self' := thread_step SmartBulbThread.wake k
                 (set_color name c2 (set_color name c1 self).1).1 in
  devices self' = <[k := SmartBulbThread.device th ++ [c2]]> (devices self) /\
  cached_color self' name = Some c2.
Proof.
  intros Hwf Hk Hth Hw self'.
  destruct (set_color_at_first self name c1 k Hwf Hk)
    as (E1 & _ & Hlt).
  pose proof (wf_set_color self name c1 Hwf) as Hwf1.
  rewrite E1 in Hwf1. simpl in Hwf1.
  unfold self'. rewrite E1. simpl.
  match goal with
  | |- context [set_color name c2 ?s] =>
      destruct (set_color_at_first s name c2 k Hwf1 Hk)
        as (E2 & _ & _); rewrite E2
  end.
  simpl. split.
  - unfold devices, thread_step. simpl.
    apply list_eq. intros j. rewrite list_lookup_fmap.
    destruct (decide (k = j)) as [<-|Hne].
    + rewrite !list_lookup_alter_eq, Hth. simpl.
      rewrite list_lookup_insert_eq
        by (rewrite length_map; by eapply lookup_lt_Some).
      f_equal. by apply bulb_wake_after_requests.
    + rewrite !list_lookup_alter_ne, list_lookup_insert_ne by done.
      by rewrite list_lookup_fmap.
  - rewrite cached_color_first.
    + simpl. rewrite Hk. simpl. rewrite list_insert_insert_eq.
      by apply list_lookup_insert_eq.
    + destruct Hwf as (Hlen & Hthreads & Hnames).
      unfold wf, thread_step. simpl. rewrite !length_insert.
      repeat split; try assumption.
      rewrite <- Hthreads. apply list_eq. intros j.
      rewrite !list_lookup_fmap.
      destruct (decide (k = j)) as [<-|Hne].
      * rewrite !list_lookup_alter_eq.
        destruct (bulb_threads self !! k) as [[p c s r [] d]|]; simpl;
          try reflexivity.
      * by rewrite !list_lookup_alter_ne.
Qed.

Lemma set_color_twice_then_wake_witness :
  let m := thread_step SmartBulbThread.enter_wait 0
             (init [device_named "A"; device_named "B"]) in
  devices
    (thread_step SmartBulbThread.wake 0
       (set_color "A" (4, 5, 6) (set_color "A" (1, 2, 3) m).1).1)
  = [[(4, 5, 6)]; []].
Proof.
  intros m.
  destruct (set_color_twice_then_wake m "A" (1, 2, 3) (4, 5, 6) 0%nat
              (SmartBulbThread.enter_wait
                 (SmartBulbThread.init (device_named "A"))))
    as [E _]; [compute_done | reflexivity | reflexivity
              | simpl; discriminate |].
  rewrite E. reflexivity.
Defined.

End SetGet.

(** ** Snapshots of the cache *)

Section Snapshots.
Import LightManager.

Lemma names_of_name (params : list param) :
  Forall has_name params ->
  exists ns, names_of "name" params = Return ns /\ map Some ns = names params.
Proof.
  unfold names.
  induction 1 as [|b rest [n Hn] _ (ns & E & Hns)]; cbn [names_of map].
  - by exists [].
  - unfold getitem. rewrite Hn. cbn [mbind outcome_bind]. rewrite E.
    exists (n :: ns). split; [reflexivity|]. cbn [map]. by rewrite Hns.
Qed.

(** X9. [get_names] on a manager in its regular state returns the names of
    the bulbs in their order, one per bulb; they are exactly the names
    [set_color] and [get_color] know. *)
Theorem get_names_lists_the_managed (self : t) :
  wf self ->
  exists ns,
    get_names self = Return ns /\
    map Some ns = names (bulb_params self) /\
    length ns = length (bulb_params self) /\
    forall n, n ∈ ns <-> managed self n.
Proof.
  intros (_ & _ & Hn).
  destruct (names_of_name (bulb_params self) Hn) as (ns & E & Hns).
  exists ns. split; [exact E|]. split; [exact Hns|]. split.
  - rewrite <- (length_map Some ns), Hns. unfold names. by rewrite length_map.
  - intros n. unfold managed. fold (names (bulb_params self)).
    rewrite <- Hns. split.
    + intros H. apply list_elem_of_In, in_map_iff. exists n.
      split; [reflexivity | by apply list_elem_of_In].
    + intros H. apply list_elem_of_In, in_map_iff in H as (n' & [= ->] & H).
      by apply list_elem_of_In.
Qed.

Lemma get_names_lists_the_managed_witness :
  get_names (init [device_named "A"; device_named "B"]) = Return ["A"; "B"].
Proof.
  destruct (get_names_lists_the_managed
              (init [device_named "A"; device_named "B"]))
    as (ns & E & _); [compute_done|].
  reflexivity.
Defined.

Lemma first_named_nodup (params : list param) (j : nat) (b : param)
    (n : string) :
  NoDup (names params) -> params !! j = Some b -> b !! "name" = Some n ->
  first_named params n = Some j.
Proof.
  intros Hnd Hj Hn.
  destruct (first_named params n) as [k|] eqn:E.
  - apply first_named_Some in E as (b' & Hk & Hn' & _). f_equal.
    apply (NoDup_lookup _ k j (Some n) Hnd); unfold names;
      rewrite list_lookup_fmap;
      [rewrite Hk | rewrite Hj]; simpl; congruence.
  - apply first_named_None in E. exfalso. apply E.
    apply list_elem_of_lookup. exists j. unfold names.
    rewrite list_lookup_fmap, Hj. simpl. congruence.
Qed.

Lemma get_colors_from_nodup (rest : list SmartBulbThread.t) (self : t)
    (j : nat) :
  wf self -> NoDup (names (bulb_params self)) ->
  drop j (bulb_threads self) = rest ->
  exists colors,
    get_colors_from rest self = (with_bulb_colors self colors, Return tt) /\
    length colors = length (bulb_colors self) /\
    forall i, colors !! i
              = if decide (j <= i)%nat
                then SmartBulbThread.color <$> bulb_threads self !! i
                else bulb_colors self !! i.
Proof.
  revert self j. induction rest as [|th rest IH]; intros self j Hwf Hnd Hd.
  - exists (bulb_colors self). simpl. split; [by destruct self|].
    split; [reflexivity|]. intros i. destruct (decide _); [|reflexivity].
    pose proof Hwf as (Hlen & Hth & _).
    assert (length (bulb_threads self) <= j)%nat.
    { destruct (decide (length (bulb_threads self) <= j)%nat); [done|].
      apply (f_equal length) in Hd. rewrite length_drop in Hd.
      simpl in Hd. lia. }
    rewrite (lookup_ge_None_2 (bulb_threads self)) by lia.
    simpl. apply lookup_ge_None_2.
    rewrite Hlen, <- Hth, length_map. lia.
  - pose proof Hwf as (Hlen & Hth & Hnames).
    assert (Hj : bulb_threads self !! j = Some th).
    { rewrite <- (Nat.add_0_r j), <- lookup_drop, Hd. reflexivity. }
    assert (Hb : bulb_params self !! j
                 = Some (SmartBulbThread.bulb_param th)).
    { rewrite <- Hth, list_lookup_fmap, Hj. reflexivity. }
    destruct (proj1 (Forall_lookup _ _) Hnames j _ Hb) as [n Hn].
    pose proof (first_named_nodup _ j _ n Hnd Hb Hn) as Hfirst.
    assert (Hlt : (j < length (bulb_colors self))%nat).
    { rewrite Hlen. by eapply lookup_lt_Some. }
    set (self1 := with_bulb_colors self
                    (<[j := SmartBulbThread.color th]> (bulb_colors self))).
    assert (Hwf1 : wf self1).
    { unfold wf, self1. simpl. rewrite length_insert. done. }
    destruct (IH self1 (S j) Hwf1 Hnd) as (colors & E & Hl & Hc).
    { simpl. replace (S j) with (j + 1)%nat by lia.
      rewrite <- drop_drop, Hd. reflexivity. }
    exists colors. split; [|split].
    + simpl. run_m. unfold getitem. rewrite Hn. simpl.
      rewrite (find_bulb_index_first self n Hwf), Hfirst.
      rewrite (list_setitem_in_range _ _ _ Hlt). simpl.
      fold self1. rewrite E. reflexivity.
    + rewrite Hl. unfold self1. simpl. by rewrite length_insert.
    + intros i. rewrite Hc. unfold self1. simpl.
      destruct (decide (S j <= i)%nat), (decide (j <= i)%nat);
        try lia; try reflexivity.
      * assert (i = j) by lia. subst i.
        rewrite list_lookup_insert_eq by done. by rewrite Hj.
      * rewrite list_lookup_insert_ne by lia. reflexivity.
Qed.

(** X10. With bulbs of distinct names, [get_colors] (and [wait_ready],
    once its waits are over) makes the cache the list of the workers'
    colours, bulb by bulb, and touches nothing else; [wait_ready] also
    sets [bulbs_ready]. *)
Theorem get_colors_copies_the_workers (self : t) :
  wf self -> NoDup (names (bulb_params self)) ->
  let colors := map SmartBulbThread.color (bulb_threads self) in
  get_colors self = (with_bulb_colors self colors, Return tt) /\
  wait_ready self
  = (with_bulbs_ready (with_bulb_colors self colors) true, Return tt).
Proof.
  intros Hwf Hnd colors.
  destruct (get_colors_from_nodup (bulb_threads self) self 0 Hwf Hnd eq_refl)
    as (colors' & E & Hl & Hc).
  assert (colors' = colors) as ->.
  { apply list_eq. intros i. rewrite Hc. unfold colors.
    rewrite decide_True by lia. by rewrite list_lookup_fmap. }
  unfold get_colors, wait_ready. run_m. by rewrite E.
Qed.

Lemma get_colors_copies_the_workers_witness :
  let m := with_bulb_threads (init [device_named "A"; device_named "B"])
             [SmartBulbThread.set_color
                (SmartBulbThread.init (device_named "A")) (9, 8, 7);
              SmartBulbThread.init (device_named "B")] in
  bulb_colors (get_colors m).1 = [(9, 8, 7); (0, 0, 0)].
Proof.
  intros m.
  destruct (get_colors_copies_the_workers m) as [E _];
    [compute_done | compute_done |].
  rewrite E. reflexivity.
Defined.

End Snapshots.

Section Json.
Import LightManager.

Lemma hex_of_color_total (c : Py.color) : hex_of_color c = Return (hex_text c).
Proof. by destruct c as [[r g] b]. Qed.

Lemma assoc_get_zip {V} (ns : list string) (vs : list V) (n : string)
    (k : nat) :
  NoDup ns -> ns !! k = Some n -> assoc_get (zip ns vs) n = vs !! k.
Proof.
  revert vs k. induction ns as [|x ns IH]; intros vs k Hnd Hk;
    [discriminate|].
  apply NoDup_cons in Hnd as [Hx Hnd].
  destruct k as [|k]; simpl in Hk.
  - injection Hk as ->. destruct vs as [|v vs]; simpl; [reflexivity|].
    by rewrite decide_True.
  - assert (x <> n).
    { intros ->. apply Hx. by eapply list_elem_of_lookup_2. }
    destruct vs as [|v vs]; simpl; [reflexivity|].
    rewrite decide_False by done. by apply IH.
Qed.

Lemma assoc_get_zip_None {V} (ns : list string) (vs : list V) (n : string) :
  n ∉ ns -> assoc_get (zip ns vs) n = None.
Proof.
  revert vs. induction ns as [|x ns IH]; intros [|v vs] Hn; try reflexivity.
  simpl. rewrite decide_False by (intros ->; apply Hn; left).
  apply IH. intros H. apply Hn. by right.
Qed.

(** The two loops over [enumerate(self.bulb_colors)], for any way [f] of
    presenting a colour. *)
Lemma colors_json_from_nodup {V} (f : Py.color -> outcome V) (g : Py.color -> V)
    (loop : Z -> list Py.color -> list (string * V)
            -> outcome (list (string * V)))
    (self : t) (ns : list string) :
  (forall c, f c = Return (g c)) ->
  (forall i cs acc,
     loop i cs acc
     = match cs with
       | [] => Return acc
       | color :: rest =>
           bulb ← list_getitem (bulb_params self) i;
           name ← getitem bulb "name";
           v ← f color;
           loop (i + 1) rest (assoc_set acc name v)
       end) ->
  map Some ns = names (bulb_params self) -> NoDup ns ->
  forall (cs : list Py.color) (j : nat) (acc : list (string * V)),
    acc.*1 = take j ns -> (j + length cs = length ns)%nat ->
    loop (Z.of_nat j) cs acc = Return (acc ++ zip (drop j ns) (map g cs)).
Proof.
  intros Hf Hloop Hns Hnd cs. induction cs as [|c cs IH]; intros j acc Ha Hl.
  - rewrite Hloop. simpl in Hl. rewrite drop_ge by lia. simpl.
    by rewrite app_nil_r.
  - rewrite Hloop. simpl in Hl.
    assert (Hj : exists n, ns !! j = Some n).
    { apply lookup_lt_is_Some. lia. }
    destruct Hj as [n Hj].
    assert (Hb : exists b, bulb_params self !! j = Some b /\
                           b !! "name" = Some n).
    { pose proof (f_equal (fun l => l !! j) Hns) as H. simpl in H.
      unfold names in H. rewrite !list_lookup_fmap, Hj in H. simpl in H.
      destruct (bulb_params self !! j) as [b|]; [|discriminate].
      exists b. split; [reflexivity|]. simpl in H. congruence. }
    destruct Hb as (b & Hb & Hn).
    rewrite (list_getitem_in_range _ j b Hb). simpl.
    unfold getitem. rewrite Hn. simpl. rewrite Hf. simpl.
    assert (Hfresh : n ∉ acc.*1).
    { rewrite Ha. intros Hin. apply list_elem_of_lookup in Hin as [i Hi].
      pose proof (lookup_lt_Some _ _ _ Hi) as Hlt.
      rewrite length_take in Hlt. rewrite lookup_take_lt in Hi by lia.
      pose proof (NoDup_lookup _ i j n Hnd Hi Hj). lia. }
    unfold assoc_set. rewrite decide_False by exact Hfresh.
    replace (Z.of_nat j + 1) with (Z.of_nat (S j)) by lia.
    rewrite IH.
    + rewrite <- app_assoc. do 2 f_equal.
      rewrite (drop_S _ _ _ Hj). reflexivity.
    + rewrite fmap_app, Ha. simpl. by rewrite (take_S_r _ _ _ Hj).
    + lia.
Qed.

Lemma names_nodup (ns : list string) (params : list param) :
  map Some ns = names params -> NoDup (names params) -> NoDup ns.
Proof.
  intros <- H. eapply (NoDup_fmap_1 Some). exact H.
Qed.

(** X11. With bulbs of distinct names, [get_colors_json_rgb] returns one
    entry per bulb, in the order of the bulbs, and looking a name up in it
    gives the cached colour of that name ([None] for an unknown name). *)
Theorem get_colors_json_rgb_is_the_cache (self : t) :
  wf self -> NoDup (names (bulb_params self)) ->
  exists ns,
    get_names self = Return ns /\
    get_colors_json_rgb self = Return (zip ns (bulb_colors self)) /\
    forall n, assoc_get (zip ns (bulb_colors self)) n = cached_color self n.
Proof.
  intros Hwf Hnd. pose proof Hwf as (Hlen & _ & Hnames).
  destruct (names_of_name _ Hnames) as (ns & E & Hns).
  pose proof (names_nodup ns _ Hns Hnd) as Hnd'.
  assert (Hl : length ns = length (bulb_params self)).
  { rewrite <- (length_map Some ns), Hns. unfold names. by rewrite length_map. }
  exists ns. split; [exact E|]. split.
  - unfold get_colors_json_rgb.
    rewrite (colors_json_from_nodup Return (fun c => c)
               (colors_json_rgb_from self) self ns) with (j := 0%nat);
      try done.
    + by rewrite map_id.
    + intros i [|c cs] acc; simpl; [reflexivity|].
      destruct (list_getitem _ i); simpl; [|reflexivity].
      by destruct (getitem _ "name").
    + simpl. lia.
  - intros n. rewrite cached_color_first by done.
    destruct (first_named (bulb_params self) n) as [k|] eqn:Hk; simpl.
    + apply assoc_get_zip; [exact Hnd'|].
      apply first_named_Some in Hk as (b & Hb & Hn & _).
      pose proof (f_equal (fun l => l !! k) Hns) as H. simpl in H.
      unfold names in H. rewrite !list_lookup_fmap, Hb in H. simpl in H.
      destruct (ns !! k); simpl in H; congruence.
    + apply assoc_get_zip_None. intros Hin.
      apply first_named_None in Hk. apply Hk. rewrite <- Hns.
      apply list_elem_of_In, in_map_iff. exists n.
      split; [reflexivity | by apply list_elem_of_In].
Qed.

Lemma get_colors_json_rgb_is_the_cache_witness :
  get_colors_json_rgb
    (set_color "B" (1, 2, 3) (init [device_named "A"; device_named "B"])).1
  = Return [("A", (0, 0, 0)); ("B", (1, 2, 3))].
Proof.
  destruct (get_colors_json_rgb_is_the_cache
              (set_color "B" (1, 2, 3)
                 (init [device_named "A"; device_named "B"])).1)
    as (ns & _ & E & _); [compute_done | compute_done |].
  reflexivity.
Defined.

End Json.

Section HexText.
Import LightManager.

Lemma is_hex_chars (c : ascii) : is_hex c = true -> In c hex_chars.
Proof.
  destruct c as [[] [] [] [] [] [] [] []]; vm_compute; intros H;
    try discriminate; tauto.
Qed.

Lemma hex_pair_all :
  forallb (fun a => forallb (hex_pair_ok a) hex_chars) hex_chars = true.
Proof. vm_compute. reflexivity. Qed.

Lemma hex_pair (a b : ascii) :
  is_hex a = true -> is_hex b = true ->
  exists z, Hex.int16 (String a (String b EmptyString)) = Return z /\
    0 <= z <= 255 /\
    Hex.format_02X z
    = String (ascii_upper_char a) (String (ascii_upper_char b) EmptyString).
Proof.
  intros Ha Hb. pose proof hex_pair_all as H.
  rewrite forallb_forall in H. specialize (H a (is_hex_chars a Ha)).
  rewrite forallb_forall in H. specialize (H b (is_hex_chars b Hb)).
  unfold hex_pair_ok in H.
  destruct (Hex.int16 _) as [z|]; [|discriminate].
  apply andb_prop in H as [H1 H2]. apply andb_prop in H1 as [H0 H1].
  exists z. split; [reflexivity|]. split; [lia|]. by apply String.eqb_eq.
Qed.

Lemma convert_from_hex_upper (s : string) :
  spec_hex_pattern s = true ->
  exists c, convert_from_hex s = Return c /\ valid_rgb c /\
            hex_of_color c = Return (ascii_upper s).
Proof.
  intros H. apply spec_hex_pattern_inv in H
    as (c1 & c2 & c3 & c4 & c5 & c6 & -> & H).
  repeat (apply andb_prop in H as [H ?]).
  destruct (hex_pair c1 c2) as (r & Er & Hr & Fr); try done.
  destruct (hex_pair c3 c4) as (g & Eg & Hg & Fg); try done.
  destruct (hex_pair c5 c6) as (b & Eb & Hb & Fb); try done.
  exists (r, g, b). split; [|split; [done|]].
  - unfold convert_from_hex. simpl. unfold slice. simpl.
    by rewrite Er, Eg, Eb.
  - rewrite hex_of_color_total. unfold hex_text. by rewrite Fr, Fg, Fb.
Qed.

(** X12. A text of the format [#RRGGBB], digits in either case, is decoded
    by [convert_from_hex] without an exception to a colour with channels
    in 0..255, and that colour prints as the same text in upper case. *)
Theorem convert_from_hex_then_hex (s : string) :
  spec_hex_pattern s = true ->
  exists c, convert_from_hex s = Return c /\ valid_rgb c /\
            hex_of_color c = Return (ascii_upper s).
Proof. apply convert_from_hex_upper. Qed.

Lemma convert_from_hex_then_hex_witness :
  exists c, convert_from_hex "#c0fFee" = Return c /\
            hex_of_color c = Return "#C0FFEE".
Proof.
  destruct (convert_from_hex_then_hex "#c0fFee" eq_refl) as (c & A & _ & B).
  exists c. split; [exact A | exact B].
Defined.

Lemma hex_text_round_trip (c : Py.color) :
  valid_rgb c ->
  convert_from_hex (hex_text c) = Return c /\
  is_valid_hex_color (hex_text c) = true.
Proof.
  destruct c as [[r g] b]. intros (Hr & Hg & Hb).
  destruct (channel_text r Hr) as (r1 & r2 & Er & Ur1 & Ur2 & Ir).
  destruct (channel_text g Hg) as (g1 & g2 & Eg & Ug1 & Ug2 & Ig).
  destruct (channel_text b Hb) as (b1 & b2 & Eb & Ub1 & Ub2 & Ib).
  unfold hex_text. rewrite Er, Eg, Eb. split.
  - unfold convert_from_hex. simpl. unfold slice. simpl.
    by rewrite Ir, Ig, Ib.
  - apply is_valid_hex_color_iff. left.
    cbv [String.append]. cbn -[is_hex].
    assert (W : forall x, is_upper_hex x = true -> is_hex x = true).
    { intros x. unfold is_upper_hex, is_hex.
      destruct (Hex.in_range "0" "9" x), (Hex.in_range "a" "f" x),
        (Hex.in_range "A" "F" x); simpl; auto. }
    by rewrite (W _ Ur1), (W _ Ur2), (W _ Ug1), (W _ Ug2), (W _ Ub1),
      (W _ Ub2).
Qed.

(** X13. With bulbs of distinct names and cached colours in 0..255,
    [get_colors_json_hex] returns one entry per bulb, in the order of the
    bulbs; each entry is a valid hex colour and decodes to the cached
    colour of its bulb. *)
Theorem get_colors_json_hex_decodes_to_the_cache (self : t) :
  wf self -> NoDup (names (bulb_params self)) ->
  Forall valid_rgb (bulb_colors self) ->
  exists ns,
    get_names self = Return ns /\
    get_colors_json_hex self
    = Return (zip ns (map hex_text (bulb_colors self))) /\
    forall n c, cached_color self n = Some c ->
      exists h, assoc_get (zip ns (map hex_text (bulb_colors self))) n
                = Some h /\
                is_valid_hex_color h = true /\
                convert_from_hex h = Return c.
Proof.
  intros Hwf Hnd Hvalid. pose proof Hwf as (Hlen & _ & Hnames).
  destruct (names_of_name _ Hnames) as (ns & E & Hns).
  pose proof (names_nodup ns _ Hns Hnd) as Hnd'.
  assert (Hl : length ns = length (bulb_params self)).
  { rewrite <- (length_map Some ns), Hns. unfold names. by rewrite length_map. }
  exists ns. split; [exact E|]. split.
  - unfold get_colors_json_hex.
    rewrite (colors_json_from_nodup hex_of_color hex_text
               (colors_json_hex_from self) self ns) with (j := 0%nat);
      try done.
    + apply hex_of_color_total.
    + intros i [|c cs] acc; simpl; [reflexivity|].
      destruct (list_getitem _ i); simpl; [|reflexivity].
      destruct (getitem _ "name"); simpl; [|reflexivity].
      by destruct (hex_of_color c).
    + simpl. lia.
  - intros n c Hc. rewrite cached_color_first in Hc by done.
    destruct (first_named (bulb_params self) n) as [k|] eqn:Hk;
      [|discriminate].
    simpl in Hc. exists (hex_text c).
    assert (Hnk : ns !! k = Some n).
    { apply first_named_Some in Hk as (b & Hb & Hn & _).
      pose proof (f_equal (fun l => l !! k) Hns) as H. simpl in H.
      unfold names in H. rewrite !list_lookup_fmap, Hb in H. simpl in H.
      destruct (ns !! k); simpl in H; congruence. }
    split.
    + rewrite (assoc_get_zip ns _ n k Hnd' Hnk).
      by rewrite list_lookup_fmap, Hc.
    + destruct (hex_text_round_trip c
                  (proj1 (Forall_lookup _ _) Hvalid k c Hc)) as [R V].
      split; [exact V | exact R].
Qed.

Lemma get_colors_json_hex_decodes_to_the_cache_witness :
  get_colors_json_hex
    (set_color "B" (1, 2, 255) (init [device_named "A"; device_named "B"])).1
  = Return [("A", "#000000"); ("B", "#0102FF")].
Proof.
  destruct (get_colors_json_hex_decodes_to_the_cache
              (set_color "B" (1, 2, 255)
                 (init [device_named "A"; device_named "B"])).1)
    as (ns & _ & E & _); [compute_done | compute_done | |].
  - repeat constructor; simpl; lia.
  - reflexivity.
Defined.

(** X14. On a manager in its regular state and the name of a managed
    bulb, [set_color_hex] never raises: text outside the check's reach is
    answered with the format error and changes nothing; a text of the
    format [#RRGGBB] is answered with the success of [set_color] for the
    decoded colour, which is then the cached colour of the bulb. *)
Theorem set_color_hex_on_managed_name (self : t) (name s : string) :
  wf self -> managed self name ->
  (is_valid_hex_color s = false ->
   set_color_hex name s self = (self, Return (Some (error_bad_hex name)))) /\
  (spec_hex_pattern s = true ->
   exists c self',
     convert_from_hex s = Return c /\ valid_rgb c /\
     set_color_hex name s self
     = (self', Return (Some (success_color c name))) /\
     cached_color self' name = Some c) /\
  (exists answer, (set_color_hex name s self).2 = Return (Some answer)).
Proof.
  intros Hwf Hm. apply managed_first_named in Hm as Hk. destruct Hk as [k Hk].
  assert (Hok : forall c, exists self',
            set_color name c self = (self', Return (Some (success_color c name)))
            /\ cached_color self' name = Some c).
  { intros c.
    destruct (set_color_at_first self name c k Hwf Hk)
      as (E & _ & Hlt).
    eexists. split; [exact E|].
    unfold cached_color. rewrite (find_bulb_index_params _ self) by reflexivity.
    rewrite (find_bulb_index_first self name Hwf), Hk.
    replace (Z.of_nat k <? 0) with false by (symmetry; apply Z.ltb_ge; lia).
    rewrite Nat2Z.id. simpl. by apply list_lookup_insert_eq. }
  assert (Hgood : forall t, spec_hex_pattern t = true ->
            is_valid_hex_color t = true) by
    (intros t Ht; apply is_valid_hex_color_iff; by left).
  split; [by apply set_color_hex_rejected|]. split.
  - intros Hs. destruct (convert_from_hex_upper s Hs) as (c & Ec & Hc & _).
    destruct (Hok c) as (self' & E & Hcache).
    exists c, self'. repeat split; try assumption.
    unfold set_color_hex. rewrite (Hgood s Hs). simpl. run_m.
    rewrite Ec. exact E.
  - destruct (is_valid_hex_color s) eqn:Ev.
    + assert (exists c, convert_from_hex s = Return c) as [c Ec].
      { apply is_valid_hex_color_iff in Ev as [Hs|(t & Ht & ->)].
        - destruct (convert_from_hex_upper s Hs) as (c & Ec & _). eauto.
        - destruct (convert_from_hex_upper t Ht) as (c & Ec & _).
          exists c. rewrite <- Ec.
          apply spec_hex_pattern_inv in Ht
            as (c1 & c2 & c3 & c4 & c5 & c6 & -> & _).
          reflexivity. }
      destruct (Hok c) as (self' & E & _).
      exists (success_color c name).
      unfold set_color_hex. rewrite Ev. simpl. run_m. rewrite Ec.
      by rewrite E.
    + exists (error_bad_hex name). by rewrite set_color_hex_rejected.
Qed.

Lemma set_color_hex_on_managed_name_witness :
  exists self',
    set_color_hex "A" "#c0fFee" (init [device_named "A"])
    = (self', Return (Some (success_color (192, 255, 238) "A"))) /\
    cached_color self' "A" = Some (192, 255, 238).
Proof.
  destruct (set_color_hex_on_managed_name (init [device_named "A"]) "A"
              "#c0fFee") as (_ & H & _); [compute_done | compute_done |].
  destruct (H eq_refl) as (c & self' & Ec & _ & E & Hc).
  injection Ec as <-. exists self'. split; [exact E | exact Hc].
Defined.

End HexText.

(** ** The rotation thread *)

Section RotationThread.
Import LightManager.

(** X15. [rotate] with a speed of zero (the integer or a float zero)
    returns normally and switches the rotation on; the next iteration of
    the rotation thread then raises [ZeroDivisionError] before it has
    requested anything, which ends the thread. *)
Theorem rotate_with_zero_speed (s : system) (speed update_pause : num)
    (clockwise : bool) (fs fp : F64.float) :
  wf (manager s) ->
  float_of_num speed = Return fs -> F64.is_zero fs = true ->
  float_of_num update_pause = Return fp ->
  let s1 := (call (rotate speed update_pause clockwise) s).1 in
  (call (rotate speed update_pause clockwise) s).2 = Return tt /\
  is_rotation_active (manager s1) = true /\
  tick s1 = (s1, Raise ZeroDivisionError).
Proof.
  intros Hwf Hfs Hz Hfp s1.
  destruct (rotate_spec (manager s) speed update_pause clockwise fs fp
              Hwf Hfs Hfp)
    as (self' & Hrun & _ & _ & Hact & Hspeed & _).
  unfold s1, call. rewrite Hrun. cbn [fst snd manager].
  split; [reflexivity|]. split; [exact Hact|].
  unfold tick, rotation_worker_body. cbn [manager rotation]. run_m.
  rewrite Hact, Hspeed. unfold F64.div. rewrite Hz. reflexivity.
Qed.

Lemma rotate_with_zero_speed_witness :
  let s1 := (call (rotate (NInt 0) (NFloat half) true)
               (start [device_named "A"])).1 in
  tick s1 = (s1, Raise ZeroDivisionError).
Proof.
  intros s1.
  destruct (rotate_with_zero_speed (start [device_named "A"]) (NInt 0)
              (NFloat half) true F64.zero half) as (_ & _ & E);
    [compute_done | reflexivity | reflexivity | reflexivity |].
  exact E.
Defined.

(** X16. The ring moved one place in one direction and then one place in
    the other is the ring again, and a move keeps its length; on an empty
    ring a move raises [IndexError]. *)
Theorem shift_ring_there_and_back (clockwise : bool)
    (ring : list (option Py.color)) :
  shift_ring clockwise [] = Raise IndexError /\
  (ring <> [] ->
   exists moved,
     shift_ring clockwise ring = Return moved /\
     length moved = length ring /\
     shift_ring (negb clockwise) moved = Return ring).
Proof.
  split; [by destruct clockwise|]. intros Hne.
  destruct clockwise; simpl.
  - destruct ring as [|x ring]; [done|]. unfold shift_ring. simpl.
    exists (ring ++ [x]). split; [reflexivity|]. split.
    { rewrite length_app. simpl. lia. }
    unfold list_getitem. cbv zeta.
    replace (-1 <? 0) with true by reflexivity. cbv iota.
    rewrite length_app. simpl length.
    replace (Z.of_nat (length ring + 1) + -1 <? 0) with false
      by (symmetry; apply Z.ltb_ge; lia).
    replace (Z.to_nat (Z.of_nat (length ring + 1) + -1)) with (length ring)
      by lia.
    rewrite lookup_app_r, Nat.sub_diag by lia. simpl.
    replace (length ring + 1 - 1)%nat with (length ring) by lia.
    by rewrite take_app_length.
  - destruct (exists_last Hne) as (init & x & ->). unfold shift_ring.
    unfold list_getitem at 1. cbv zeta.
    replace (-1 <? 0) with true by reflexivity. cbv iota.
    rewrite length_app. simpl length.
    replace (Z.of_nat (length init + 1) + -1 <? 0) with false
      by (symmetry; apply Z.ltb_ge; lia).
    replace (Z.to_nat (Z.of_nat (length init + 1) + -1)) with (length init)
      by lia.
    rewrite lookup_app_r, Nat.sub_diag by lia. simpl.
    replace (length init + 1 - 1)%nat with (length init) by lia.
    rewrite take_app_length.
    exists (x :: init). split; [reflexivity|]. split; [simpl; lia|].
    reflexivity.
Qed.

Lemma shift_ring_there_and_back_witness :
  exists moved,
    shift_ring true [Some (1, 0, 0); Some (0, 1, 0); Some (0, 0, 1)]
    = Return moved /\
    shift_ring false moved
    = Return [Some (1, 0, 0); Some (0, 1, 0); Some (0, 0, 1)].
Proof.
  destruct (shift_ring_there_and_back true
              [Some (1, 0, 0); Some (0, 1, 0); Some (0, 0, 1)])
    as [_ H].
  destruct (H ltac:(discriminate)) as (moved & A & _ & B).
  exists moved. split; [exact A | exact B].
Defined.

Lemma tick_inactive (s : system) :
  is_rotation_active (manager s) = false -> tick s = (s, Return tt).
Proof.
  intros H. unfold tick, rotation_worker_body. run_m. rewrite H.
  by destruct s.
Qed.

(** X17. After [stop] the rotation thread idles: however many times it
    goes round its loop, it requests nothing and changes nothing, the ring
    and its own pass included. *)
Theorem stop_idles_the_rotation (s : system) (n : nat) :
  let stopped := mk_system (stop (manager s)) (rotation s) in
  manager_run stopped (replicate n RotationStep) = stopped.
Proof.
  intros stopped. induction n as [|n IH]; [reflexivity|].
  unfold manager_run in *. simpl. unfold rotation_step.
  destruct (is_running (manager stopped)); [|exact IH].
  rewrite tick_inactive by reflexivity. exact IH.
Qed.

End RotationThread.

(** ** The outlet manager and its workers *)

Section Outlets.
Import OutletManager.
Variable lower : string -> string.

Lemma outlet_change_first_read threads name name' st threads' :
  lower name' = lower name ->
  change_first lower threads name st = Return (Some threads') ->
  exists th, first_thread lower threads' name' = Return (Some th) /\
             OutletDeviceThread.state th = st.
Proof.
  intros Hl. revert threads'. induction threads as [|t0 threads IH]; simpl;
    intros threads' H; [discriminate|].
  destruct (getitem _ "name") as [n|e] eqn:En; simpl in H; [|discriminate].
  destruct (decide (lower n = lower name)) as [E|Hne].
  - injection H as <-. simpl. rewrite En. simpl.
    rewrite decide_True by congruence. by eexists.
  - destruct (change_first lower threads name st) as [[r|]|e]; simpl in H;
      try discriminate.
    injection H as <-. simpl. rewrite En. simpl.
    rewrite decide_False by congruence. by apply IH.
Qed.

(** X18. A state set is the state read: after [set_state] on the name of a
    managed outlet, [get_state] under that name, in any letter case,
    answers with the success carrying that state, and changes nothing; no
    device has been written to by either call. *)
Theorem set_state_then_get_state (self : t) (name name' : string)
    (st : bool) :
  wf self -> managed lower self name -> lower name' = lower name ->
  let self' := (set_state lower name st self).1 in
  get_state lower name' self'
  = (self', Return (Some (success_state st name'))) /\
  outlet_devices self' = outlet_devices self.
Proof.
  intros Hwf Hm Hl self'.
  destruct (set_state_managed lower self name st Hwf Hm)
    as (threads' & E & Hp & Hd).
  assert (Es : self' = with_outlet_threads self threads')
    by (unfold self'; by rewrite E).
  pose proof Hwf as (Hthreads & Hnames).
  assert (Hch : change_first lower (outlet_threads self) name st
                = Return (Some threads')).
  { destruct (outlet_change_first_managed lower (outlet_threads self) name st)
      as (t2 & Hch & _); [by rewrite Hthreads | by rewrite Hthreads |].
    unfold set_state in E. revert E. run_m.
    destruct (find_outlet_index lower self name) as [i|]; simpl;
      [|discriminate].
    destruct (i =? -1); [discriminate|]. rewrite Hch. simpl.
    intros [= <-]. reflexivity. }
  destruct (outlet_change_first_read _ name name' st threads' Hl Hch)
    as (th & Hth & Hst).
  assert (Hwf' : wf self') by (rewrite Es; split; assumption).
  assert (Hm' : managed lower self' name').
  { rewrite Es. unfold managed in *. simpl. by rewrite Hl. }
  destruct (get_state_managed lower self' name' Hwf' Hm') as (th' & Hth' & Eg).
  rewrite Es in Hth'. simpl in Hth'. rewrite Hth in Hth'.
  injection Hth' as <-. rewrite Eg, Hst. split; [reflexivity|].
  rewrite Es. exact Hd.
Qed.

Lemma outlet_change_first_shape threads name st threads' :
  change_first lower threads name st = Return (Some threads') ->
  map OutletDeviceThread.device threads'
    = map OutletDeviceThread.device threads /\
  Forall2 (fun a b => OutletDeviceThread.is_running b
                      = OutletDeviceThread.is_running a /\
                      (OutletDeviceThread.waiting a = Busy ->
                       OutletDeviceThread.waiting b = Busy))
    threads threads'.
Proof.
  revert threads'. induction threads as [|t0 threads IH]; simpl;
    intros threads' H; [discriminate|].
  destruct (getitem _ "name") as [n|e]; simpl in H; [|discriminate].
  destruct (decide (lower n = lower name)).
  - injection H as <-. simpl. split; [reflexivity|].
    constructor; [split; [reflexivity | simpl; by intros ->]|].
    apply Forall2_same_length_lookup. split; [reflexivity|].
    intros i x y Hx Hy. rewrite Hx in Hy. by injection Hy as <-.
  - destruct (change_first lower threads name st) as [[r|]|e]; simpl in H;
      try discriminate.
    injection H as <-. destruct (IH r eq_refl) as [I1 I2]. simpl.
    split; [by rewrite I1|]. by constructor.
Qed.

Lemma outlet_step_left_loop (self : t) (e : outlet_event) :
  outlets_left_loop self ->
  outlets_left_loop (outlet_manager_step lower self e) /\
  outlet_devices (outlet_manager_step lower self e) = outlet_devices self.
Proof.
  intros Hl. destruct e as [name st|name|i|i]; simpl.
  - unfold set_state. run_m.
    destruct (find_outlet_index lower self name) as [i|]; simpl; [|done].
    destruct (i =? -1); [done|].
    destruct (change_first lower (outlet_threads self) name st)
      as [[threads'|]|] eqn:E; simpl; try done.
    destruct (outlet_change_first_shape _ _ _ _ E) as [Hd H2].
    split; [|exact Hd]. unfold outlets_left_loop in *. simpl.
    clear E Hd. induction H2 as [|a b l k [Hr Hw] _ IH]; [constructor|].
    apply Forall_cons in Hl as [[H1 H3] Hl].
    constructor; [split; [congruence | by apply Hw] | by apply IH].
  - unfold get_state. run_m.
    destruct (first_thread lower (outlet_threads self) name) as [[th|]|];
      simpl; try done.
    destruct (find_outlet_index lower self name) as [i|]; simpl; [|done].
    by destruct (i =? -1).
  - assert (E : alter OutletDeviceThread.enter_wait i (outlet_threads self)
                = outlet_threads self).
    { apply list_eq. intros k. destruct (decide (i = k)) as [->|Hne];
        [|by rewrite list_lookup_alter_ne].
      rewrite list_lookup_alter_eq.
      destruct (outlet_threads self !! k) as [th|] eqn:Ek; [|reflexivity].
      destruct (proj1 (Forall_lookup _ _) Hl k th Ek) as [H1 H2].
      destruct th as [p s r ph d]; simpl in *. by subst. }
    unfold outlets_left_loop, outlet_devices, outlet_thread_step. simpl.
    by rewrite E.
  - assert (E : alter OutletDeviceThread.wake i (outlet_threads self)
                = outlet_threads self).
    { apply list_eq. intros k. destruct (decide (i = k)) as [->|Hne];
        [|by rewrite list_lookup_alter_ne].
      rewrite list_lookup_alter_eq.
      destruct (outlet_threads self !! k) as [th|] eqn:Ek; [|reflexivity].
      destruct (proj1 (Forall_lookup _ _) Hl k th Ek) as [H1 H2].
      destruct th as [p s r ph d]; simpl in *. by subst. }
    unfold outlets_left_loop, outlet_devices, outlet_thread_step. simpl.
    by rewrite E.
Qed.

(** X19. After the outlet manager's [shutdown], once every worker is
    outside its wait, no call of [set_state] or [get_state] and no step of
    a worker switches an outlet: every device log stays as it was. *)
Theorem outlets_after_shutdown (self : t) (events : list outlet_event) :
  Forall (fun th => OutletDeviceThread.waiting th = Busy)
         (outlet_threads self) ->
  outlet_devices (outlet_manager_run lower (shutdown self) events)
  = outlet_devices self.
Proof.
  intros Hb.
  assert (H0 : outlets_left_loop (shutdown self)).
  { unfold outlets_left_loop. simpl. apply Forall_forall. intros th Hin.
    apply list_elem_of_In, in_map_iff in Hin as (th0 & <- & Hin).
    split; [reflexivity|]. simpl.
    apply (proj1 (Forall_forall _ _) Hb). by apply list_elem_of_In. }
  assert (D0 : outlet_devices (shutdown self) = outlet_devices self).
  { unfold outlet_devices. simpl. rewrite map_map. reflexivity. }
  rewrite <- D0. generalize dependent (shutdown self).
  clear Hb. intros s H0 _. revert s H0.
  induction events as [|e events IH]; intros s H0; [reflexivity|].
  unfold outlet_manager_run in *. simpl.
  destruct (outlet_step_left_loop s e H0) as [H1 D1].
  rewrite (IH _ H1). exact D1.
Qed.

End Outlets.

Lemma set_state_then_get_state_witness :
  let om := OutletManager.init [device_named "TV"] in
  OutletManager.get_state ascii_lower "tv"
    (OutletManager.set_state ascii_lower "Tv" true om).1
  = ((OutletManager.set_state ascii_lower "Tv" true om).1,
     Return (Some (OutletManager.success_state true "tv"))).
Proof.
  intros om.
  destruct (set_state_then_get_state ascii_lower om "Tv" "tv" true)
    as [E _]; [compute_done | compute_done | reflexivity |].
  exact E.
Defined.

Lemma outlets_after_shutdown_witness :
  outlet_devices
    (outlet_manager_run ascii_lower
       (OutletManager.shutdown (OutletManager.init [device_named "TV"]))
       [CallSetState "tv" true; OutletEnterWait 0; OutletWake 0])
  = [[]].
Proof.
  rewrite (outlets_after_shutdown ascii_lower
             (OutletManager.init [device_named "TV"])
             [CallSetState "tv" true; OutletEnterWait 0; OutletWake 0]).
  - reflexivity.
  - repeat constructor.
Defined.

(** ** Decoding the bulb's colour *)

Section HsvDecoding.

Lemma int16_raises_ValueError (s : string) (e : exn) :
  Hex.int16 s = Raise e -> e = ValueError.
Proof.
  unfold Hex.int16.
  destruct (Hex.lstrip s) as [|c r]; simpl.
  - intros [= <-]. reflexivity.
  - repeat match goal with
           | |- context [match ?x with _ => _ end] => destruct x
           | |- context [if ?x then _ else _] => destruct x
           end; congruence.
Qed.

Lemma slice_short (s : string) :
  (String.length s < 9)%nat -> slice s 8 12 = "".
Proof.
  destruct s as [|c0 [|c1 [|c2 [|c3 [|c4 [|c5 [|c6 [|c7 [|c8 s]]]]]]]]];
    simpl; intros H; try reflexivity; lia.
Qed.

(** X20. A text of fewer than nine characters, for which the brightness
    field is empty, makes [hsv_string_to_rgb] raise [ValueError]. *)
Theorem hsv_string_too_short (hsv : string) :
  (String.length hsv < 9)%nat -> hsv_string_to_rgb hsv = Raise ValueError.
Proof.
  intros H. unfold hsv_string_to_rgb. rewrite (slice_short hsv H).
  destruct (Hex.int16 (slice hsv 0 4)) as [h|e] eqn:E1; simpl.
  - destruct (Hex.int16 (slice hsv 4 8)) as [s|e] eqn:E2; simpl.
    + reflexivity.
    + by rewrite (int16_raises_ValueError _ _ E2).
  - by rewrite (int16_raises_ValueError _ _ E1).
Qed.

Lemma hsv_string_too_short_witness :
  hsv_string_to_rgb "00b403e8" = Raise ValueError.
Proof. apply hsv_string_too_short. simpl. lia. Defined.













End HsvDecoding.

Section FirstIteration.
Import LightManager.

Lemma sub_self (m : positive) (e : Z) :
  F64.sub (S754_finite false m e) (S754_finite false m e) = F64.zero.
Proof.
  unfold F64.sub, SFsub. cbv zeta. rewrite Z.min_id.
  unfold shl_align.
  assert (H : IntDef.Z.sub e e = 0) by apply Z.sub_diag.
  rewrite H. cbn [fst cond_Zopp].
  assert (H' : IntDef.Z.sub (Z.pos m) (Z.pos m) = 0) by apply Z.sub_diag.
  by rewrite H'.
Qed.

Lemma interpolate_at_zero (c1 c2 : Py.color) :
  valid_rgb c1 -> valid_rgb c2 ->
  interpolate_color c1 c2 (NFloat F64.zero) = Return c1.
Proof.
  destruct c1 as [[r1 g1] b1], c2 as [[r2 g2] b2].
  intros (Hr1 & Hg1 & Hb1) (Hr2 & Hg2 & Hb2).
  unfold interpolate_color.
  rewrite (proj1 (channel_lerp r1 r2 Hr1 Hr2)),
    (proj1 (channel_lerp g1 g2 Hg1 Hg2)),
    (proj1 (channel_lerp b1 b2 Hb1 Hb2)).
  reflexivity.
Qed.

Lemma list_getitem_Z {A} (l : list A) (i : Z) (x : A) :
  0 <= i -> l !! Z.to_nat i = Some x -> list_getitem l i = Return x.
Proof.
  intros Hi Hx. rewrite <- (Z2Nat.id i Hi). by apply list_getitem_in_range.
Qed.

(** The loop of an iteration at progress 0, from bulb [j] on. *)
Lemma rotation_pass_at_zero (cs : list Py.color) (k : nat) :
  forall (j : nat) (self : t),
    wf self -> NoDup (names (bulb_params self)) ->
    length cs = length (bulb_params self) -> Forall valid_rgb cs ->
    (j + k = length cs)%nat ->
    exists colors threads,
      rotation_pass (map Some cs) F64.zero
        (seqZ (Z.of_nat j) (Z.of_nat k)) self
      = (with_bulb_threads (with_bulb_colors self colors) threads,
         Return tt) /\
      length colors = length (bulb_colors self) /\
      length threads = length (bulb_threads self) /\
      (forall i, colors !! i
                 = if decide (j <= i)%nat then cs !! i
                   else bulb_colors self !! i) /\
      (forall i, threads !! i
                 = if decide (j <= i)%nat
                   then (cs !! i ≫= fun c =>
                           (fun th => SmartBulbThread.change_color th c)
                             <$> bulb_threads self !! i)
                   else bulb_threads self !! i).
Proof.
  induction k as [|k IH]; intros j self Hwf Hnd Hlen Hvalid Hjk.
  - exists (bulb_colors self), (bulb_threads self). simpl.
    split; [by destruct self|]. split; [reflexivity|].
    split; [reflexivity|].
    pose proof Hwf as (Hl & Hth & _).
    assert (Hlt : length (bulb_threads self) = length (bulb_params self))
      by (by rewrite <- Hth, length_map).
    split; intros i; destruct (decide _); try reflexivity.
    + rewrite !lookup_ge_None_2 by lia. reflexivity.
    + rewrite (lookup_ge_None_2 cs) by lia. simpl.
      by rewrite lookup_ge_None_2 by lia.
  - pose proof Hwf as (Hl & Hth & Hnames).
    assert (Hlt : length (bulb_threads self) = length (bulb_params self))
      by (by rewrite <- Hth, length_map).
    rewrite seqZ_cons by lia. cbn [rotation_pass]. run_m.
    set (n := Z.of_nat (length (bulb_params self))).
    assert (Hn : 0 < n) by (unfold n; lia).
    destruct (lookup_lt_is_Some_2 cs j ltac:(lia)) as [c Hc].
    rewrite (list_getitem_in_range (map Some cs) j (Some c))
      by (by rewrite list_lookup_fmap, Hc).
    cbn [mbind outcome_bind].
    set (next := if rotation_clockwise self then (Z.of_nat j + 1) mod n
                 else (Z.of_nat j - 1) mod n).
    assert (Hnext : 0 <= next < n).
    { unfold next. destruct (rotation_clockwise self);
        apply Z.mod_pos_bound; lia. }
    destruct (lookup_lt_is_Some_2 cs (Z.to_nat next) ltac:(lia)) as [c' Hc'].
    rewrite (list_getitem_Z (map Some cs) next (Some c'))
      by (try lia; by rewrite list_lookup_fmap, Hc').
    cbn [mbind outcome_bind].
    rewrite interpolate_at_zero
      by (eapply (proj1 (Forall_lookup _ _) Hvalid); eassumption).
    cbn [mbind outcome_bind].
    destruct (lookup_lt_is_Some_2 (bulb_params self) j ltac:(lia)) as [b Hb].
    rewrite (list_getitem_in_range _ j b Hb). cbn [mbind outcome_bind].
    destruct (proj1 (Forall_lookup _ _) Hnames j b Hb) as [nm Hnm].
    unfold getitem. rewrite Hnm. cbn [mbind outcome_bind].
    pose proof (first_named_nodup _ j b nm Hnd Hb Hnm) as Hfirst.
    destruct (set_color_at_first self nm c j Hwf Hfirst) as (Eset & _ & Hjl).
    rewrite Eset. cbn [fst snd].
    set (self1 := with_bulb_threads
                    (with_bulb_colors self (<[j := c]> (bulb_colors self)))
                    (alter (fun th => SmartBulbThread.change_color th c) j
                       (bulb_threads self))).
    assert (Hwf1 : wf self1).
    { pose proof (wf_set_color self nm c Hwf) as W. by rewrite Eset in W. }
    replace (Z.succ (Z.of_nat j)) with (Z.of_nat (S j)) by lia.
    replace (Z.pred (Z.of_nat (S k))) with (Z.of_nat k) by lia.
    destruct (IH (S j) self1 Hwf1 Hnd Hlen Hvalid ltac:(lia))
      as (colors & threads & E & Lc & Lt & Pc & Pt).
    exists colors, threads. split; [exact E|].
    split; [by rewrite Lc; unfold self1; simpl; rewrite length_insert|].
    split; [by rewrite Lt; unfold self1; simpl; rewrite length_alter|].
    split; intros i.
    + rewrite Pc. unfold self1. simpl.
      destruct (decide (S j <= i)%nat), (decide (j <= i)%nat);
        try lia; try reflexivity.
      * assert (i = j) by lia. subst i.
        rewrite list_lookup_insert_eq by lia. by rewrite Hc.
      * by rewrite list_lookup_insert_ne by lia.
    + rewrite Pt. unfold self1. simpl.
      destruct (decide (S j <= i)%nat), (decide (j <= i)%nat);
        try lia.
      * rewrite list_lookup_alter_ne by lia. reflexivity.
      * assert (i = j) by lia. subst i.
        rewrite list_lookup_alter_eq, Hc. reflexivity.
      * rewrite list_lookup_alter_ne by lia. reflexivity.
Qed.

End FirstIteration.

Section FirstIterationTheorem.
Import LightManager.

Lemma shift_ring_returns (clockwise : bool) (ring : list (option Py.color)) :
  ring <> [] -> exists moved, shift_ring clockwise ring = Return moved.
Proof.
  intros Hne. unfold shift_ring. destruct clockwise.
  - destruct ring as [|x ring]; [done|]. by eexists.
  - destruct (exists_last Hne) as (init & x & ->).
    unfold list_getitem. cbv zeta.
    replace (-1 <? 0) with true by reflexivity. cbv iota.
    rewrite length_app. simpl length.
    replace (Z.of_nat (length init + 1) + -1 <? 0) with false
      by (symmetry; apply Z.ltb_ge; lia).
    replace (Z.to_nat (Z.of_nat (length init + 1) + -1)) with (length init)
      by lia.
    rewrite lookup_app_r, Nat.sub_diag by lia. simpl. by eexists.
Qed.

(** X23. The first iteration of a pass, on a manager with at least one
    bulb, bulbs of distinct names, a positive finite speed and a ring of
    colours with channels in 0..255: it returns, every bulb's cache entry
    becomes the ring colour of its position and its worker is asked for
    that colour (progress is 0, so no blend with the neighbour yet); the
    thread keeps the ring as the colours of the pass and counts the speed
    down by one. *)
Theorem first_iteration_of_a_pass (s : system) (cs : list Py.color)
    (m : positive) (e : Z) :
  wf (manager s) -> NoDup (names (bulb_params (manager s))) ->
  is_rotation_active (manager s) = true ->
  rotation_speed (manager s) = S754_finite false m e ->
  F64.eqb (cycle (rotation s)) F64.zero = true ->
  bulb_rotation_colors (manager s) = map Some cs ->
  length cs = length (bulb_params (manager s)) -> cs <> [] ->
  Forall valid_rgb cs ->
  exists s',
    tick s = (s', Return tt) /\
    bulb_colors (manager s') = cs /\
    bulb_threads (manager s')
    = zip_with SmartBulbThread.change_color (bulb_threads (manager s)) cs /\
    cycle (rotation s') = F64.sub (S754_finite false m e) F64.one /\
    original_colors (rotation s') = map Some cs.
Proof.
  intros Hwf Hnd Hact Hspeed Hcycle Hring Hlen Hne Hvalid.
  destruct (rotation_pass_at_zero cs (length cs) 0 (manager s)
              Hwf Hnd Hlen Hvalid eq_refl)
    as (colors & threads & Epass & Lc & Lt & Pc & Pt).
  pose proof Hwf as (Hl & Hth & _).
  assert (Hlt : length (bulb_threads (manager s))
                = length (bulb_params (manager s)))
    by (by rewrite <- Hth, length_map).
  assert (Ec : colors = cs).
  { apply list_eq. intros i. rewrite Pc. by rewrite decide_True by lia. }
  assert (Et : threads
               = zip_with SmartBulbThread.change_color
                   (bulb_threads (manager s)) cs).
  { apply list_eq. intros i. rewrite Pt, decide_True by lia.
    rewrite lookup_zip_with.
    destruct (cs !! i), (bulb_threads (manager s) !! i); reflexivity. }
  subst colors threads.
  destruct (shift_ring_returns (rotation_clockwise (manager s)) (map Some cs))
    as [moved Emoved].
  { intros H. apply Hne. by destruct cs. }
  unfold tick, rotation_worker_body. run_m.
  rewrite Hact, Hcycle. cbn [LightManager.cycle original_colors].
  rewrite Hspeed, sub_self.
  change (F64.div F64.zero (S754_finite false m e)) with (Return F64.zero).
  cbn [mbind outcome_bind]. rewrite Hring, <- Hlen.
  change 0 with (Z.of_nat 0). rewrite Epass. cbn [fst snd].
  destruct (F64.eqb (F64.sub (S754_finite false m e) F64.one) F64.zero).
  - cbn [rotation_clockwise bulb_rotation_colors with_bulb_threads
         with_bulb_colors]. rewrite Hring, Emoved.
    eexists. split; [reflexivity|]. by repeat split.
  - eexists. split; [reflexivity|]. by repeat split.
Qed.

Lemma first_iteration_of_a_pass_witness :
  let s := (call (rotate (NInt 4) (NFloat half) true)
              (call (set_color "A" (255, 0, 0))
                 (start [device_named "A"; device_named "B"])).1).1 in
  exists s', tick s = (s', Return tt) /\
             bulb_colors (manager s') = [(255, 0, 0); (0, 0, 0)].
Proof.
  intros s.
  assert (H1 : wf (manager s)) by compute_done.
  assert (H2 : NoDup (names (bulb_params (manager s)))) by compute_done.
  assert (H3 : is_rotation_active (manager s) = true) by reflexivity.
  assert (H4 : rotation_speed (manager s)
               = S754_finite false 4503599627370496 (-50)) by reflexivity.
  assert (H5 : F64.eqb (cycle (rotation s)) F64.zero = true) by reflexivity.
  assert (H6 : bulb_rotation_colors (manager s)
               = map Some [(255, 0, 0); (0, 0, 0)]) by reflexivity.
  assert (H7 : length [(255, 0, 0); (0, 0, 0)]
               = length (bulb_params (manager s))) by reflexivity.
  assert (H8 : [(255, 0, 0); (0, 0, 0)] <> ([] : list Py.color))
    by discriminate.
  assert (H9 : Forall valid_rgb [(255, 0, 0); (0, 0, 0)])
    by (repeat constructor; simpl; lia).
  destruct (first_iteration_of_a_pass s [(255, 0, 0); (0, 0, 0)]
              4503599627370496 (-50) H1 H2 H3 H4 H5 H6 H7 H8 H9)
    as (s' & E & C & _).
  exists s'. split; [exact E | exact C].
Defined.

End FirstIterationTheorem.

(** ** The regular state is kept *)

Section RegularState.
Import LightManager.

Lemma list_setitem_length {A} (l l' : list A) (i : Z) (x : A) :
  list_setitem l i x = Return l' -> length l' = length l.
Proof.
  unfold list_setitem. cbv zeta.
  destruct (_ && _); [intros [= <-]; apply length_insert|].
  destruct (_ && _); [intros [= <-]; apply length_insert | discriminate].
Qed.

Lemma set_color_cache_length (name : string) (c : Py.color) (self : t) :
  length (bulb_colors (set_color name c self).1) = length (bulb_colors self).
Proof.
  unfold set_color. run_m.
  destruct (find_bulb_index self name) as [i|e]; simpl; [|done].
  destruct (i =? -1).
  - by destruct (names_of "Name" (bulb_params self)).
  - destruct (list_setitem (bulb_colors self) i c) as [colors|e] eqn:E;
      simpl; [|done].
    apply list_setitem_length in E.
    by destruct (change_first (bulb_threads self) name c) as [[threads'|]|e].
Qed.

Lemma get_color_cache_length (name : string) (self : t) :
  length (bulb_colors (get_color name self).1) = length (bulb_colors self).
Proof.
  unfold get_color. run_m.
  destruct (first_thread (bulb_threads self) name) as [[th|]|e]; simpl;
    try done.
  destruct (find_bulb_index self name) as [i|e]; simpl; try done.
  destruct (list_setitem _ i _) as [colors|e] eqn:E; simpl; try done.
  apply list_setitem_length in E. by destruct (list_getitem colors i).
Qed.

Lemma get_colors_from_cache_length threads (self : t) :
  length (bulb_colors (get_colors_from threads self).1)
  = length (bulb_colors self).
Proof.
  revert self. induction threads as [|th rest IH]; intros self; simpl;
    [done|].
  run_m. destruct (getitem _ "name") as [n|e]; simpl; [|done].
  destruct (find_bulb_index self n) as [i|e]; simpl; [|done].
  destruct (list_setitem _ i _) as [colors|e] eqn:E; simpl; [|done].
  apply list_setitem_length in E. rewrite IH. exact E.
Qed.

Lemma rotate_collect_cache_length params (self : t) :
  length (bulb_colors (rotate_collect params self).1)
  = length (bulb_colors self).
Proof.
  revert self. induction params as [|b rest IH]; intros self; simpl; [done|].
  run_m. destruct (getitem b "name") as [n|e]; simpl; [|done].
  pose proof (get_color_cache_length n self) as H.
  destruct (get_color n self) as [s1 [c|e]]; simpl in *; [|done].
  rewrite IH. exact H.
Qed.

Lemma rotate_cache_length speed update_pause clockwise (self : t) :
  length (bulb_colors (rotate speed update_pause clockwise self).1)
  = length (bulb_colors self).
Proof.
  unfold rotate. run_m.
  pose proof (rotate_collect_cache_length (bulb_params self)
                (with_bulb_rotation_colors self [])) as H.
  destruct (rotate_collect _ _) as [s1 [[]|e]]; simpl in *; [|done].
  destruct (float_of_num speed); simpl; [|done].
  by destruct (float_of_num update_pause).
Qed.

Lemma rotation_pass_cache_length original_colors cycle_percent indices
    (self : t) :
  length (bulb_colors
            (rotation_pass original_colors cycle_percent indices self).1)
  = length (bulb_colors self).
Proof.
  revert self. induction indices as [|i rest IH]; intros self; [done|].
  simpl. run_m.
  destruct (list_getitem original_colors i) as [c1|e]; simpl; [|done].
  destruct (list_getitem original_colors _) as [c2|e]; simpl; [|done].
  destruct (match c1 with Some _ => _ | None => _ end) as [new_color|e];
    simpl; [|done].
  destruct (list_getitem (bulb_params self) i) as [bulb|e]; simpl; [|done].
  destruct (getitem bulb "name") as [bulbname|e]; simpl; [|done].
  pose proof (set_color_cache_length bulbname new_color self) as H.
  destruct (set_color bulbname new_color self) as [s1 [r|e]]; simpl in *;
    [|exact H].
  rewrite IH. exact H.
Qed.

Lemma rotation_worker_body_cache_length (l : locals) (self : t) :
  length (bulb_colors (rotation_worker_body l self).1)
  = length (bulb_colors self).
Proof.
  unfold rotation_worker_body. run_m.
  destruct (is_rotation_active self); [|done].
  destruct (F64.div _ _) as [cycle_percent|e]; simpl; [|done].
  match goal with
  | |- context [rotation_pass ?o ?p ?ix self] =>
      pose proof (rotation_pass_cache_length o p ix self) as H;
      destruct (rotation_pass o p ix self) as [s1 [r|e]]
  end; simpl in *; [|exact H].
  destruct (F64.eqb _ _); simpl; [|exact H].
  by destruct (shift_ring _ _).
Qed.

Lemma wf_no_device_access (a b : t) :
  wf a -> no_device_access a b ->
  length (bulb_colors b) = length (bulb_colors a) -> wf b.
Proof.
  intros (Hl & Hth & Hn) (Hp & _ & H2) Hc. unfold wf. rewrite Hp, Hc.
  repeat split; try assumption. rewrite <- Hth. clear -H2.
  induction H2 as [|x y l k (Hb & _) _ IH]; simpl; [reflexivity|].
  by rewrite Hb, IH.
Qed.

Lemma manager_step_wf (s : system) (e : manager_event) :
  wf (manager s) -> wf (manager (manager_step s e)).
Proof.
  intros Hwf. destruct (is_worker_event e) eqn:He.
  - destruct e; try discriminate; simpl; apply wf_thread_step; try exact Hwf;
      intros [p c st r [] d]; simpl; try reflexivity; by destruct r.
  - apply (wf_no_device_access (manager s)); [exact Hwf | |].
    + by apply manager_step_no_device_access.
    + destruct e; try discriminate; simpl; unfold call.
      * pose proof (set_color_cache_length name c (manager s)).
        by destruct (set_color name c (manager s)).
      * unfold set_color_hex. destruct (negb _); [done|]. run_m.
        destruct (convert_from_hex s0); simpl; [|done].
        pose proof (set_color_cache_length name a (manager s)).
        by destruct (set_color name a (manager s)).
      * pose proof (get_color_cache_length name (manager s)).
        by destruct (get_color name (manager s)).
      * unfold get_colors. run_m.
        pose proof (get_colors_from_cache_length (bulb_threads (manager s))
                      (manager s)).
        by destruct (get_colors_from _ _).
      * pose proof (rotate_cache_length speed update_pause clockwise
                      (manager s)).
        by destruct (rotate _ _ _ _).
      * reflexivity.
      * unfold rotation_step, tick. destruct (is_running (manager s)); [|done].
        pose proof (rotation_worker_body_cache_length (rotation s)
                      (manager s)).
        by destruct (rotation_worker_body _ _) as [s1 [l|x]].
Qed.

(** X24. The constructor, given bulbs that all have a name, leaves the
    manager in its regular state (one cache entry and one worker per bulb,
    in the order of the bulbs), and nothing that is called or happens
    afterwards takes it out of that state, exceptions included. *)
Theorem regular_state_is_kept (bulbs : list param)
    (events : list manager_event) :
  Forall has_name bulbs ->
  wf (manager (manager_run (start bulbs) events)).
Proof.
  intros Hn. assert (H0 : wf (manager (start bulbs))) by (by apply wf_init).
  generalize dependent (start bulbs). intros s H0. revert s H0.
  induction events as [|e events IH]; intros s H0; [exact H0|].
  unfold manager_run in *. simpl. apply IH. by apply manager_step_wf.
Qed.

Lemma regular_state_is_kept_witness :
  wf (manager
        (manager_run (start [device_named "A"; device_named "B"])
           [CallSetColor "A" (1, 2, 3); CallSetColor "C" (1, 2, 3);
            CallRotate (NInt 0) (NInt 1) true; RotationStep;
            WorkerEnterWait 0; CallGetColors])).
Proof.
  apply regular_state_is_kept.
  repeat constructor; by eexists.
Defined.

End RegularState.
